(** * File operations and the code-flow component of the agent: a shallow
    embedding

    The development follows [autogpt/commands/file_operations.py] and
    [autogpt/commands/execute_code_flow.py].

    - Python [str] values are [string]s (a sequence of 8-bit character codes;
      codes above 127 are treated as printable characters).
    - Python [int]s are [Z].
    - The POSIX flavour of [os.path] is embedded from its reference
      implementation ([posixpath]): [join], [normpath], [commonprefix],
      [dirname], [relpath].
    - The file system is a directory tree without links; every path handed
      to the operating system by this module is absolute, so a path is
      resolved from the root by its non-empty components.  A directory lists
      its entries in a fixed order, new entries last.
    - The limits are those of Linux: a name of more than [NAME_MAX] = 255
      bytes and a path of [PATH_MAX] = 4096 bytes or more are refused with
      [ENAMETOOLONG]; file names are encoded in UTF-8, and the length of a
      path is counted over its components, one separator before each (the
      length of the normalised paths this module makes).  A name with a NUL
      is refused with [ValueError] before the operating system is asked.
    - A file opened with mode ["r"] is read with universal newlines: a
      carriage return, with the line feed that follows it if there is one,
      is read as one line feed.  Writing and appending store the characters
      as they are.
    - Functions that can raise return in a state-and-exception monad; a
      [try ... except Exception] is [try_except].
    - [log_operation] and [append_to_file] call each other without a base
      case.  Their embedding takes the number of frames the interpreter still
      allows: a call with none left raises [RecursionError], as CPython does
      at its recursion limit.  The [while] loop of [split_file] takes fuel.
    - The memory handed to [ingest_file] is any type with an [add] that may
      raise; what [print] writes is kept as the list of lines.
    - A [dict] is the list of its items in insertion order.  What
      [exec] and [await] make of the code assembled by [execute_code_flow]
      is a parameter: the text [main()] evaluates to, or an exception.  *)

From Stdlib Require Import String Ascii List ZArith Lia Bool Arith.
From Stdlib Require Import DecimalString.
Import ListNotations.
Local Open Scope list_scope.
Local Open Scope string_scope.

Set Implicit Arguments.

(** ** Python strings *)

Module Py.

Definition nl : ascii := "010"%char.

(** The one-character string of a line feed. *)
Definition newline : string := String nl EmptyString.

(** [s.startswith(p)] *)
Definition startswith (s p : string) : bool := String.prefix p s.

(** [s.endswith(c)] for a one-character suffix *)
Fixpoint endswith_char (s : string) (c : ascii) : bool :=
  match s with
  | EmptyString => false
  | String a EmptyString => Ascii.eqb a c
  | String _ s' => endswith_char s' c
  end.

(** [needle in hay] *)
Fixpoint contains (hay needle : string) : bool :=
  String.prefix needle hay ||
  match hay with
  | EmptyString => false
  | String _ hay' => contains hay' needle
  end.

(** [s.split(c)] for a one-character separator: never the empty list. *)
Fixpoint split (c : ascii) (s : string) : list string :=
  match s with
  | EmptyString => [EmptyString]
  | String a s' =>
      if Ascii.eqb a c then EmptyString :: split c s'
      else match split c s' with
           | h :: t => String a h :: t
           | [] => [String a EmptyString]
           end
  end.

(** [sep.join(l)] *)
Definition join (sep : string) (l : list string) : string :=
  String.concat sep l.

Definition lower_char (a : ascii) : ascii :=
  let n := nat_of_ascii a in
  if (65 <=? n)%nat && (n <=? 90)%nat then ascii_of_nat (n + 32) else a.

(** [s.lower()] on the ASCII range *)
Fixpoint lower (s : string) : string :=
  match s with
  | EmptyString => EmptyString
  | String a s' => String (lower_char a) (lower s')
  end.

Definition len (s : string) : Z := Z.of_nat (String.length s).

(** A slice bound as Python clamps it: negative bounds count from the end. *)
Definition clamp (n i : Z) : Z :=
  if (i <? 0)%Z then Z.max (i + n) 0 else Z.min i n.

(** [s[a:b]] *)
Definition slice (s : string) (a b : Z) : string :=
  let n := len s in
  let lo := clamp n a in
  let hi := clamp n b in
  String.substring (Z.to_nat lo) (Z.to_nat (hi - lo)) s.

Definition hex_digit (n : nat) : ascii :=
  if (n <? 10)%nat then ascii_of_nat (48 + n) else ascii_of_nat (87 + n).

(** The escape [repr] writes for one character inside quotes [q]. *)
Definition repr_char (q a : ascii) : string :=
  let n := nat_of_ascii a in
  if Ascii.eqb a "\"%char then "\\"
  else if Ascii.eqb a q then String "\"%char (String q EmptyString)
  else if (n =? 10)%nat then "\n"
  else if (n =? 13)%nat then "\r"
  else if (n =? 9)%nat then "\t"
  else if (n <? 32)%nat || (n =? 127)%nat then
    String "\"%char (String "x"%char
      (String (hex_digit (n / 16)) (String (hex_digit (n mod 16)) EmptyString)))
  else String a EmptyString.

Fixpoint repr_body (q : ascii) (s : string) : string :=
  match s with
  | EmptyString => EmptyString
  | String a s' => repr_char q a ++ repr_body q s'
  end.

Fixpoint has_char (c : ascii) (s : string) : bool :=
  match s with
  | EmptyString => false
  | String a s' => Ascii.eqb a c || has_char c s'
  end.

Definition cr : ascii := "013"%char.

Definition nul : ascii := "000"%char.

(** The text that reading in text mode makes of the characters of a file
    ([newline=None]): [\r\n] and a lone [\r] are read as [\n]. *)
Fixpoint universal_newlines (s : string) : string :=
  match s with
  | EmptyString => EmptyString
  | String a s' =>
      if Ascii.eqb a cr then
        match s' with
        | String b s'' =>
            if Ascii.eqb b nl then String nl (universal_newlines s'')
            else String nl (universal_newlines s')
        | EmptyString => String nl EmptyString
        end
      else String a (universal_newlines s')
  end.

(** [len(s.encode("utf-8"))]: a character code above 127 takes two
    bytes. *)
Fixpoint utf8_len (s : string) : nat :=
  match s with
  | EmptyString => 0
  | String a s' =>
      (if (nat_of_ascii a <? 128)%nat then 1 else 2) + utf8_len s'
  end.

(** [repr(s)]: single quotes unless the string holds a single quote and no
    double quote. *)
Definition repr (s : string) : string :=
  let dq := ascii_of_nat 34 in
  let q := if has_char "'"%char s && negb (has_char dq s)
           then dq else "'"%char in
  String q (repr_body q s ++ String q EmptyString).

End Py.

(** ** [posixpath] *)

Module posixpath.

Definition sep : ascii := "/"%char.

(** One step of the loop of [join]: [b] is added to [path]. *)
Definition join1 (path b : string) : string :=
  if Py.startswith b "/" then b
  else if String.eqb path "" || Py.endswith_char path sep then path ++ b
  else path ++ "/" ++ b.

(** [os.path.join(a, *p)] *)
Definition join (a : string) (p : list string) : string :=
  fold_left join1 p a.

(** The loop of [normpath] over the components; [new_comps] is kept
    reversed (its head is the last component pushed). *)
Fixpoint norm_comps (initial_slashes : nat) (comps new_comps : list string)
  : list string :=
  match comps with
  | [] => rev new_comps
  | comp :: rest =>
      if String.eqb comp "" || String.eqb comp "." then
        norm_comps initial_slashes rest new_comps
      else if negb (String.eqb comp "..")
              || ((initial_slashes =? 0)%nat &&
                  match new_comps with [] => true | _ => false end)
              || match new_comps with
                 | last :: _ => String.eqb last ".."
                 | [] => false
                 end
      then norm_comps initial_slashes rest (comp :: new_comps)
      else match new_comps with
           | _ :: popped => norm_comps initial_slashes rest popped
           | [] => norm_comps initial_slashes rest new_comps
           end
  end.

Definition initial_slashes (path : string) : nat :=
  if Py.startswith path "/" then
    if Py.startswith path "//" && negb (Py.startswith path "///")
    then 2 else 1
  else 0.

Fixpoint slashes (n : nat) : string :=
  match n with
  | O => ""
  | S n' => String sep (slashes n')
  end.

(** [os.path.normpath(path)] *)
Definition normpath (path : string) : string :=
  if String.eqb path "" then "."
  else
    let i := initial_slashes path in
    let comps := norm_comps i (Py.split sep path) [] in
    let p := slashes i ++ Py.join "/" comps in
    if String.eqb p "" then "." else p.

(** The loop of [commonprefix]: the characters of [s1] up to the first
    one that differs from [s2]. *)
Fixpoint common (s1 s2 : string) : string :=
  match s1, s2 with
  | String a s1', String b s2' =>
      if Ascii.eqb a b then String a (common s1' s2') else EmptyString
  | _, _ => EmptyString
  end.

(** [os.path.commonprefix([a, b])]: [s1 = min(m)], [s2 = max(m)] in the
    order of [str], then the character-wise scan. *)
Definition commonprefix2 (a b : string) : string :=
  let s1 := if String.leb a b then a else b in
  let s2 := if String.leb a b then b else a in
  common s1 s2.

(** The non-empty components of a path: how the operating system reads an
    absolute path without [.] and [..], and the list [relpath] works on. *)
Definition components (path : string) : list string :=
  filter (fun c => negb (String.eqb c "")) (Py.split sep path).

Fixpoint all_slashes (s : string) : bool :=
  match s with
  | EmptyString => true
  | String a s' => Ascii.eqb a sep && all_slashes s'
  end.

(** [s.rstrip('/')] *)
Fixpoint rstrip_slash (s : string) : string :=
  match s with
  | EmptyString => EmptyString
  | String a s' =>
      if all_slashes s then EmptyString else String a (rstrip_slash s')
  end.

(** [p[:p.rfind('/') + 1]] *)
Fixpoint head_upto_last_slash (p : string) : string :=
  match p with
  | EmptyString => EmptyString
  | String a p' =>
      if Py.has_char sep p then String a (head_upto_last_slash p')
      else EmptyString
  end.

(** [os.path.dirname(p)] *)
Definition dirname (p : string) : string :=
  let head := head_upto_last_slash p in
  if negb (String.eqb head "") && negb (all_slashes head)
  then rstrip_slash head else head.

Fixpoint common_len (l1 l2 : list string) : nat :=
  match l1, l2 with
  | a :: l1', b :: l2' => if String.eqb a b then S (common_len l1' l2') else 0
  | _, _ => 0
  end.

(** [os.path.relpath(path, start)] for absolute [path] and [start]
    ([abspath] is then [normpath]). *)
Definition relpath (path start : string) : string :=
  let start_list := components (normpath start) in
  let path_list := components (normpath path) in
  let i := common_len start_list path_list in
  let rel_list :=
    (repeat ".." (List.length start_list - i) ++ skipn i path_list)%list in
  match rel_list with
  | [] => "."
  | a :: p => join a p
  end.

End posixpath.

(** ** Exceptions and the monad of the module's functions *)

Inductive os_errno := ENOENT | EEXIST | ENOTDIR | EISDIR | ENAMETOOLONG.

Inductive exn :=
| ValueError (msg : string)
| OSError (errno : os_errno) (filename : string)
| RecursionError.

Definition errno_str (e : os_errno) : string :=
  match e with
  | ENOENT => "[Errno 2] No such file or directory"
  | EEXIST => "[Errno 17] File exists"
  | ENOTDIR => "[Errno 20] Not a directory"
  | EISDIR => "[Errno 21] Is a directory"
  | ENAMETOOLONG => "[Errno 36] File name too long"
  end.

(** [str(e)] *)
Definition str_exn (e : exn) : string :=
  match e with
  | ValueError msg => msg
  | OSError errno filename => errno_str errno ++ ": " ++ Py.repr filename
  | RecursionError => "maximum recursion depth exceeded"
  end.

(** ** The file system *)

#[warnings="-register-all"]
Inductive node :=
| File (content : string)
| Dir (entries : list (string * node)).

Definition path := list string.

Module os.

Fixpoint assoc (name : string) (es : list (string * node)) : option node :=
  match es with
  | [] => None
  | (k, n) :: es' => if String.eqb k name then Some n else assoc name es'
  end.

(** The entry [name] replaced by [o] where it stands ([None] drops every
    entry of that name); a new entry comes last in the listing. *)
Fixpoint set_entry (name : string) (o : option node)
  (es : list (string * node)) : list (string * node) :=
  match es with
  | [] => match o with Some n => [(name, n)] | None => [] end
  | (k, n) :: es' =>
      if String.eqb k name
      then match o with
           | Some n' => (k, n') :: es'
           | None => set_entry name None es'
           end
      else (k, n) :: set_entry name o es'
  end.

(** Path resolution from the root. *)
Fixpoint stat (p : path) (n : node) : os_errno + node :=
  match p with
  | [] => inr n
  | c :: p' =>
      match n with
      | File _ => inl ENOTDIR
      | Dir es =>
          match assoc c es with
          | Some m => stat p' m
          | None => inl ENOENT
          end
      end
  end.

(** The entry at [p] rewritten by [f], which sees what is there. *)
Fixpoint update (p : path) (f : option node -> os_errno + option node)
  (n : node) : os_errno + node :=
  match n with
  | File _ => inl ENOTDIR
  | Dir es =>
      match p with
      | [] => inl EISDIR
      | [c] =>
          match f (assoc c es) with
          | inl e => inl e
          | inr o => inr (Dir (set_entry c o es))
          end
      | c :: p' =>
          match assoc c es with
          | None => inl ENOENT
          | Some m =>
              match update p' f m with
              | inl e => inl e
              | inr m' => inr (Dir (set_entry c (Some m') es))
              end
          end
      end
  end.

Definition on_write (text : string) (o : option node)
  : os_errno + option node :=
  match o with
  | Some (Dir _) => inl EISDIR
  | _ => inr (Some (File text))
  end.

Definition on_append (text : string) (o : option node)
  : os_errno + option node :=
  match o with
  | Some (Dir _) => inl EISDIR
  | Some (File c) => inr (Some (File (c ++ text)))
  | None => inr (Some (File text))
  end.

Definition on_remove (o : option node) : os_errno + option node :=
  match o with
  | Some (File _) => inr None
  | Some (Dir _) => inl EISDIR
  | None => inl ENOENT
  end.

Definition on_mkdir (o : option node) : os_errno + option node :=
  match o with
  | Some _ => inl EEXIST
  | None => inr (Some (Dir []))
  end.

(** The path string of the first [k] components, as [makedirs] names it. *)
Definition prefix_str (k : nat) (p : path) : string :=
  "/" ++ Py.join "/" (firstn k p).

Definition NAME_MAX : nat := 255.

Definition PATH_MAX : nat := 4096.

(** A name a directory can hold: no NUL, at most [NAME_MAX] bytes. *)
Definition storable (c : string) : bool :=
  negb (Py.has_char Py.nul c) && (Py.utf8_len c <=? NAME_MAX)%nat.

(** The bytes of the path of these components, a separator before each. *)
Fixpoint path_bytes (p : path) : nat :=
  match p with
  | [] => 0
  | c :: p' => S (Py.utf8_len c) + path_bytes p'
  end.

(** A path the file system takes whatever the tree holds. *)
Definition accepts (p : path) : bool :=
  forallb storable p && (path_bytes p <? PATH_MAX)%nat.

(** The walk along [p] comes to a name of more than [NAME_MAX] bytes: the
    names before it lead through directories that exist. *)
Fixpoint name_too_long (p : path) (n : node) : bool :=
  match p, n with
  | c :: p', Dir es =>
      (NAME_MAX <? Py.utf8_len c)%nat ||
      match assoc c es with
      | Some m => name_too_long p' m
      | None => false
      end
  | _, _ => false
  end.

(** The answer to a path that is not resolved to its end: no entry has a
    name with a NUL; a path of [PATH_MAX] bytes or more is refused before
    the walk, a name of more than [NAME_MAX] bytes where the walk comes
    to it. *)
Definition refused (p : path) (n : node) : option os_errno :=
  if existsb (Py.has_char Py.nul) p then Some ENOENT
  else if (PATH_MAX <=? path_bytes p)%nat then Some ENAMETOOLONG
  else if name_too_long p n then Some ENAMETOOLONG
  else None.

End os.

(** The state of the file system: the entries of the root directory. *)
Definition fs := list (string * node).

(** What the operating system finds at the absolute path [p]. *)
Definition fs_stat (p : path) (s : fs) : os_errno + node :=
  match os.refused p (Dir s) with
  | Some e => inl e
  | None => os.stat p (Dir s)
  end.

Definition fs_update (p : path) (f : option node -> os_errno + option node)
  (s : fs) : os_errno + fs :=
  match os.refused p (Dir s) with
  | Some e => inl e
  | None =>
      match os.update p f (Dir s) with
      | inr (Dir es) => inr es
      | inr (File _) => inl ENOTDIR
      | inl e => inl e
      end
  end.

(** A computation reads and writes the tree and returns or raises. *)
Definition M (A : Type) : Type := fs -> (exn + A) * fs.

Definition ret {A} (a : A) : M A := fun s => (inr a, s).
Definition raise {A} (e : exn) : M A := fun s => (inl e, s).
Definition bind {A B} (m : M A) (k : A -> M B) : M B :=
  fun s => match m s with
           | (inr a, s') => k a s'
           | (inl e, s') => (inl e, s')
           end.

(** [try: body  except Exception as e: handler(e)] *)
Definition try_except {A} (body : M A) (handler : exn -> M A) : M A :=
  fun s => match body s with
           | (inl e, s') => handler e s'
           | r => r
           end.

Notation "x <- m ;; k" := (bind m (fun x => k))
  (at level 61, m at next level, right associativity).
Notation "m ;;; k" := (bind m (fun _ => k))
  (at level 61, right associativity).

(** [open], [os.remove], [os.mkdir] and [os.scandir] raise this for a name
    with a NUL, before the operating system is asked. *)
Definition embedded_null : exn := ValueError "embedded null byte".

(** A system call that rewrites the entry at [filename]. *)
Definition sys_update (filename : string)
  (f : option node -> os_errno + option node) : M unit :=
  fun s =>
    if Py.has_char Py.nul filename then (inl embedded_null, s)
    else match fs_update (posixpath.components filename) f s with
         | inl e => (inl (OSError e filename), s)
         | inr s' => (inr tt, s')
         end.

(** [with open(filename, "r", encoding="utf-8") as f: f.read()] *)
Definition open_read (filename : string) : M string :=
  fun s =>
    if Py.has_char Py.nul filename then (inl embedded_null, s)
    else match fs_stat (posixpath.components filename) s with
         | inr (File c) => (inr (Py.universal_newlines c), s)
         | inr (Dir _) => (inl (OSError EISDIR filename), s)
         | inl e => (inl (OSError e filename), s)
         end.

(** [with open(filename, "w") as f: f.write(text)] *)
Definition open_write (filename text : string) : M unit :=
  sys_update filename (os.on_write text).

(** [with open(filename, "a") as f: f.write(text)] *)
Definition open_append (filename text : string) : M unit :=
  sys_update filename (os.on_append text).

(** [os.remove(filename)] *)
Definition os_remove (filename : string) : M unit :=
  sys_update filename os.on_remove.

(** [os.mkdir(filename)] *)
Definition os_mkdir (filename : string) : M unit :=
  sys_update filename os.on_mkdir.

(** [os.path.exists(filename)]: [False] for whatever [os.stat] refuses. *)
Definition path_exists (filename : string) : M bool :=
  fun s => match fs_stat (posixpath.components filename) s with
           | inr _ => (inr true, s)
           | inl _ => (inr false, s)
           end.

(** [os.makedirs] of the first [k] components of [p]: the parent is made
    first when it does not exist (a [FileExistsError] of that step is
    passed over), then the directory itself. *)
Fixpoint makedirs_upto (k : nat) (p : path) : M unit :=
  match k with
  | O => raise (OSError EEXIST (os.prefix_str 0 p))
  | S k' =>
      ex <- path_exists (os.prefix_str k' p) ;;
      (if negb ex
       then try_except (makedirs_upto k' p)
              (fun e => match e with
                        | OSError EEXIST _ => ret tt
                        | _ => raise e
                        end)
       else ret tt) ;;;
      os_mkdir (os.prefix_str (S k') p)
  end.

(** [os.makedirs(name)] *)
Definition os_makedirs (name : string) : M unit :=
  let p := posixpath.components name in
  makedirs_upto (List.length p) p.

Definition lift {A} (r : exn + A) : M A := fun s => (r, s).

(** [os.walk(top)]: each directory of the subtree, top-down, with the names
    of its sub-directories and of its other entries in listing order.  A
    directory whose path has [PATH_MAX] bytes or more cannot be listed and
    yields nothing. *)
Fixpoint walk (top : string) (n : node)
  : list (string * (list string * list string)) :=
  match n with
  | File _ => []
  | Dir es =>
      if (os.PATH_MAX <=? os.path_bytes (posixpath.components top))%nat
      then []
      else
        let names_where (keep : node -> bool) :=
          map fst (filter (fun e : string * node => keep (snd e)) es) in
        (top,
         (names_where (fun m => match m with Dir _ => true | _ => false end),
          names_where (fun m => match m with Dir _ => false | _ => true end)))
        :: flat_map (fun e : string * node =>
                       match e with
                       | (name, Dir _ as m) =>
                           walk (posixpath.join top [name]) m
                       | (_, File _) => []
                       end) es
  end.

(** A directory that cannot be listed yields nothing ([onerror] is unset);
    the [ValueError] of a name with a NUL is not an [OSError] and is
    raised. *)
Definition os_walk (top : string)
  : M (list (string * (list string * list string))) :=
  fun s =>
    if Py.has_char Py.nul top then (inl embedded_null, s)
    else match fs_stat (posixpath.components top) s with
         | inr n => (inr (walk top n), s)
         | inl _ => (inr [], s)
         end.

(** ** The module [file_operations] *)

(** The configuration object [CFG] comes from [autogpt.config], which is not
    part of this module; its one field read here is kept as the text that
    [str(CFG.working_directory_restricted)] gives. *)
Record Config := { working_directory_restricted : string }.

Section FileOperations.

Variable CFG : Config.

(** [os.getcwd()] when the module is loaded. *)
Variable cwd : string.

(** [Path(os.getcwd()) / "auto_gpt_workspace"], then [str] of it. *)
Definition WORKING_DIRECTORY : string :=
  posixpath.join cwd ["auto_gpt_workspace"].

Definition LOG_FILE : string := "file_logger.txt".

Definition LOG_FILE_PATH : string :=
  posixpath.join WORKING_DIRECTORY [LOG_FILE].

(** The directory is created when the module is loaded. *)
Definition module_init : M unit :=
  ex <- path_exists WORKING_DIRECTORY ;;
  if negb ex then os_makedirs WORKING_DIRECTORY else ret tt.

Definition safe_join (base : string) (paths : list string) : exn + string :=
  if String.eqb (Py.lower (working_directory_restricted CFG)) "true" then
    let new_path := posixpath.normpath (posixpath.join base paths) in
    if negb (String.eqb (posixpath.commonprefix2 base new_path) base)
    then inl (ValueError "Attempted to access outside of working directory.")
    else inr new_path
  else
    inr (posixpath.normpath (posixpath.join "/" paths)).

(** The slice bounds the loop of [split_file] computes from [start] on;
    [None] when [fuel] iterations do not end the loop. *)
Fixpoint split_spans (fuel : nat) (content_length max_length overlap : Z)
  (start : Z) : option (list (Z * Z)) :=
  if (start <? content_length)%Z then
    match fuel with
    | O => None
    | S fuel' =>
        let end_ := (start + max_length)%Z in
        let span :=
          if (end_ + overlap <? content_length)%Z
          then (start, (end_ + overlap)%Z)
          else (start, content_length) in
        option_map (cons span)
          (split_spans fuel' content_length max_length overlap
             (start + (max_length - overlap))%Z)
    end
  else Some [].

(** The chunks [split_file] yields, in order. *)
Definition split_file (fuel : nat) (content : string)
  (max_length overlap : Z) : option (list string) :=
  option_map (map (fun span => Py.slice content (fst span) (snd span)))
    (split_spans fuel (Py.len content) max_length overlap 0).

Definition read_file (filename : string) : M string :=
  try_except
    (filepath <- lift (safe_join WORKING_DIRECTORY [filename]) ;;
     open_read filepath)
    (fun e => ret ("Error: " ++ str_exn e)).

Definition log_entry (operation filename : string) : string :=
  operation ++ ": " ++ filename ++ Py.newline.

Definition check_duplicate_operation (operation filename : string) : M bool :=
  log_content <- read_file LOG_FILE ;;
  ret (Py.contains log_content (log_entry operation filename)).

(** [log_operation] and [append_to_file] call each other; [depth] is the
    number of their frames the interpreter still allows, and a call with
    none left raises [RecursionError] where it is made. *)
Fixpoint log_operation (depth : nat) (operation filename : string)
  {struct depth} : M unit :=
  match depth with
  | O => raise RecursionError
  | S depth' =>
      ex <- path_exists LOG_FILE_PATH ;;
      (if negb ex
       then open_write LOG_FILE_PATH "File Operation Logger "
       else ret tt) ;;;
      _ <- append_to_file depth' LOG_FILE (log_entry operation filename) ;;
      ret tt
  end
with append_to_file (depth : nat) (filename text : string)
  {struct depth} : M string :=
  match depth with
  | O => raise RecursionError
  | S depth' =>
      try_except
        (filepath <- lift (safe_join WORKING_DIRECTORY [filename]) ;;
         open_append filepath text ;;;
         log_operation depth' "append" filename ;;;
         ret "Text appended successfully.")
        (fun e => ret ("Error: " ++ str_exn e))
  end.

Definition write_to_file (depth : nat) (filename text : string) : M string :=
  dup <- check_duplicate_operation "write" filename ;;
  if dup then ret "Error: File has already been updated."
  else
    try_except
      (filepath <- lift (safe_join WORKING_DIRECTORY [filename]) ;;
       let directory := posixpath.dirname filepath in
       ex <- path_exists directory ;;
       (if negb ex then os_makedirs directory else ret tt) ;;;
       open_write filepath text ;;;
       log_operation depth "write" filename ;;;
       ret "File written to successfully.")
      (fun e => ret ("Error: " ++ str_exn e)).

Definition delete_file (depth : nat) (filename : string) : M string :=
  dup <- check_duplicate_operation "delete" filename ;;
  if dup then ret "Error: File has already been deleted."
  else
    try_except
      (filepath <- lift (safe_join WORKING_DIRECTORY [filename]) ;;
       os_remove filepath ;;;
       log_operation depth "delete" filename ;;;
       ret "File deleted successfully.")
      (fun e => ret ("Error: " ++ str_exn e)).

Definition search_files (directory : string) : M (list string) :=
  search_directory <-
    (if String.eqb directory "" || String.eqb directory "/"
     then ret WORKING_DIRECTORY
     else lift (safe_join WORKING_DIRECTORY [directory])) ;;
  walked <- os_walk search_directory ;;
  ret (flat_map
         (fun step : string * (list string * list string) =>
            let root := fst step in
            let files := snd (snd step) in
            map (fun file =>
                   posixpath.relpath (posixpath.join root [file])
                     WORKING_DIRECTORY)
              (filter (fun file => negb (Py.startswith file ".")) files))
         walked).

End FileOperations.

(** ** Notions the properties are stated with *)

(** The exception of a system call on [filename] that fails where the
    file system answers [e]. *)
Definition os_error (e : os_errno) (filename : string) : exn :=
  if Py.has_char Py.nul filename then embedded_null else OSError e filename.

(** What [stat] finds, errors forgotten. *)
Definition found (p : path) (s : node) : option node :=
  match os.stat p s with
  | inr n => Some n
  | inl _ => None
  end.

(** The system calls of this module never replace a directory. *)
Definition keeps_dirs (f : option node -> os_errno + option node) : Prop :=
  forall es, exists e, f (Some (Dir es)) = inl e.

(** A regular file at [q] whose content satisfies [P]. *)
Definition file_sat (q : path) (P : string -> Prop) (s : fs) : Prop :=
  exists c, fs_stat q s = inr (File c) /\ P c.

(** The text [c] holds the line [entry]. *)
Definition holds_entry (entry c : string) : Prop :=
  Py.contains c entry = true.

(** A run of [ret], [raise] or [lift] read off. *)
Ltac run_done H :=
  lazymatch type of H with
  | ret _ _ = _ => unfold ret in H; inversion H; subst; clear H
  | raise _ _ = _ => unfold raise in H; inversion H; subst; clear H
  | lift _ _ = _ => unfold lift in H; inversion H; subst; clear H
  end.


(** A component of a path: not empty, without a slash. *)
Definition piece (c : string) : bool :=
  negb (String.eqb c "") && negb (Py.has_char posixpath.sep c).

(** A name of a directory entry: not empty, without a slash, neither
    [.] nor [..], and one a directory can hold. *)
Definition valid_name (c : string) : bool :=
  negb (String.eqb c "") && negb (Py.has_char posixpath.sep c)
  && negb (String.eqb c ".") && negb (String.eqb c "..")
  && os.storable c.

(** The absolute path that names the directories [cs] from the root down. *)
Definition abs_path (cs : list string) : string := "/" ++ Py.join "/" cs.

(** A normalised absolute path, as [os.getcwd()] returns it, short enough
    for the working directory and its log file to be named below it. *)
Definition canonical (p : string) : bool :=
  forallb valid_name (posixpath.components p)
  && String.eqb p (abs_path (posixpath.components p))
  && (os.path_bytes
        (posixpath.components p ++ ["auto_gpt_workspace"; LOG_FILE])%list
      <? os.PATH_MAX)%nat.

(** Every entry below [n] has a valid name. *)
Fixpoint names_ok (n : node) : bool :=
  match n with
  | File _ => true
  | Dir es =>
      forallb (fun e : string * node =>
                 match e with
                 | (name, m) => valid_name name && names_ok m
                 end) es
  end.

(** Every directory below [n], which stands at a path of [len] bytes, has a
    path shorter than [PATH_MAX]. *)
Fixpoint dirs_fit (len : nat) (n : node) : bool :=
  match n with
  | File _ => true
  | Dir es =>
      (len <? os.PATH_MAX)%nat &&
      forallb (fun e : string * node =>
                 match e with
                 | (name, m) => dirs_fit (len + S (Py.utf8_len name)) m
                 end) es
  end.

(** The search result in the words of the specification: the files below a
    directory, top-down in listing order, files whose own name begins with a
    dot skipped, each as the list of names that leads to it from the
    directory the search is relative to. *)
Fixpoint visible_files (dirs : list string) (n : node) : list (list string) :=
  match n with
  | File _ => []
  | Dir es =>
      (map (fun file => dirs ++ [file])
         (filter (fun file => negb (Py.startswith file "."))
            (map fst
               (filter (fun e : string * node =>
                          match snd e with Dir _ => false | _ => true end)
                  es))) ++
       flat_map (fun e : string * node =>
                   match e with
                   | (name, m) => visible_files (dirs ++ [name]) m
                   end) es)%list
  end.

(** ** The log, the working directory and the data of the examples *)

Section LogPath.

Variable CFG : Config.
Variable cwd : string.

(** The path [read_file] and [append_to_file] reach for [LOG_FILE]. *)
Definition log_path : exn + string :=
  safe_join CFG (WORKING_DIRECTORY cwd) [LOG_FILE].

(** [os.path.exists] of that path. *)
Definition log_exists (s : fs) : bool :=
  match log_path with
  | inr lp =>
      match fs_stat (posixpath.components lp) s with
      | inr _ => true
      | inl _ => false
      end
  | inl _ => false
  end.

(** The log path holds a regular file. *)
Definition log_is_file (s : fs) : bool :=
  match log_path with
  | inr lp =>
      match fs_stat (posixpath.components lp) s with
      | inr (File _) => true
      | _ => false
      end
  | inl _ => false
  end.

(** The log holds the line [entry]. *)
Definition log_has (entry : string) (s : fs) : Prop :=
  exists lp, log_path = inr lp /\
    file_sat (posixpath.components lp) (holds_entry entry) s.

(** [filename] resolves to the log itself. *)
Definition is_log_name (filename : string) : bool :=
  match log_path, safe_join CFG (WORKING_DIRECTORY cwd) [filename] with
  | inr lp, inr p =>
      if list_eq_dec string_dec
           (posixpath.components p) (posixpath.components lp)
      then true else false
  | _, _ => false
  end.

(** The node at the working directory, when there is one. *)
Definition workspace_node (s : fs) : option node :=
  match fs_stat (posixpath.components (WORKING_DIRECTORY cwd)) s with
  | inr n => Some n
  | inl _ => None
  end.

(** The visible files of the working directory. *)
Definition workspace_files (s : fs) : list (list string) :=
  match workspace_node s with
  | Some n => visible_files [] n
  | None => []
  end.

(** The entries below the working directory have valid names, and its
    directories can be listed by their absolute paths. *)
Definition workspace_names_ok (s : fs) : bool :=
  match workspace_node s with
  | Some n =>
      names_ok n &&
      dirs_fit
        (os.path_bytes (posixpath.components (WORKING_DIRECTORY cwd))) n
  | None => true
  end.

End LogPath.

(** The operations the file store offers to its caller. *)
Inductive command :=
| Read (filename : string)
| Write (filename text : string)
| Append (filename text : string)
| Delete (filename : string)
| Search (directory : string).

Section Commands.

Variable CFG : Config.
Variable cwd : string.

(** The tree a call leaves, whatever it returned or raised; [depth] is
    the room the call has for [log_operation]. *)
Definition exec (depth : nat) (c : command) (s : fs) : fs :=
  match c with
  | Read filename => snd (read_file CFG cwd filename s)
  | Write filename text => snd (write_to_file CFG cwd depth filename text s)
  | Append filename text => snd (append_to_file CFG cwd depth filename text s)
  | Delete filename => snd (delete_file CFG cwd depth filename s)
  | Search directory => snd (search_files CFG cwd directory s)
  end.

Definition exec_all (cs : list (nat * command)) (s : fs) : fs :=
  fold_left (fun s' dc => exec (fst dc) (snd dc) s') cs s.

(** The call neither overwrites nor removes the log. *)
Definition spares_log (c : command) : bool :=
  match c with
  | Write filename _ | Delete filename => negb (is_log_name CFG cwd filename)
  | _ => true
  end.

End Commands.

(** A path lies inside a root when the components of the root are the first
    components of the path: the reading of the words "outside the working
    directory" of [safe_join]'s error message. *)
Fixpoint starts_with_components (root p : path) : bool :=
  match root, p with
  | [], _ => true
  | r :: root', c :: p' => String.eqb r c && starts_with_components root' p'
  | _ :: _, [] => false
  end.

Definition inside_root (root new_path : string) : bool :=
  starts_with_components (posixpath.components root)
    (posixpath.components new_path).


Fixpoint repeat_str (s : string) (n : nat) : string :=
  match n with
  | O => ""
  | S n' => s ++ repeat_str s n'
  end.

Module Example.

Definition restricted : Config := {| working_directory_restricted := "True" |}.
Definition unrestricted : Config :=
  {| working_directory_restricted := "False" |}.

Definition cwd : string := "/home/agent".

Definition workspace (entries : list (string * node)) : fs :=
  [("home", Dir [("agent", Dir [("auto_gpt_workspace", Dir entries)])])].

(** The tree right after the module is loaded in an empty [cwd]. *)
Definition fresh : fs := workspace [].

(** A workspace with a hidden directory, hidden files and plain files. *)
Definition with_hidden : fs :=
  workspace
    [(".git", Dir [("config", File "[core]")]);
     (".env", File "KEY=1");
     ("notes.txt", File "n");
     ("sub", Dir [("b.txt", File "b"); (".cache", File "")])].

(** 4500 characters. *)
Definition content4500 : string := repeat_str "0123456789" 450.

(** The tree after a first [write_to_file]. *)
Definition written : fs :=
  snd (write_to_file restricted cwd 4 "notes/a.txt" "hello" fresh).



(** The log file itself written through the file store. *)
Definition log_written : fs :=
  snd (write_to_file restricted cwd 4 "file_logger.txt" "hello" fresh).








(** A text with a carriage return, and the tree after it is written. *)
Definition cr_text : string := String "a" (String Py.cr "b").

Definition text_written : fs :=
  snd (write_to_file restricted cwd 4 "cr.txt" cr_text fresh).




End Example.

(** ** Numbers as text, dictionaries *)

Module builtins.

(** [str(n)] of an [int] *)
Definition str_int (z : Z) : string := NilZero.string_of_int (Z.to_int z).

(** [str(n)] of a count *)
Definition str_nat (n : nat) : string := NilZero.string_of_uint (Nat.to_uint n).

End builtins.

(** A Python [dict] with [str] keys: its items in insertion order, every key
    once. *)
Module dict.

Section Dict.

Variable V : Type.

Definition t : Type := list (string * V).

(** [d.get(k)] *)
Fixpoint get (k : string) (d : t) : option V :=
  match d with
  | [] => None
  | (k', v) :: d' => if String.eqb k' k then Some v else get k d'
  end.

(** [d[k] = v]: the value is replaced where the key stands; a new key comes
    last. *)
Fixpoint set (k : string) (v : V) (d : t) : t :=
  match d with
  | [] => [(k, v)]
  | (k', v') :: d' =>
      if String.eqb k' k then (k', v) :: d' else (k', v') :: set k v d'
  end.

(** [d.keys()] *)
Definition keys (d : t) : list string := map fst d.

End Dict.

End dict.

(** ** [ingest_file] *)

(** The memory handed to [ingest_file]: an object with an [add] method, which
    may raise. *)
Class Memory (mem : Type) := { add : string -> mem -> (exn + unit) * mem }.

Section Ingest.

Variable CFG : Config.
Variable cwd : string.

Context {mem : Type} {memory_add : Memory mem}.

(** The text handed to [memory.add] for chunk [i] of [num_chunks]. *)
Definition memory_to_add (filename : string) (i num_chunks : nat)
  (chunk : string) : string :=
  "Filename: " ++ filename ++ Py.newline ++
  "Content part#" ++ builtins.str_nat (i + 1) ++ "/" ++
  builtins.str_nat num_chunks ++ ": " ++ chunk.

(** The loop [for i, chunk in enumerate(chunks)] from index [i] on: the
    memory and the lines printed so far are threaded through; the loop stops
    at the first [add] that raises. *)
Fixpoint ingest_chunks (filename : string) (num_chunks i : nat)
  (chunks : list string) (memory : mem) (printed : list string)
  : (exn + unit) * mem * list string :=
  match chunks with
  | [] => (inr tt, memory, printed)
  | chunk :: rest =>
      let line :=
        "Ingesting chunk " ++ builtins.str_nat (i + 1) ++ " / " ++
        builtins.str_nat num_chunks ++ " into memory" in
      let printed' := (printed ++ [line])%list in
      match add (memory_to_add filename i num_chunks chunk) memory with
      | (inl e, memory') => (inl e, memory', printed')
      | (inr _, memory') =>
          ingest_chunks filename num_chunks (S i) rest memory' printed'
      end
  end.

(** [ingest_file(filename, memory, max_length, overlap)]: the memory, the
    lines printed and the tree it leaves; [None] when the chunks never end
    within [fuel] iterations.  The whole body stands in a
    [try ... except Exception] whose handler prints. *)
Definition ingest_file (fuel : nat) (filename : string) (memory : mem)
  (max_length overlap : Z) (s : fs) : option (mem * list string * fs) :=
  let printed0 := ["Working with file " ++ filename] in
  let failed (e : exn) (memory' : mem) (printed : list string) (s' : fs) :=
    let line :=
      "Error while ingesting file '" ++ filename ++ "': " ++ str_exn e in
    Some (memory', (printed ++ [line])%list, s') in
  match read_file CFG cwd filename s with
  | (inl e, s') => failed e memory printed0 s'
  | (inr content, s') =>
      let content_length := Py.len content in
      let line1 :=
        "File length: " ++ builtins.str_int content_length ++ " characters" in
      let printed1 := (printed0 ++ [line1])%list in
      match split_file fuel content max_length overlap with
      | None => None
      | Some chunks =>
          let num_chunks := List.length chunks in
          match ingest_chunks filename num_chunks 0 chunks memory printed1 with
          | (inl e, memory', printed) => failed e memory' printed s'
          | (inr _, memory', printed) =>
              let done :=
                "Done ingesting " ++ builtins.str_nat num_chunks ++
                " chunks from " ++ filename ++ "." in
              Some (memory', (printed ++ [done])%list, s')
          end
      end
  end.

End Ingest.

(** ** The module [execute_code_flow] *)

Module CodeFlow.

Definition MAX_RESULT_LENGTH : Z := 1000.

(** The wrapper the header defines for one available function. *)
Definition wrapper (name : string) : string :=
  Py.newline ++
  "async def " ++ name ++ "(*args, **kwargs):" ++ Py.newline ++
  "    result = " ++ name ++ "_func(*args, **kwargs)" ++ Py.newline ++
  "    if inspect.isawaitable(result):" ++ Py.newline ++
  "        result = await result" ++ Py.newline ++
  "    return result" ++ Py.newline.

(** [result[:MAX_RESULT_LENGTH] + "...[Truncated, Content is too long]"] when
    the result is longer than [MAX_RESULT_LENGTH]. *)
Definition limit (result : string) : string :=
  if (MAX_RESULT_LENGTH <? Py.len result)%Z
  then Py.slice result 0 MAX_RESULT_LENGTH ++ "...[Truncated, Content is too long]"
  else result.

Section Component.

(** [autogpt.models.command.Command] is not part of this module; what is
    read of a command here is its [names]. *)
Variable Command : Type.
Variable names : Command -> list string.

Record CodeFlowExecutionComponent := {
  _enabled : bool;
  available_functions : dict.t Command
}.

Definition __init__ : CodeFlowExecutionComponent :=
  {| _enabled := true; available_functions := [] |}.

(** The dictionary comprehension
    [{name: function for function in functions for name in function.names}]. *)
Definition set_available_functions (self : CodeFlowExecutionComponent)
  (functions : list Command) : CodeFlowExecutionComponent :=
  {| _enabled := _enabled self;
     available_functions :=
       fold_left
         (fun d function =>
            fold_left (fun d' name => dict.set name function d')
              (names function) d)
         functions [] |}.

Definition code_header (self : CodeFlowExecutionComponent) : string :=
  Py.join ("import inspect" ++ Py.newline)
    (map wrapper (dict.keys (available_functions self))).

(** The globals handed to [exec]:
    [{name + "_func": func for name, func in self.available_functions.items()}]. *)
Definition exec_globals (self : CodeFlowExecutionComponent)
  : dict.t Command :=
  fold_left (fun d item => dict.set (fst item ++ "_func") (snd item) d)
    (available_functions self) [].

Definition code (self : CodeFlowExecutionComponent) (python_code : string)
  : string :=
  code_header self ++ Py.newline ++ python_code ++ Py.newline ++
  "exec_output = main()".

(** What the interpreter makes of [exec(code, result)] followed by
    [await result["exec_output"]] (awaited once more when it is awaitable):
    the text [main()] evaluates to, or the exception raised on the way. *)
Variable E : Type.
Variable interpreter : string -> dict.t Command -> E + string.

Definition execute_code_flow (self : CodeFlowExecutionComponent)
  (python_code plan_text : string) : E + string :=
  match interpreter (code self python_code) (exec_globals self) with
  | inl e => inl e
  | inr result =>
      inr ("Execution Plan:" ++ Py.newline ++ plan_text ++ Py.newline ++
           Py.newline ++ "Execution Output:" ++ Py.newline ++ limit result)
  end.

End Component.

End CodeFlow.

(** *** A scan used in the proofs *)

(** The scan of a text for [t i] (a [t], a space, an [i]), three characters
    that [import inspect] holds: the state is how many of them the characters
    read so far end with, and stays 3 once all three have been read. *)
Definition scan_step (q : nat) (c : ascii) : nat :=
  if (q =? 3)%nat then 3
  else if Ascii.eqb c "t" then 1
  else if (q =? 1)%nat && Ascii.eqb c " " then 2
  else if (q =? 2)%nat && Ascii.eqb c "i" then 3
  else 0.

Fixpoint scan (q : nat) (s : string) : nat :=
  match s with
  | EmptyString => q
  | String c s' => scan (scan_step q c) s'
  end.

Module Sample.

(** A memory that keeps the texts it is given, in order. *)
#[global] Instance recording : Memory (list string) :=
  {| add text texts := (inr tt, (texts ++ [text])%list) |}.


(** A tree with files beside and outside the working directory. *)
Definition with_outside : fs :=
  [("home",
    Dir [("agent",
          Dir [("auto_gpt_workspace", Dir [("a.txt", File "a")]);
               ("secret.txt", File "secret")])]);
   ("etc", Dir [("passwd", File "root")])].

End Sample.

(** * Properties *)

Unset Implicit Arguments.

(** ** Strings *)

Section StringFacts.

Lemma str_app_assoc (a b c : string) : (a ++ b) ++ c = a ++ b ++ c.
Proof. induction a as [|x a IH]; simpl; congruence. Qed.

Lemma str_app_nil (a : string) : a ++ "" = a.
Proof. induction a as [|x a IH]; simpl; congruence. Qed.

Lemma prefix_nil (s : string) : String.prefix "" s = true.
Proof. destruct s; reflexivity. Qed.

Lemma prefix_app (p s t : string) :
  String.prefix p s = true -> String.prefix p (s ++ t) = true.
Proof.
  revert p; induction s as [|a s IH]; intros [|b p]; simpl; intros H;
    try discriminate; try reflexivity.
  - apply prefix_nil.
  - destruct (ascii_dec b a); [auto | discriminate].
Qed.

Lemma prefix_self_app (p t : string) : String.prefix p (p ++ t) = true.
Proof.
  induction p as [|a p IH]; simpl.
  - apply prefix_nil.
  - destruct (ascii_dec a a); [assumption | congruence].
Qed.

Lemma contains_app_l (c t e : string) :
  Py.contains c e = true -> Py.contains (c ++ t) e = true.
Proof.
  induction c as [|a c IH]; simpl; intros H.
  - rewrite orb_false_r in H. destruct e; [|discriminate].
    destruct t; reflexivity.
  - apply orb_true_iff in H. apply orb_true_iff. destruct H as [H|H].
    + left. exact (prefix_app e (String a c) t H).
    + right. auto.
Qed.

Lemma contains_app_r (c e : string) : Py.contains (c ++ e) e = true.
Proof.
  induction c as [|a c IH]; simpl.
  - destruct e as [|b e]; simpl; [reflexivity|].
    destruct (ascii_dec b b); [|congruence].
    replace e with (e ++ "") at 2 by (clear; induction e; simpl; congruence).
    now rewrite prefix_self_app.
  - rewrite IH. apply orb_true_r.
Qed.

Lemma has_char_app (c : ascii) (a b : string) :
  Py.has_char c (a ++ b) = Py.has_char c a || Py.has_char c b.
Proof.
  induction a as [|x a IH]; simpl; [reflexivity|].
  now rewrite IH, orb_assoc.
Qed.

Lemma prefix_has_char (c : ascii) (p s : string) :
  String.prefix p s = true -> Py.has_char c p = true -> Py.has_char c s = true.
Proof.
  revert p; induction s as [|a s IH]; intros [|b p]; simpl; try discriminate.
  destruct (ascii_dec b a) as [->|]; [|discriminate].
  intros Hp Hc. apply orb_true_iff in Hc. apply orb_true_iff.
  destruct Hc; [now left | right; eauto].
Qed.

(** A text found inside another brings all its characters with it. *)
Lemma contains_has_char (c : ascii) (hay needle : string) :
  Py.contains hay needle = true ->
  Py.has_char c needle = true -> Py.has_char c hay = true.
Proof.
  induction hay as [|a hay IH]; simpl; intros H Hc.
  - rewrite orb_false_r in H. destruct needle; [discriminate Hc | discriminate H].
  - apply orb_true_iff in H. destruct H as [H|H].
    + exact (prefix_has_char c _ (String a hay) H Hc).
    + apply orb_true_iff. right. auto.
Qed.

Lemma repr_char_no_newline (a : ascii) :
  Py.has_char Py.nl (Py.repr_char "'" a) = false /\
  Py.has_char Py.nl (Py.repr_char (ascii_of_nat 34) a) = false.
Proof.
  destruct a as [[] [] [] [] [] [] [] []]; split; vm_compute; reflexivity.
Qed.

Lemma repr_no_newline (s : string) : Py.has_char Py.nl (Py.repr s) = false.
Proof.
  assert (B : forall q, q = "'"%char \/ q = ascii_of_nat 34 ->
              forall t, Py.has_char Py.nl (Py.repr_body q t) = false).
  { intros q Hq t. induction t as [|a t IH]; simpl; [reflexivity|].
    rewrite has_char_app, IH, orb_false_r.
    destruct Hq as [-> | ->]; apply repr_char_no_newline. }
  unfold Py.repr.
  destruct (Py.has_char "'" s && negb (Py.has_char (ascii_of_nat 34) s));
    cbn [Py.has_char]; rewrite has_char_app, B by auto; reflexivity.
Qed.

Lemma log_entry_has_newline (operation filename : string) :
  Py.has_char Py.nl (log_entry operation filename) = true.
Proof.
  unfold log_entry. rewrite !has_char_app.
  replace (Py.has_char Py.nl Py.newline) with true by reflexivity.
  now rewrite !orb_true_r.
Qed.

(** No message of an exception this module meets holds a line feed. *)
Lemma os_error_no_newline (e : os_errno) (filename : string) :
  Py.has_char Py.nl (str_exn (OSError e filename)) = false.
Proof.
  unfold str_exn. rewrite !has_char_app, repr_no_newline.
  destruct e; reflexivity.
Qed.

Lemma sys_error_no_newline (e : os_errno) (filename : string) :
  Py.has_char Py.nl (str_exn (os_error e filename)) = false.
Proof.
  unfold os_error. destruct (Py.has_char Py.nul filename);
    [reflexivity | apply os_error_no_newline].
Qed.

Lemma prefix_cons a s t :
  String.prefix (String a s) (String a t) = String.prefix s t.
Proof.
  change (String.prefix (String a s) (String a t))
    with (if ascii_dec a a then String.prefix s t else false).
  destruct (ascii_dec a a); [reflexivity | congruence].
Qed.

Lemma prefix_cons_inv a s b t :
  String.prefix (String a s) (String b t) = true ->
  a = b /\ String.prefix s t = true.
Proof.
  change (String.prefix (String a s) (String b t))
    with (if ascii_dec a b then String.prefix s t else false).
  destruct (ascii_dec a b); [auto | discriminate].
Qed.

Lemma prefix_inv p :
  forall s, String.prefix p s = true -> exists t, s = p ++ t.
Proof.
  induction p as [|a p IH]; intros s H; [exists s; reflexivity|].
  destruct s as [|b s]; [discriminate|].
  apply prefix_cons_inv in H as [<- H]. destruct (IH s H) as [t ->].
  exists t. reflexivity.
Qed.

Lemma contains_inv hay needle :
  Py.contains hay needle = true -> exists a b, hay = a ++ needle ++ b.
Proof.
  induction hay as [|c hay IH]; cbn [Py.contains]; intros H.
  - rewrite orb_false_r in H. apply prefix_inv in H as [t Ht].
    exists "", t. exact Ht.
  - apply orb_true_iff in H as [H|H].
    + apply prefix_inv in H as [t Ht]. exists "", t. exact Ht.
    + destruct (IH H) as (a & b & ->). exists (String c a), b. reflexivity.
Qed.

Lemma contains_intro a needle b : Py.contains (a ++ needle ++ b) needle = true.
Proof.
  rewrite <- str_app_assoc. apply contains_app_l, contains_app_r.
Qed.

(** *** Universal newlines *)

Lemma un_cons_other a s :
  Ascii.eqb a Py.cr = false ->
  Py.universal_newlines (String a s) = String a (Py.universal_newlines s).
Proof. intros H. cbn [Py.universal_newlines]. now rewrite H. Qed.

Lemma un_cr_lf s :
  Py.universal_newlines (String Py.cr (String Py.nl s))
  = String Py.nl (Py.universal_newlines s).
Proof. reflexivity. Qed.

Lemma un_cr_other b s :
  Ascii.eqb b Py.nl = false ->
  Py.universal_newlines (String Py.cr (String b s))
  = String Py.nl (Py.universal_newlines (String b s)).
Proof.
  intros H.
  change (Py.universal_newlines (String Py.cr (String b s)))
    with (if Ascii.eqb b Py.nl then String Py.nl (Py.universal_newlines s)
          else String Py.nl (Py.universal_newlines (String b s))).
  now rewrite H.
Qed.

(** A text without carriage returns is read as it is stored. *)
Lemma un_without_cr_app x y :
  Py.has_char Py.cr x = false ->
  Py.universal_newlines (x ++ y) = x ++ Py.universal_newlines y.
Proof.
  induction x as [|a x IH]; intros H; [reflexivity|].
  cbn [Py.has_char] in H. apply orb_false_iff in H as [Ha Hx].
  cbn [String.append]. rewrite un_cons_other by assumption. now rewrite IH.
Qed.

Lemma un_without_cr x :
  Py.has_char Py.cr x = false -> Py.universal_newlines x = x.
Proof.
  intros H. rewrite <- (str_app_nil x) at 1.
  rewrite un_without_cr_app by assumption. apply str_app_nil.
Qed.

(** Reading two texts stored one behind the other: the texts as read, one
    behind the other, but for a carriage return at the end of the first
    that takes the line feed at the head of the second with it. *)
Lemma un_app a :
  forall z,
    Py.universal_newlines (a ++ z)
    = Py.universal_newlines a ++ Py.universal_newlines z \/
    exists u z',
      z = String Py.nl z' /\
      Py.universal_newlines a = u ++ Py.newline /\
      Py.universal_newlines (a ++ z)
      = Py.universal_newlines a ++ Py.universal_newlines z'.
Proof.
  enough (H : (forall z,
                  Py.universal_newlines (a ++ z)
                  = Py.universal_newlines a ++ Py.universal_newlines z \/
                  exists u z',
                    z = String Py.nl z' /\
                    Py.universal_newlines a = u ++ Py.newline /\
                    Py.universal_newlines (a ++ z)
                    = Py.universal_newlines a ++ Py.universal_newlines z') /\
               (forall x z,
                  Py.universal_newlines (String x a ++ z)
                  = Py.universal_newlines (String x a)
                      ++ Py.universal_newlines z \/
                  exists u z',
                    z = String Py.nl z' /\
                    Py.universal_newlines (String x a) = u ++ Py.newline /\
                    Py.universal_newlines (String x a ++ z)
                    = Py.universal_newlines (String x a)
                        ++ Py.universal_newlines z'))
    by apply H.
  induction a as [|y a [IH1 IH2]]; split.
  - intros z. left. reflexivity.
  - intros x z. cbn [String.append].
    destruct (Ascii.eqb x Py.cr) eqn:Ex.
    + apply Ascii.eqb_eq in Ex. subst x.
      destruct z as [|b z]; [left; reflexivity|].
      destruct (Ascii.eqb b Py.nl) eqn:Eb.
      * apply Ascii.eqb_eq in Eb. subst b. right. exists "", z.
        repeat split.
      * left. now rewrite un_cr_other.
    + left. now rewrite !un_cons_other.
  - apply IH2.
  - intros x z. cbn [String.append].
    destruct (Ascii.eqb x Py.cr) eqn:Ex.
    + apply Ascii.eqb_eq in Ex. subst x.
      destruct (Ascii.eqb y Py.nl) eqn:Ey.
      * apply Ascii.eqb_eq in Ey. subst y. rewrite !un_cr_lf.
        destruct (IH1 z) as [E | (u & z' & Hz & Hu & E)].
        -- left. rewrite E. reflexivity.
        -- right. exists (String Py.nl u), z'. rewrite E, Hu.
           repeat split; first [assumption | reflexivity].
      * rewrite (un_cr_other y (a ++ z)), (un_cr_other y a) by assumption.
        change (String y (a ++ z)) with (String y a ++ z).
        destruct (IH2 y z) as [E | (u & z' & Hz & Hu & E)].
        -- left. rewrite E. reflexivity.
        -- right. exists (String Py.nl u), z'. rewrite E, Hu.
           repeat split; first [assumption | reflexivity].
    + rewrite (un_cons_other x (String y (a ++ z))),
        (un_cons_other x (String y a)) by assumption.
      change (String y (a ++ z)) with (String y a ++ z).
      destruct (IH2 y z) as [E | (u & z' & Hz & Hu & E)].
      * left. rewrite E. reflexivity.
      * right. exists (String x u), z'. rewrite E, Hu.
        repeat split; first [assumption | reflexivity].
Qed.

(** What is read of a file is the head of what is read once more is
    appended to it. *)
Lemma un_app_prefix c t :
  exists r, Py.universal_newlines (c ++ t) = Py.universal_newlines c ++ r.
Proof.
  destruct (un_app c t) as [E | (u & z' & _ & _ & E)]; rewrite E; eauto.
Qed.



(** *** The characters of the components of a path *)

Lemma split_has_char (c : ascii) (s : string) :
  Ascii.eqb posixpath.sep c = false ->
  existsb (Py.has_char c) (Py.split posixpath.sep s) = Py.has_char c s.
Proof.
  intros Hc. induction s as [|a s IH]; [reflexivity|].
  cbn [Py.split Py.has_char].
  destruct (Ascii.eqb a posixpath.sep) eqn:Ea.
  - apply Ascii.eqb_eq in Ea. subst a. rewrite Hc. cbn. exact IH.
  - destruct (Py.split posixpath.sep s) as [|h t]; cbn in IH |- *.
    + rewrite <- IH. now rewrite !orb_false_r.
    + rewrite <- IH. now rewrite orb_assoc.
Qed.

Lemma nul_components (filename : string) :
  existsb (Py.has_char Py.nul) (posixpath.components filename)
  = Py.has_char Py.nul filename.
Proof.
  rewrite <- (split_has_char Py.nul filename) by reflexivity.
  unfold posixpath.components.
  induction (Py.split posixpath.sep filename) as [|c l IH]; [reflexivity|].
  cbn [filter existsb]. destruct c as [|a c]; [exact IH|].
  cbn [String.eqb negb existsb]. now rewrite IH.
Qed.

End StringFacts.

(** ** The directory tree *)

Section TreeFacts.

Lemma assoc_set_same (k : string) (o : option node) (es : list (string * node)) :
  os.assoc k (os.set_entry k o es) = o.
Proof.
  induction es as [|[k' n] es IH]; simpl.
  - destruct o; simpl; [now rewrite String.eqb_refl | reflexivity].
  - destruct (String.eqb k' k) eqn:E.
    + destruct o; simpl; [now rewrite E | assumption].
    + simpl. now rewrite E.
Qed.

Lemma assoc_set_other (k k' : string) (o : option node)
  (es : list (string * node)) :
  k <> k' -> os.assoc k' (os.set_entry k o es) = os.assoc k' es.
Proof.
  intros Hk. induction es as [|[k0 n] es IH]; simpl.
  - destruct o; simpl; [|reflexivity].
    destruct (String.eqb_spec k k'); [contradiction | reflexivity].
  - destruct (String.eqb_spec k0 k) as [->|Hne].
    + destruct (String.eqb_spec k k'); [contradiction|].
      destruct o; simpl.
      * destruct (String.eqb_spec k k'); [contradiction | reflexivity].
      * assumption.
    + simpl. now rewrite IH.
Qed.

Lemma keeps_dirs_write text : keeps_dirs (os.on_write text).
Proof. intros es; eexists; reflexivity. Qed.
Lemma keeps_dirs_append text : keeps_dirs (os.on_append text).
Proof. intros es; eexists; reflexivity. Qed.
Lemma keeps_dirs_remove : keeps_dirs os.on_remove.
Proof. intros es; eexists; reflexivity. Qed.
Lemma keeps_dirs_mkdir : keeps_dirs os.on_mkdir.
Proof. intros es; eexists; reflexivity. Qed.

Lemma update_deep f c c' p es :
  os.update (c :: c' :: p) f (Dir es) =
  match os.assoc c es with
  | None => inl ENOENT
  | Some m =>
      match os.update (c' :: p) f m with
      | inl e => inl e
      | inr m' => inr (Dir (os.set_entry c (Some m') es))
      end
  end.
Proof. reflexivity. Qed.

Lemma stat_cons c p es :
  os.stat (c :: p) (Dir es) =
  match os.assoc c es with
  | Some m => os.stat p m
  | None => inl ENOENT
  end.
Proof. reflexivity. Qed.

(** A successful update leaves at [p] what [f] returned. *)
Lemma update_found (f : option node -> os_errno + option node) (p : path) :
  forall s s', os.update p f s = inr s' ->
    exists o, f (found p s) = inr o /\ found p s' = o.
Proof.
  induction p as [|c p IH]; intros s s' H.
  - destruct s; discriminate.
  - destruct s as [|es]; [discriminate|].
    destruct p as [|c' p].
    + cbn in H. destruct (f (os.assoc c es)) as [e|o] eqn:Ef; [discriminate|].
      injection H as <-. exists o. unfold found; cbn.
      rewrite assoc_set_same. split.
      * destruct (os.assoc c es); assumption.
      * destruct o; reflexivity.
    + rewrite update_deep in H.
      destruct (os.assoc c es) as [m|] eqn:Ea; [|discriminate].
      destruct (os.update (c' :: p) f m) as [e|m'] eqn:Eu; [discriminate|].
      injection H as <-. destruct (IH _ _ Eu) as (o & Hf & Hs).
      exists o. unfold found in *. rewrite !stat_cons.
      rewrite Ea, assoc_set_same. auto.
Qed.

(** A regular file elsewhere is not touched. *)
Lemma update_frame (f : option node -> os_errno + option node) (p : path) :
  keeps_dirs f ->
  forall q s s' c, os.update p f s = inr s' ->
    os.stat q s = inr (File c) -> q <> p -> os.stat q s' = inr (File c).
Proof.
  intros Hf. induction p as [|c0 p IH]; intros q s s' c H Hq Hne.
  - destruct s; discriminate.
  - destruct s as [|es]; [discriminate|].
    destruct q as [|c1 q]; [discriminate|].
    rewrite stat_cons in Hq.
    destruct p as [|c' p].
    + cbn in H. destruct (f (os.assoc c0 es)) as [e|o] eqn:Ef; [discriminate|].
      injection H as <-. rewrite stat_cons.
      destruct (string_dec c0 c1) as [->|Hc].
      * destruct (os.assoc c1 es) as [m|]; [|discriminate].
        destruct q as [|c2 q]; [congruence|].
        destruct m as [|es']; [discriminate|].
        destruct (Hf es') as [e He]. congruence.
      * now rewrite assoc_set_other.
    + rewrite update_deep in H.
      destruct (os.assoc c0 es) as [m|] eqn:Ea; [|discriminate].
      destruct (os.update (c' :: p) f m) as [e|m'] eqn:Eu; [discriminate|].
      injection H as <-. rewrite stat_cons.
      destruct (string_dec c0 c1) as [->|Hc].
      * rewrite assoc_set_same. rewrite Ea in Hq.
        apply (IH q m m' c Eu Hq). congruence.
      * now rewrite assoc_set_other.
Qed.

(** Appending to a regular file succeeds. *)
Lemma update_append_file (text : string) (p : path) :
  forall es c, os.stat p (Dir es) = inr (File c) ->
    exists es', os.update p (os.on_append text) (Dir es) = inr (Dir es').
Proof.
  induction p as [|c0 p IH]; intros es c H; [discriminate|].
  rewrite stat_cons in H.
  destruct (os.assoc c0 es) as [m|] eqn:Ea; [|discriminate].
  destruct p as [|c' p].
  - cbn in H. injection H as Hm. subst m. cbn. rewrite Ea.
    eexists; reflexivity.
  - destruct m as [|es0]; [discriminate|].
    destruct (IH _ _ H) as [m' Hm']. rewrite update_deep.
    rewrite Ea, Hm'. eexists; reflexivity.
Qed.

Lemma stat_app a :
  forall b n, os.stat (a ++ b)%list n =
    match os.stat a n with
    | inr m => os.stat b m
    | inl e => inl e
    end.
Proof.
  induction a as [|c a IH]; intros b n; [reflexivity|].
  cbn [app os.stat]. destruct n as [|es]; [reflexivity|].
  destruct (os.assoc c es); [apply IH | reflexivity].
Qed.

Lemma stat_prefix_dir a :
  forall b n m, os.stat (a ++ b)%list n = inr m -> b <> [] ->
    exists es, os.stat a n = inr (Dir es).
Proof.
  intros b n m H Hb. rewrite stat_app in H.
  destruct (os.stat a n) as [e|[c|es]]; [discriminate| |eauto].
  destruct b; [contradiction | discriminate].
Qed.

(** An entry made or rewritten in a directory that exists. *)
Lemma update_snoc f name o p :
  forall n es, os.stat p n = inr (Dir es) ->
    f (os.assoc name es) = inr o ->
    exists n', os.update (p ++ [name])%list f n = inr n' /\
               os.stat p n' = inr (Dir (os.set_entry name o es)).
Proof.
  induction p as [|c p IH]; intros n es Hp Hf.
  - cbn in Hp. injection Hp as ->. cbn. rewrite Hf. eauto.
  - destruct n as [|es0]; [discriminate|]. rewrite stat_cons in Hp.
    destruct (os.assoc c es0) as [m|] eqn:Ea; [|discriminate].
    destruct (IH m es Hp Hf) as (m' & Hu & Hs).
    change ((c :: p) ++ [name])%list with (c :: (p ++ [name]))%list.
    destruct (p ++ [name])%list as [|c' q] eqn:Eq;
      [destruct p; discriminate|].
    rewrite update_deep, Ea, Hu. eexists. split; [reflexivity|].
    now rewrite stat_cons, assoc_set_same.
Qed.

(** A directory stays a directory. *)
Lemma update_keeps_dir (f : option node -> os_errno + option node) (p : path) :
  keeps_dirs f ->
  forall q n n' es, os.update p f n = inr n' ->
    os.stat q n = inr (Dir es) -> exists es', os.stat q n' = inr (Dir es').
Proof.
  intros Hf. induction p as [|c0 p IH]; intros q n n' es H Hq.
  - destruct n; discriminate.
  - destruct n as [|es0]; [discriminate|].
    destruct q as [|c1 q].
    { destruct p as [|c' p].
      - cbn in H. destruct (f (os.assoc c0 es0)); [discriminate|].
        injection H as <-. cbn. eauto.
      - rewrite update_deep in H. destruct (os.assoc c0 es0); [|discriminate].
        destruct (os.update (c' :: p) f n); [discriminate|].
        injection H as <-. cbn. eauto. }
    rewrite stat_cons in Hq.
    destruct p as [|c' p].
    + cbn in H. destruct (f (os.assoc c0 es0)) as [e|o] eqn:Ef; [discriminate|].
      injection H as <-. rewrite stat_cons.
      destruct (string_dec c0 c1) as [->|Hc].
      * destruct (os.assoc c1 es0) as [m|]; [|discriminate].
        assert (exists esm, m = Dir esm) as [esm ->].
        { destruct q; [cbn in Hq; injection Hq as ->; eauto|].
          destruct m; [discriminate | eauto]. }
        destruct (Hf esm) as [e He]. congruence.
      * rewrite assoc_set_other by assumption. rewrite Hq. eauto.
    + rewrite update_deep in H.
      destruct (os.assoc c0 es0) as [m|] eqn:Ea; [|discriminate].
      destruct (os.update (c' :: p) f m) as [e|m'] eqn:Eu; [discriminate|].
      injection H as <-. rewrite stat_cons.
      destruct (string_dec c0 c1) as [->|Hc].
      * rewrite assoc_set_same. rewrite Ea in Hq. eapply IH; eauto.
      * rewrite assoc_set_other by assumption. rewrite Hq. eauto.
Qed.




Lemma update_dir f p es n :
  os.update p f (Dir es) = inr n -> exists es', n = Dir es'.
Proof.
  destruct p as [|c [|c' p]]; cbn [os.update]; intros H.
  - discriminate.
  - destruct (f (os.assoc c es)); [discriminate|]. injection H as <-. eauto.
  - destruct (os.assoc c es); [|discriminate].
    destruct (match n0 with File _ => _ | Dir _ => _ end); [discriminate|].
    injection H as <-. eauto.
Qed.

(** *** Names and paths the file system takes *)

Lemma storable_no_nul p :
  forallb os.storable p = true -> existsb (Py.has_char Py.nul) p = false.
Proof.
  induction p as [|c p IH]; [reflexivity|]. cbn [forallb existsb].
  intros H. apply andb_true_iff in H as [Hc Hp].
  unfold os.storable in Hc. apply andb_true_iff in Hc as [Hn _].
  apply negb_true_iff in Hn. now rewrite Hn, IH.
Qed.

Lemma storable_short p :
  forallb os.storable p = true -> forall n, os.name_too_long p n = false.
Proof.
  induction p as [|c p IH]; intros H n; [reflexivity|].
  cbn [forallb] in H. apply andb_true_iff in H as [Hc Hp].
  unfold os.storable in Hc. apply andb_true_iff in Hc as [_ Hl].
  destruct n as [|es]; [reflexivity|]. cbn [os.name_too_long].
  replace (os.NAME_MAX <? Py.utf8_len c)%nat with false.
  - cbn [orb]. destruct (os.assoc c es); [now apply IH | reflexivity].
  - symmetry. apply Nat.ltb_ge. now apply Nat.leb_le.
Qed.

Lemma accepts_refused p n : os.accepts p = true -> os.refused p n = None.
Proof.
  unfold os.accepts, os.refused. intros H.
  apply andb_true_iff in H as [Hs Hb].
  rewrite (storable_no_nul _ Hs), (storable_short _ Hs).
  replace (os.PATH_MAX <=? os.path_bytes p)%nat with false; [reflexivity|].
  symmetry. apply Nat.leb_gt. now apply Nat.ltb_lt.
Qed.

Lemma storable_intro p :
  existsb (Py.has_char Py.nul) p = false ->
  forallb (fun c => (Py.utf8_len c <=? os.NAME_MAX)%nat) p = true ->
  forallb os.storable p = true.
Proof.
  induction p as [|c p IH]; [reflexivity|]. cbn [forallb existsb].
  intros Hn Hl. apply orb_false_iff in Hn as [Hc Hn].
  apply andb_true_iff in Hl as [Hlc Hl].
  unfold os.storable at 1. now rewrite Hc, Hlc, IH.
Qed.

(** A walk that goes to the end of a path has seen every name of it. *)
Lemma stat_short p :
  forall n m, os.stat p n = inr m -> os.name_too_long p n = false ->
    forallb (fun c => (Py.utf8_len c <=? os.NAME_MAX)%nat) p = true.
Proof.
  induction p as [|c p IH]; intros n m Hs Hl; [reflexivity|].
  destruct n as [|es]; [discriminate|]. rewrite stat_cons in Hs.
  cbn [os.name_too_long] in Hl. apply orb_false_iff in Hl as [Hc Hl].
  destruct (os.assoc c es) as [m0|]; [|discriminate].
  cbn [forallb]. rewrite (IH _ _ Hs Hl), andb_true_r.
  apply Nat.leb_le. now apply Nat.ltb_ge in Hc.
Qed.

Lemma update_short f p :
  forall n n', os.update p f n = inr n' -> os.name_too_long p n = false ->
    forallb (fun c => (Py.utf8_len c <=? os.NAME_MAX)%nat) p = true.
Proof.
  induction p as [|c p IH]; intros n n' Hu Hl; [reflexivity|].
  destruct n as [|es]; [discriminate|].
  cbn [os.name_too_long] in Hl. apply orb_false_iff in Hl as [Hc Hl].
  assert (Hlc : (Py.utf8_len c <=? os.NAME_MAX)%nat = true)
    by (apply Nat.leb_le; now apply Nat.ltb_ge in Hc).
  destruct p as [|c' p]; [cbn [forallb]; now rewrite Hlc|].
  rewrite update_deep in Hu.
  destruct (os.assoc c es) as [m0|]; [|discriminate].
  destruct (os.update (c' :: p) f m0) as [e|m'] eqn:Eu; [discriminate|].
  change (forallb (fun c0 => (Py.utf8_len c0 <=? os.NAME_MAX)%nat) (c :: c' :: p))
    with ((Py.utf8_len c <=? os.NAME_MAX)%nat
          && forallb (fun c0 => (Py.utf8_len c0 <=? os.NAME_MAX)%nat) (c' :: p)).
  now rewrite Hlc, (IH _ _ Eu Hl).
Qed.

Lemma refused_none p n :
  os.refused p n = None ->
  existsb (Py.has_char Py.nul) p = false /\
  (os.path_bytes p <? os.PATH_MAX)%nat = true /\
  os.name_too_long p n = false.
Proof.
  unfold os.refused.
  destruct (existsb (Py.has_char Py.nul) p); [discriminate|].
  destruct (os.PATH_MAX <=? os.path_bytes p)%nat eqn:Eb; [discriminate|].
  destruct (os.name_too_long p n); [discriminate|]. intros _.
  repeat split. apply Nat.ltb_lt. now apply Nat.leb_gt in Eb.
Qed.

(** What is found at a path is found by the walk, and the file system takes
    the path whatever else the tree holds. *)
Lemma fs_stat_inr p s m :
  fs_stat p s = inr m -> os.accepts p = true /\ os.stat p (Dir s) = inr m.
Proof.
  unfold fs_stat. destruct (os.refused p (Dir s)) eqn:E; [discriminate|].
  intros H. split; [|exact H].
  apply refused_none in E as (Hn & Hb & Hl). unfold os.accepts.
  rewrite Hb, andb_true_r. apply storable_intro; [assumption|].
  eapply stat_short; eauto.
Qed.

Lemma fs_update_inr f p s s' :
  fs_update p f s = inr s' ->
  os.accepts p = true /\ os.update p f (Dir s) = inr (Dir s').
Proof.
  unfold fs_update. destruct (os.refused p (Dir s)) eqn:E; [discriminate|].
  destruct (os.update p f (Dir s)) as [e|n] eqn:Eu; [discriminate|].
  destruct (update_dir _ _ _ _ Eu) as [es' ->]. intros [= <-].
  split; [|reflexivity].
  apply refused_none in E as (Hn & Hb & Hl). unfold os.accepts.
  rewrite Hb, andb_true_r. apply storable_intro; [assumption|].
  eapply update_short; eauto.
Qed.

Lemma fs_stat_accepted p s :
  os.accepts p = true -> fs_stat p s = os.stat p (Dir s).
Proof. intros H. unfold fs_stat. now rewrite accepts_refused. Qed.

Lemma fs_update_accepted f p s :
  os.accepts p = true ->
  fs_update p f s =
  match os.update p f (Dir s) with
  | inr (Dir es) => inr es
  | inr (File _) => inl ENOTDIR
  | inl e => inl e
  end.
Proof. intros H. unfold fs_update. now rewrite accepts_refused. Qed.

Lemma path_bytes_app a b :
  os.path_bytes (a ++ b)%list = os.path_bytes a + os.path_bytes b.
Proof.
  induction a as [|c a IH]; [reflexivity|]. cbn [app os.path_bytes].
  rewrite IH. lia.
Qed.

Lemma accepts_app a b :
  os.accepts (a ++ b)%list = true ->
  os.accepts a = true /\ forallb os.storable b = true.
Proof.
  unfold os.accepts. rewrite forallb_app, path_bytes_app. intros H.
  apply andb_true_iff in H as [Hs Hb]. apply andb_true_iff in Hs as [Ha Hsb].
  rewrite Ha, Hsb. split; [|reflexivity]. cbn [andb].
  apply Nat.ltb_lt in Hb. apply Nat.ltb_lt. lia.
Qed.

Lemma accepts_firstn k p : os.accepts p = true -> os.accepts (firstn k p) = true.
Proof.
  intros H. rewrite <- (firstn_skipn k p) in H. now apply accepts_app in H.
Qed.

(** What a failed walk answers does not depend on what lies behind the
    place where it fails. *)
Lemma stat_found p s m : fs_stat p s = inr m -> found p (Dir s) = Some m.
Proof.
  intros H. apply fs_stat_inr in H as [_ H]. unfold found. now rewrite H.
Qed.

Lemma fs_update_found f p s s' :
  fs_update p f s = inr s' ->
  exists o, f (found p (Dir s)) = inr o /\ found p (Dir s') = o.
Proof.
  intros H. apply fs_update_inr in H as [_ H]. eapply update_found; eauto.
Qed.

Lemma fs_update_frame f p q s s' c :
  keeps_dirs f -> fs_update p f s = inr s' ->
  fs_stat q s = inr (File c) -> q <> p -> fs_stat q s' = inr (File c).
Proof.
  intros Hf Hu Hq Hne. apply fs_update_inr in Hu as [_ Hu].
  apply fs_stat_inr in Hq as [Ha Hq]. rewrite fs_stat_accepted by assumption.
  eapply update_frame; eauto.
Qed.

Lemma fs_append_file text p s c :
  fs_stat p s = inr (File c) ->
  exists s', fs_update p (os.on_append text) s = inr s'.
Proof.
  intros H. apply fs_stat_inr in H as [Ha H].
  rewrite fs_update_accepted by assumption.
  destruct (update_append_file text p s c H) as [es' ->]. eauto.
Qed.

(** After an append the file ends with the text appended. *)
Lemma fs_append_found text p s s' :
  fs_update p (os.on_append text) s = inr s' ->
  exists c, fs_stat p s' = inr (File (c ++ text)) /\
            (forall c0, fs_stat p s = inr (File c0) -> c = c0).
Proof.
  intros H. destruct (fs_update_found _ _ _ _ H) as (o & Hf & Hs).
  apply fs_update_inr in H as [Ha _]. rewrite !fs_stat_accepted by assumption.
  unfold found in *.
  destruct (os.stat p (Dir s)) as [e|[c0|es]] eqn:E; cbn in Hf.
  - injection Hf as <-. exists "".
    destruct (os.stat p (Dir s')) as [|n]; [discriminate|].
    injection Hs as ->. split; [reflexivity | discriminate].
  - injection Hf as <-. exists c0.
    destruct (os.stat p (Dir s')) as [|n]; [discriminate|].
    injection Hs as ->. split; [reflexivity | congruence].
  - discriminate.
Qed.

Lemma fs_write_found text p s s' :
  fs_update p (os.on_write text) s = inr s' ->
  fs_stat p s' = inr (File text).
Proof.
  intros H. destruct (fs_update_found _ _ _ _ H) as (o & Hf & Hs).
  apply fs_update_inr in H as [Ha _]. rewrite fs_stat_accepted by assumption.
  unfold found in *.
  assert (o = Some (File text)) as ->.
  { destruct (os.stat p (Dir s)) as [e|[c0|es]]; cbn in Hf; congruence. }
  destruct (os.stat p (Dir s')) as [|n]; congruence.
Qed.

End TreeFacts.

(** Loading the module in an empty current directory makes the working
    directory. *)
Lemma module_init_makes_workspace :
  module_init Example.cwd [("home", Dir [("agent", Dir [])])]
  = (inr tt, Example.fresh).
Proof. reflexivity. Qed.

(** ** The monad *)

Section MonadFacts.

Context {A B : Type}.

Lemma bind_inv (m : M A) (k : A -> M B) s r s2 :
  bind m k s = (r, s2) ->
  (exists a s1, m s = (inr a, s1) /\ k a s1 = (r, s2)) \/
  (exists e, m s = (inl e, s2) /\ r = inl e).
Proof.
  unfold bind. destruct (m s) as [[e|a] s1]; intros H.
  - right. exists e. now inversion H.
  - left. eauto.
Qed.

Lemma try_inv (body : M A) (h : exn -> M A) s r s2 :
  try_except body h s = (r, s2) ->
  (exists a, body s = (inr a, s2) /\ r = inr a) \/
  (exists e s1, body s = (inl e, s1) /\ h e s1 = (r, s2)).
Proof.
  unfold try_except. destruct (body s) as [[e|a] s1]; intros H.
  - right. eauto.
  - left. exists a. now inversion H.
Qed.

Lemma bind_run (m : M A) (k : A -> M B) s a s' :
  m s = (inr a, s') -> bind m k s = k a s'.
Proof. unfold bind. now intros ->. Qed.


Lemma try_run (body : M A) (h : exn -> M A) s a s' :
  body s = (inr a, s') -> try_except body h s = (inr a, s').
Proof. unfold try_except. now intros ->. Qed.

(** A [try] whose handler returns a value never raises. *)
Lemma try_returns (body : M A) (f : exn -> A) s :
  exists a s', try_except body (fun e => ret (f e)) s = (inr a, s').
Proof.
  unfold try_except. destruct (body s) as [[e|a] s']; unfold ret; eauto.
Qed.

Lemma lift_inv (x : exn + A) s r s' :
  lift x s = (r, s') -> x = r /\ s' = s.
Proof. unfold lift. now intros [= <- <-]. Qed.

End MonadFacts.

(** ** Reading, the log and the duplicate check *)

Section FileStore.

Variable CFG : Config.
Variable cwd : string.

Local Abbreviation WD := (WORKING_DIRECTORY cwd).
Local Abbreviation comps := posixpath.components.

Lemma path_exists_run filename s r s' :
  path_exists filename s = (r, s') ->
  s' = s /\
  ((r = inr true /\ exists n, fs_stat (comps filename) s = inr n) \/
   (r = inr false /\ exists e, fs_stat (comps filename) s = inl e)).
Proof.
  unfold path_exists. destruct (fs_stat (comps filename) s) eqn:E;
    intros [= <- <-]; split; eauto.
Qed.

(** A system call fails for a name with a NUL as it does where the file
    system refuses: the exception tells which. *)
Lemma sys_update_eq filename f s :
  sys_update filename f s =
  match fs_update (comps filename) f s with
  | inl e => (inl (os_error e filename), s)
  | inr s' => (inr tt, s')
  end.
Proof.
  unfold sys_update, os_error.
  destruct (Py.has_char Py.nul filename) eqn:E; [|reflexivity].
  unfold fs_update, os.refused. now rewrite nul_components, E.
Qed.

Lemma sys_update_run filename f s r s' :
  sys_update filename f s = (r, s') ->
  (r = inr tt /\ fs_update (comps filename) f s = inr s') \/
  (s' = s /\ exists e, r = inl (os_error e filename) /\
                       fs_update (comps filename) f s = inl e).
Proof.
  rewrite sys_update_eq. destruct (fs_update (comps filename) f s) eqn:E;
    intros [= <- <-]; eauto.
Qed.

Lemma open_read_eq filename s :
  open_read filename s =
  (match fs_stat (comps filename) s with
   | inr (File c) => inr (Py.universal_newlines c)
   | inr (Dir _) => inl (OSError EISDIR filename)
   | inl e => inl (os_error e filename)
   end, s).
Proof.
  unfold open_read, os_error.
  destruct (Py.has_char Py.nul filename) eqn:E.
  - unfold fs_stat, os.refused. now rewrite nul_components, E.
  - destruct (fs_stat (comps filename) s) as [e|[c|es]]; reflexivity.
Qed.



(** What [read_file] returns; the tree is left as it was. *)
Lemma read_file_eq filename s :
  read_file CFG cwd filename s =
  (inr match safe_join CFG WD [filename] with
       | inl e => "Error: " ++ str_exn e
       | inr p =>
           match fs_stat (comps p) s with
           | inr (File c) => Py.universal_newlines c
           | inr (Dir _) => "Error: " ++ str_exn (OSError EISDIR p)
           | inl e => "Error: " ++ str_exn (os_error e p)
           end
       end, s).
Proof.
  unfold read_file, try_except, bind, lift, ret.
  destruct (safe_join CFG WD [filename]) as [e|p]; [reflexivity|].
  rewrite open_read_eq.
  destruct (fs_stat (comps p) s) as [e|[c|es]]; reflexivity.
Qed.

Lemma safe_join_error base paths e :
  safe_join CFG base paths = inl e ->
  e = ValueError "Attempted to access outside of working directory.".
Proof.
  unfold safe_join.
  destruct (String.eqb _ "true"); [|discriminate].
  destruct (negb _); [|discriminate]. now intros [= <-].
Qed.

Lemma check_duplicate_eq operation filename s :
  check_duplicate_operation CFG cwd operation filename s =
  (inr (Py.contains (match fst (read_file CFG cwd LOG_FILE s) with
                     | inr c => c
                     | inl _ => ""
                     end) (log_entry operation filename)), s).
Proof.
  unfold check_duplicate_operation, bind. rewrite read_file_eq. reflexivity.
Qed.

Lemma log_operation_S depth operation filename :
  log_operation CFG cwd (S depth) operation filename =
  (ex <- path_exists (LOG_FILE_PATH cwd) ;;
   (if negb ex
    then open_write (LOG_FILE_PATH cwd) "File Operation Logger "
    else ret tt) ;;;
   _ <- append_to_file CFG cwd depth LOG_FILE
          (log_entry operation filename) ;;
   ret tt).
Proof. reflexivity. Qed.

Lemma append_to_file_S depth filename text :
  append_to_file CFG cwd (S depth) filename text =
  try_except
    (filepath <- lift (safe_join CFG WD [filename]) ;;
     open_append filepath text ;;;
     log_operation CFG cwd depth "append" filename ;;;
     ret "Text appended successfully.")
    (fun e => ret ("Error: " ++ str_exn e)).
Proof. reflexivity. Qed.

(** [append_to_file] never raises once it has a frame. *)
Lemma append_to_file_returns depth filename text s :
  exists msg s', append_to_file CFG cwd (S depth) filename text s = (inr msg, s').
Proof.
  rewrite append_to_file_S. unfold try_except.
  destruct (bind _ _ s) as [[e|a] s']; unfold ret; eauto.
Qed.

(** *** What the log keeps *)

Section Appends.

Variable q : path.
Variable P : string -> Prop.
Hypothesis P_app : forall c t, P c -> P (c ++ t).

(** The mutual recursion only ever appends to regular files and writes
    the header where nothing exists: a property of a file's content that
    appending keeps is an invariant. *)
Lemma appends_keep depth :
  (forall operation filename s r s',
      log_operation CFG cwd depth operation filename s = (r, s') ->
      file_sat q P s -> file_sat q P s') /\
  (forall filename text s r s',
      append_to_file CFG cwd depth filename text s = (r, s') ->
      file_sat q P s -> file_sat q P s').
Proof.
  induction depth as [|d [IHlog IHapp]]; split.
  - intros operation filename s r s' H Hs. cbn in H. run_done H. assumption.
  - intros filename text s r s' H Hs. cbn in H. run_done H. assumption.
  - intros operation filename s r s' H Hs. rewrite log_operation_S in H.
    apply bind_inv in H as [(ex & s1 & Hex & H) | (e & Hex & _)];
      apply path_exists_run in Hex as (-> & Hex); [|assumption].
    apply bind_inv in H as [([] & s2 & Hhead & H) | (e & Hhead & _)].
    + assert (Hs2 : file_sat q P s2).
      { destruct ex; cbn [negb] in Hhead.
        - run_done Hhead. assumption.
        - destruct Hex as [[? _]|[_ [e He]]]; [discriminate|].
          apply sys_update_run in Hhead as [[_ Hu]|[-> _]]; [|assumption].
          destruct Hs as (c & Hc & HP). exists c. split; [|assumption].
          eapply fs_update_frame; eauto using keeps_dirs_write.
          intros Heq. rewrite Heq in Hc. congruence. }
      apply bind_inv in H as [(msg & s3 & Happ & H) | (e & Happ & _)].
      * run_done H. eapply IHapp; eauto.
      * eapply IHapp; eauto.
    + destruct ex; cbn [negb] in Hhead.
      * run_done Hhead.
      * apply sys_update_run in Hhead as [[? _]|[-> _]];
          [discriminate | assumption].
  - intros filename text s r s' H Hs. rewrite append_to_file_S in H.
    assert (Hbody : forall r0 s0,
               (filepath <- lift (safe_join CFG WD [filename]) ;;
                open_append filepath text ;;;
                log_operation CFG cwd d "append" filename ;;;
                ret "Text appended successfully.") s = (r0, s0) ->
               file_sat q P s0).
    { intros r0 s0 Hb.
      apply bind_inv in Hb as [(p & s1 & Hp & Hb) | (e & Hp & _)];
        run_done Hp; [|assumption].
      apply bind_inv in Hb as [([] & s2 & Hopen & Hb) | (e & Hopen & _)].
      - apply sys_update_run in Hopen as [[_ Hu]|[_ (e & ? & _)]];
          [|discriminate].
        assert (Hs2 : file_sat q P s2).
        { destruct Hs as (c & Hc & HP).
          destruct (list_eq_dec string_dec q (comps p)) as [->|Hne].
          - destruct (fs_append_found _ _ _ _ Hu) as (c' & Hc' & Hold).
            exists (c' ++ text). split; [assumption|].
            rewrite (Hold c Hc). auto.
          - exists c. split; [|assumption].
            eapply fs_update_frame; eauto using keeps_dirs_append. }
        apply bind_inv in Hb as [([] & s3 & Hlog & Hb) | (e & Hlog & _)].
        + run_done Hb. eapply IHlog; eauto.
        + eapply IHlog; eauto.
      - apply sys_update_run in Hopen as [[? _]|[-> _]];
          [discriminate | assumption]. }
    apply try_inv in H as [(msg & H & _) | (e & s1 & H & Hh)].
    + eapply Hbody; eauto.
    + run_done Hh. eapply Hbody; eauto.
Qed.

End Appends.

Lemma log_is_file_inv s :
  log_is_file CFG cwd s = true ->
  exists lp c, log_path CFG cwd = inr lp /\ fs_stat (comps lp) s = inr (File c).
Proof.
  unfold log_is_file. destruct (log_path CFG cwd) as [|lp]; [discriminate|].
  destruct (fs_stat (comps lp) s) as [|[c|]] eqn:E; try discriminate.
  intros _. exists lp, c. split; [reflexivity | exact E].
Qed.



Lemma appends_keep_log entry depth operation filename s r s' :
  log_operation CFG cwd depth operation filename s = (r, s') ->
  log_has CFG cwd entry s -> log_has CFG cwd entry s'.
Proof.
  intros H (lp & Hlp & Hs). exists lp. split; [assumption|].
  assert (HP : forall c t, Py.contains c entry = true ->
                           Py.contains (c ++ t) entry = true)
    by (intros c t; apply contains_app_l).
  destruct (appends_keep (comps lp) _ HP depth) as [Hlog _].
  eapply Hlog; eauto.
Qed.

(** A call of [log_operation] that returns has put its line in the log,
    when the log is a regular file afterwards. *)
Lemma log_operation_logs depth operation filename s s1 :
  log_operation CFG cwd depth operation filename s = (inr tt, s1) ->
  log_is_file CFG cwd s1 = true ->
  log_has CFG cwd (log_entry operation filename) s1.
Proof.
  intros H Hfile.
  destruct (log_is_file_inv _ Hfile) as (lp & c1 & Hlp & Hc1).
  destruct depth as [|[|d]]; [cbn in H; run_done H| |].
  - rewrite log_operation_S in H.
    apply bind_inv in H as [(ex & s2 & _ & H) | (e & _ & ?)]; [|discriminate].
    apply bind_inv in H as [([] & s3 & _ & H) | (e & _ & ?)]; [|discriminate].
    apply bind_inv in H as [(msg & s4 & H & _) | (e & _ & ?)]; [|discriminate].
    cbn in H. run_done H.
  - rewrite log_operation_S in H.
    apply bind_inv in H as [(ex & s2 & _ & H) | (e & _ & ?)]; [|discriminate].
    apply bind_inv in H as [([] & s3 & _ & H) | (e & _ & ?)]; [|discriminate].
    apply bind_inv in H as [(msg & s4 & H & H') | (e & _ & ?)]; [|discriminate].
    run_done H'. rewrite append_to_file_S in H.
    assert (Hbody : forall r0 s0,
               (filepath <- lift (safe_join CFG WD [LOG_FILE]) ;;
                open_append filepath (log_entry operation filename) ;;;
                log_operation CFG cwd d "append" LOG_FILE ;;;
                ret "Text appended successfully.") s3 = (r0, s0) ->
               s0 = s1 -> log_has CFG cwd (log_entry operation filename) s1).
    { intros r0 s0 Hb ->.
      apply bind_inv in Hb as [(p & s5 & Hp & Hb) | (e & Hp & _)];
        run_done Hp; [|unfold log_path in Hlp; congruence].
      assert (p = lp) as -> by (unfold log_path in Hlp; congruence).
      apply bind_inv in Hb as [([] & s6 & Hopen & Hb) | (e & Hopen & _)].
      - apply sys_update_run in Hopen as [[_ Hu]|[_ (e & ? & _)]];
          [|discriminate].
        destruct (fs_append_found _ _ _ _ Hu) as (c' & Hc' & _).
        assert (Hs6 : log_has CFG cwd (log_entry operation filename) s6).
        { exists lp. split; [assumption|]. exists (c' ++ log_entry operation filename).
          split; [assumption | apply contains_app_r]. }
        apply bind_inv in Hb as [([] & s7 & Hlog & Hb) | (e & Hlog & _)].
        + run_done Hb. eapply appends_keep_log; eauto.
        + eapply appends_keep_log; eauto.
      - apply sys_update_run in Hopen as [[? _]|[-> (e' & _ & Hfail)]];
          [discriminate|].
        destruct (fs_append_file (log_entry operation filename) _ _ _ Hc1)
          as [s' Hs']. congruence. }
    apply try_inv in H as [(m & H & _) | (e & s5 & H & Hh)].
    + eapply Hbody; eauto.
    + run_done Hh. eapply Hbody; eauto.
Qed.

(** [log_operation] changes the log and nothing else that is a file. *)
Lemma log_operation_frame (q : path) (c : string)
  (Hq : forall lp, log_path CFG cwd = inr lp -> q <> comps lp) depth :
  (forall operation filename s r s',
      log_operation CFG cwd depth operation filename s = (r, s') ->
      fs_stat q s = inr (File c) -> fs_stat q s' = inr (File c)) /\
  (forall text s r s',
      append_to_file CFG cwd depth LOG_FILE text s = (r, s') ->
      fs_stat q s = inr (File c) -> fs_stat q s' = inr (File c)).
Proof.
  induction depth as [|d [IHlog IHapp]]; split.
  - intros operation filename s r s' H Hs. cbn in H. run_done H. assumption.
  - intros text s r s' H Hs. cbn in H. run_done H. assumption.
  - intros operation filename s r s' H Hs. rewrite log_operation_S in H.
    apply bind_inv in H as [(ex & s1 & Hex & H) | (e & Hex & _)];
      apply path_exists_run in Hex as (-> & Hex); [|assumption].
    apply bind_inv in H as [([] & s2 & Hhead & H) | (e & Hhead & _)].
    + assert (Hs2 : fs_stat q s2 = inr (File c)).
      { destruct ex; cbn [negb] in Hhead.
        - run_done Hhead. assumption.
        - destruct Hex as [[? _]|[_ [e He]]]; [discriminate|].
          apply sys_update_run in Hhead as [[_ Hu]|[-> _]]; [|assumption].
          eapply fs_update_frame; eauto using keeps_dirs_write.
          intros Heq. rewrite Heq in Hs. congruence. }
      apply bind_inv in H as [(msg & s3 & Happ & H) | (e & Happ & _)].
      * run_done H. eapply IHapp; eauto.
      * eapply IHapp; eauto.
    + destruct ex; cbn [negb] in Hhead.
      * run_done Hhead.
      * apply sys_update_run in Hhead as [[? _]|[-> _]];
          [discriminate | assumption].
  - intros text s r s' H Hs. rewrite append_to_file_S in H.
    assert (Hbody : forall r0 s0,
               (filepath <- lift (safe_join CFG WD [LOG_FILE]) ;;
                open_append filepath text ;;;
                log_operation CFG cwd d "append" LOG_FILE ;;;
                ret "Text appended successfully.") s = (r0, s0) ->
               fs_stat q s0 = inr (File c)).
    { intros r0 s0 Hb.
      apply bind_inv in Hb as [(p & s1 & Hp & Hb) | (e & Hp & _)];
        run_done Hp; [|assumption].
      apply bind_inv in Hb as [([] & s2 & Hopen & Hb) | (e & Hopen & _)].
      - apply sys_update_run in Hopen as [[_ Hu]|[_ (e & ? & _)]];
          [|discriminate].
        assert (Hs2 : fs_stat q s2 = inr (File c)).
        { eapply fs_update_frame; eauto using keeps_dirs_append. }
        apply bind_inv in Hb as [([] & s3 & Hlog & Hb) | (e & Hlog & _)].
        + run_done Hb. eapply IHlog; eauto.
        + eapply IHlog; eauto.
      - apply sys_update_run in Hopen as [[? _]|[-> _]];
          [discriminate | assumption]. }
    apply try_inv in H as [(msg & H & _) | (e & s1 & H & Hh)].
    + eapply Hbody; eauto.
    + run_done Hh. eapply Hbody; eauto.
Qed.

(** *** The operations *)

Lemma mkdir_frame filename s r s' q c :
  os_mkdir filename s = (r, s') ->
  fs_stat q s = inr (File c) -> fs_stat q s' = inr (File c).
Proof.
  intros H Hq. apply sys_update_run in H as [[_ Hu]|[-> _]]; [|assumption].
  eapply fs_update_frame; eauto using keeps_dirs_mkdir.
  intros ->. destruct (fs_update_found _ _ _ _ Hu) as (o & Hf & _).
  rewrite (stat_found _ _ _ Hq) in Hf. discriminate.
Qed.

Lemma makedirs_frame k p q c :
  forall s r s', makedirs_upto k p s = (r, s') ->
    fs_stat q s = inr (File c) -> fs_stat q s' = inr (File c).
Proof.
  induction k as [|k IH]; intros s r s' H Hq; cbn [makedirs_upto] in H.
  - run_done H. assumption.
  - apply bind_inv in H as [(ex & s1 & Hex & H) | (e & Hex & _)];
      apply path_exists_run in Hex as (-> & _); [|assumption].
    assert (Hstep : forall r1 s2,
               (if negb ex
                then try_except (makedirs_upto k p)
                       (fun e => match e with
                                 | OSError EEXIST _ => ret tt
                                 | _ => raise e
                                 end)
                else ret tt) s = (r1, s2) -> fs_stat q s2 = inr (File c)).
    { intros r1 s2 Hr. destruct ex; cbn [negb] in Hr.
      - run_done Hr. assumption.
      - apply try_inv in Hr as [(a & Hr & _) | (e & s3 & Hr & Hh)].
        + eapply IH; eauto.
        + assert (s2 = s3) as ->.
          { destruct e as [|[] ?|]; run_done Hh; reflexivity. }
          eapply IH; eauto. }
    apply bind_inv in H as [([] & s2 & Hpre & H) | (e & Hpre & _)].
    + eapply mkdir_frame; eauto.
    + eapply Hstep; eauto.
Qed.

(** What a successful [write_to_file] has done. *)
Lemma write_success depth filename text s s1 :
  write_to_file CFG cwd depth filename text s
    = (inr "File written to successfully.", s1) ->
  check_duplicate_operation CFG cwd "write" filename s = (inr false, s) /\
  exists p s_dir s_file,
    safe_join CFG WD [filename] = inr p /\
    (forall q c, fs_stat q s = inr (File c) -> q <> comps p ->
                 fs_stat q s_file = inr (File c)) /\
    fs_update (comps p) (os.on_write text) s_dir = inr s_file /\
    log_operation CFG cwd depth "write" filename s_file = (inr tt, s1).
Proof.
  unfold write_to_file. intros H.
  apply bind_inv in H as [(dup & s0 & Hdup & H) | (e & Hdup & ?)];
    [|discriminate].
  rewrite check_duplicate_eq in Hdup. injection Hdup as Hdup <-.
  destruct dup; [run_done H|].
  split; [now rewrite check_duplicate_eq, Hdup|].
  apply try_inv in H as [(msg & H & _) | (e & s2 & _ & Hh)];
    [|run_done Hh].
  apply bind_inv in H as [(p & s2 & Hp & H) | (e & _ & ?)]; [|discriminate].
  run_done Hp.
  apply bind_inv in H as [(ex & s3 & Hex & H) | (e & _ & ?)]; [|discriminate].
  apply path_exists_run in Hex as (-> & _).
  apply bind_inv in H as [([] & s_dir & Hdir & H) | (e & _ & ?)];
    [|discriminate].
  apply bind_inv in H as [([] & s_file & Hfile & H) | (e & _ & ?)];
    [|discriminate].
  apply bind_inv in H as [([] & s4 & Hlog & H) | (e & _ & ?)];
    [|discriminate].
  run_done H.
  apply sys_update_run in Hfile as [[_ Hu]|[_ (e & ? & _)]]; [|discriminate].
  exists p, s_dir, s_file. repeat split; try assumption.
  intros q c Hq Hne.
  assert (Hq' : fs_stat q s_dir = inr (File c)).
  { destruct ex; cbn [negb] in Hdir.
    - run_done Hdir. assumption.
    - unfold os_makedirs in Hdir. eapply makedirs_frame; eauto. }
  eapply fs_update_frame; eauto using keeps_dirs_write.
Qed.


Lemma is_log_name_false filename lp p :
  is_log_name CFG cwd filename = false ->
  log_path CFG cwd = inr lp -> safe_join CFG WD [filename] = inr p ->
  comps lp <> comps p.
Proof.
  unfold is_log_name. intros H Hlp Hp. rewrite Hlp, Hp in H.
  destruct (list_eq_dec string_dec (comps p) (comps lp)); congruence.
Qed.

Lemma search_files_state directory s :
  snd (search_files CFG cwd directory s) = s.
Proof.
  unfold search_files, bind, os_walk, lift, ret.
  destruct (String.eqb directory "" || String.eqb directory "/").
  - destruct (Py.has_char Py.nul WD); [reflexivity|].
    destruct (fs_stat (comps WD) s); reflexivity.
  - destruct (safe_join CFG WD [directory]) as [e|p]; [reflexivity|].
    destruct (Py.has_char Py.nul p); [reflexivity|].
    destruct (fs_stat (comps p) s); reflexivity.
Qed.

Section KeepLog.

Variable entry : string.

Local Abbreviation P := (holds_entry entry).

Lemma P_app c t : P c -> P (c ++ t).
Proof. apply contains_app_l. Qed.

Lemma write_keeps_log depth filename text s r s' :
  write_to_file CFG cwd depth filename text s = (r, s') ->
  is_log_name CFG cwd filename = false ->
  log_has CFG cwd entry s -> log_has CFG cwd entry s'.
Proof.
  intros H Hname (lp & Hlp & Hs). exists lp. split; [assumption|].
  destruct (appends_keep (comps lp) P P_app depth) as [Hlog _].
  unfold write_to_file in H.
  apply bind_inv in H as [(dup & s0 & Hdup & H) | (e & Hdup & _)];
    rewrite check_duplicate_eq in Hdup; injection Hdup as _ <-;
    [|assumption].
  destruct dup; [run_done H; assumption|].
  assert (Hbody : forall r0 s0,
             (filepath <- lift (safe_join CFG WD [filename]) ;;
              let directory := posixpath.dirname filepath in
              ex <- path_exists directory ;;
              (if negb ex then os_makedirs directory else ret tt) ;;;
              open_write filepath text ;;;
              log_operation CFG cwd depth "write" filename ;;;
              ret "File written to successfully.") s = (r0, s0) ->
             file_sat (comps lp) P s0).
  { intros r0 s0 Hb.
    apply bind_inv in Hb as [(p & s1 & Hp & Hb) | (e & Hp & _)];
      apply lift_inv in Hp as [Hp ->]; [|assumption].
    cbv zeta in Hb.
    apply bind_inv in Hb as [(ex & s1 & Hex & Hb) | (e & Hex & _)];
      apply path_exists_run in Hex as (-> & _); [|assumption].
    assert (Hdir : forall r1 s2,
               (if negb ex then os_makedirs (posixpath.dirname p)
                else ret tt) s = (r1, s2) -> file_sat (comps lp) P s2).
    { intros r1 s2 Hr. destruct Hs as (c & Hc & HP).
      exists c. split; [|assumption].
      destruct ex; cbn [negb] in Hr.
      - run_done Hr. assumption.
      - unfold os_makedirs in Hr. eapply makedirs_frame; eauto. }
    apply bind_inv in Hb as [([] & s2 & Hmk & Hb) | (e & Hmk & _)];
      [|eapply Hdir; eauto].
    apply Hdir in Hmk.
    apply bind_inv in Hb as [([] & s3 & Hopen & Hb) | (e & Hopen & _)].
    - apply sys_update_run in Hopen as [[_ Hu]|[_ (e & ? & _)]];
        [|discriminate].
      assert (Hs3 : file_sat (comps lp) P s3).
      { destruct Hmk as (c & Hc & HP). exists c. split; [|assumption].
        eapply fs_update_frame; eauto using keeps_dirs_write.
        eapply is_log_name_false; eauto. }
      apply bind_inv in Hb as [([] & s4 & Hl & Hb) | (e & Hl & _)].
      + run_done Hb. eapply Hlog; eauto.
      + eapply Hlog; eauto.
    - apply sys_update_run in Hopen as [[? _]|[-> _]];
        [discriminate | assumption]. }
  apply try_inv in H as [(msg & H & _) | (e & s1 & H & Hh)].
  + eapply Hbody; eauto.
  + run_done Hh. eapply Hbody; eauto.
Qed.

Lemma delete_keeps_log depth filename s r s' :
  delete_file CFG cwd depth filename s = (r, s') ->
  is_log_name CFG cwd filename = false ->
  log_has CFG cwd entry s -> log_has CFG cwd entry s'.
Proof.
  intros H Hname (lp & Hlp & Hs). exists lp. split; [assumption|].
  destruct (appends_keep (comps lp) P P_app depth) as [Hlog _].
  unfold delete_file in H.
  apply bind_inv in H as [(dup & s0 & Hdup & H) | (e & Hdup & _)];
    rewrite check_duplicate_eq in Hdup; injection Hdup as _ <-;
    [|assumption].
  destruct dup; [run_done H; assumption|].
  assert (Hbody : forall r0 s0,
             (filepath <- lift (safe_join CFG WD [filename]) ;;
              os_remove filepath ;;;
              log_operation CFG cwd depth "delete" filename ;;;
              ret "File deleted successfully.") s = (r0, s0) ->
             file_sat (comps lp) P s0).
  { intros r0 s0 Hb.
    apply bind_inv in Hb as [(p & s1 & Hp & Hb) | (e & Hp & _)];
      apply lift_inv in Hp as [Hp ->]; [|assumption].
    apply bind_inv in Hb as [([] & s3 & Hrm & Hb) | (e & Hrm & _)].
    - apply sys_update_run in Hrm as [[_ Hu]|[_ (e & ? & _)]];
        [|discriminate].
      assert (Hs3 : file_sat (comps lp) P s3).
      { destruct Hs as (c & Hc & HP). exists c. split; [|assumption].
        eapply fs_update_frame; eauto using keeps_dirs_remove.
        eapply is_log_name_false; eauto. }
      apply bind_inv in Hb as [([] & s4 & Hl & Hb) | (e & Hl & _)].
      + run_done Hb. eapply Hlog; eauto.
      + eapply Hlog; eauto.
    - apply sys_update_run in Hrm as [[? _]|[-> _]];
        [discriminate | assumption]. }
  apply try_inv in H as [(msg & H & _) | (e & s1 & H & Hh)].
  + eapply Hbody; eauto.
  + run_done Hh. eapply Hbody; eauto.
Qed.

(** No call of the file store that spares the log takes a line out of it. *)
Lemma exec_keeps_log depth c s :
  spares_log CFG cwd c = true ->
  log_has CFG cwd entry s -> log_has CFG cwd entry (exec CFG cwd depth c s).
Proof.
  destruct c as [f|f t|f t|f|dir]; cbn [exec spares_log]; intros Hc Hs.
  - now rewrite read_file_eq.
  - apply negb_true_iff in Hc.
    destruct (write_to_file CFG cwd depth f t s) as [r s'] eqn:E.
    eapply write_keeps_log; eauto.
  - destruct (append_to_file CFG cwd depth f t s) as [r s'] eqn:E.
    destruct Hs as (lp & Hlp & Hs). exists lp. split; [assumption|].
    destruct (appends_keep (comps lp) P P_app depth) as [_ Happ].
    eapply Happ; eauto.
  - apply negb_true_iff in Hc.
    destruct (delete_file CFG cwd depth f s) as [r s'] eqn:E.
    eapply delete_keeps_log; eauto.
  - now rewrite search_files_state.
Qed.

Lemma exec_all_keeps_log cs :
  forall s, forallb (fun dc => spares_log CFG cwd (snd dc)) cs = true ->
    log_has CFG cwd entry s -> log_has CFG cwd entry (exec_all CFG cwd cs s).
Proof.
  induction cs as [|[d c] cs IH]; intros s Hcs Hs; [assumption|].
  cbn in Hcs. apply andb_true_iff in Hcs as [Hc Hcs].
  cbn [exec_all fold_left fst snd]. apply IH; [assumption|].
  now apply exec_keeps_log.
Qed.

End KeepLog.

End FileStore.

(** X3: the log is append-only for the file store: a line the log holds is still
    there after any calls that neither write nor delete the log file itself. *)
Theorem log_lines_are_kept (CFG : Config) (cwd entry : string)
  (cs : list (nat * command)) (s : fs) :
  forallb (fun dc => spares_log CFG cwd (snd dc)) cs = true ->
  log_has CFG cwd entry s -> log_has CFG cwd entry (exec_all CFG cwd cs s).
Proof. apply exec_all_keeps_log. Qed.

Lemma log_lines_are_kept_witness :
  log_has Example.restricted Example.cwd (log_entry "write" "notes/a.txt")
    (exec_all Example.restricted Example.cwd
       [(4, Append "notes/a.txt" "!"); (4, Delete "notes/a.txt");
        (4, Write "b.txt" "b"); (4, Search ""); (4, Read "b.txt")]
       Example.written).
Proof.
  apply (log_lines_are_kept Example.restricted Example.cwd
           (log_entry "write" "notes/a.txt")
           [(4, Append "notes/a.txt" "!"); (4, Delete "notes/a.txt");
            (4, Write "b.txt" "b"); (4, Search ""); (4, Read "b.txt")]
           Example.written).
  - reflexivity.
  - exists (LOG_FILE_PATH Example.cwd). split; [reflexivity|].
    eexists. split; [vm_compute; reflexivity | vm_compute; reflexivity].
Defined.

(** ** Paths of valid names *)

Section PathFacts.

Local Abbreviation sep := posixpath.sep.

Lemma valid_name_inv c :
  valid_name c = true ->
  c <> "" /\ Py.has_char sep c = false /\ c <> "." /\ c <> "..".
Proof.
  unfold valid_name. rewrite !andb_true_iff, !negb_true_iff.
  intros [[[[H1 H2] H3] H4] _].
  repeat split; try assumption; now apply String.eqb_neq.
Qed.

Lemma valid_name_storable c : valid_name c = true -> os.storable c = true.
Proof. unfold valid_name. rewrite !andb_true_iff. now intros [_ H]. Qed.

Lemma valid_names_storable cs :
  forallb valid_name cs = true -> forallb os.storable cs = true.
Proof.
  induction cs as [|c cs IH]; [reflexivity|]. cbn [forallb].
  intros H. apply andb_true_iff in H as [Hc Hcs].
  now rewrite (valid_name_storable _ Hc), IH.
Qed.

(** A path of valid names that is short enough is taken. *)
Lemma valid_accepts cs :
  forallb valid_name cs = true -> os.path_bytes cs < os.PATH_MAX ->
  os.accepts cs = true.
Proof.
  intros Hv Hb. unfold os.accepts. rewrite (valid_names_storable _ Hv).
  now apply Nat.ltb_lt.
Qed.

Lemma piece_inv c :
  piece c = true -> c <> "" /\ Py.has_char sep c = false.
Proof.
  unfold piece. rewrite andb_true_iff, !negb_true_iff.
  intros [H1 H2]. split; [now apply String.eqb_neq | assumption].
Qed.

Lemma valid_name_piece c : valid_name c = true -> piece c = true.
Proof.
  intros H. apply valid_name_inv in H as (H1 & H2 & _). unfold piece.
  apply String.eqb_neq in H1. now rewrite H1, H2.
Qed.

Lemma valid_names_pieces cs :
  forallb valid_name cs = true -> forallb piece cs = true.
Proof.
  induction cs as [|c cs IH]; [reflexivity|]. cbn [forallb].
  intros H. apply andb_true_iff in H as [Hc Hcs].
  now rewrite (valid_name_piece _ Hc), IH.
Qed.

Lemma split_noslash c :
  Py.has_char sep c = false -> Py.split sep c = [c].
Proof.
  induction c as [|a c IH]; cbn; [reflexivity|].
  intros H. apply orb_false_iff in H as [Ha Hc].
  rewrite Ha, (IH Hc). reflexivity.
Qed.

Lemma split_app c rest :
  Py.has_char sep c = false ->
  Py.split sep (c ++ String sep rest) = c :: Py.split sep rest.
Proof.
  induction c as [|a c IH]; cbn; [reflexivity|].
  intros H. apply orb_false_iff in H as [Ha Hc].
  rewrite Ha, (IH Hc). reflexivity.
Qed.

Lemma join_cons c c' l :
  Py.join "/" (c :: c' :: l) = c ++ String sep (Py.join "/" (c' :: l)).
Proof. reflexivity. Qed.

Lemma split_join_pieces cs :
  cs <> [] -> forallb piece cs = true ->
  Py.split sep (Py.join "/" cs) = cs.
Proof.
  induction cs as [|c [|c' cs] IH]; intros Hne Hcs; [contradiction| |].
  - cbn in Hcs. rewrite andb_true_r in Hcs.
    apply piece_inv in Hcs as (_ & H). now apply split_noslash.
  - cbn [forallb] in Hcs. apply andb_true_iff in Hcs as [Hc Hcs].
    apply piece_inv in Hc as (_ & H).
    rewrite join_cons, split_app by assumption.
    rewrite IH; [reflexivity | discriminate | assumption].
Qed.

Lemma split_join cs :
  cs <> [] -> forallb valid_name cs = true ->
  Py.split sep (Py.join "/" cs) = cs.
Proof. intros Hne Hcs. now apply split_join_pieces, valid_names_pieces. Qed.

Lemma norm_comps_valid i cs :
  forallb valid_name cs = true ->
  forall acc, posixpath.norm_comps i cs acc = (rev acc ++ cs)%list.
Proof.
  induction cs as [|c cs IH]; intros Hcs acc; cbn [posixpath.norm_comps].
  - now rewrite app_nil_r.
  - cbn [forallb] in Hcs. apply andb_true_iff in Hcs as [Hc Hcs].
    apply valid_name_inv in Hc as (H1 & _ & H2 & H3).
    apply String.eqb_neq in H1, H2, H3. rewrite H1, H2, H3. cbn [orb negb].
    rewrite IH by assumption. cbn [rev]. now rewrite <- app_assoc.
Qed.

Lemma valid_name_head c :
  valid_name c = true -> exists a c', c = String a c' /\ Ascii.eqb a sep = false.
Proof.
  intros H. apply valid_name_inv in H as (H1 & H2 & _).
  destruct c as [|a c']; [contradiction|]. cbn in H2.
  apply orb_false_iff in H2 as [Ha _]. eauto.
Qed.

Lemma join_head c cs :
  valid_name c = true ->
  exists a t, Py.join "/" (c :: cs) = String a t /\ Ascii.eqb a sep = false.
Proof.
  intros H. destruct (valid_name_head _ H) as (a & c' & -> & Ha).
  destruct cs as [|c2 cs]; [cbn; eauto|]. rewrite join_cons. cbn. eauto.
Qed.

Lemma prefix_slash_false a t :
  Ascii.eqb a sep = false -> String.prefix "/" (String a t) = false.
Proof.
  intros Ha.
  change (String.prefix "/" (String a t))
    with (if ascii_dec "/" a then String.prefix "" t else false).
  destruct (ascii_dec "/" a) as [<-|]; [|reflexivity].
  now rewrite Ascii.eqb_refl in Ha.
Qed.

Lemma initial_slashes_abs cs :
  forallb valid_name cs = true -> posixpath.initial_slashes (abs_path cs) = 1.
Proof.
  intros Hcs. unfold posixpath.initial_slashes, Py.startswith, abs_path.
  destruct cs as [|c cs]; [reflexivity|].
  cbn [forallb] in Hcs. apply andb_true_iff in Hcs as [Hc _].
  destruct (join_head c cs Hc) as (a & t & -> & Ha).
  change (String.prefix "/" ("/" ++ String a t)) with true.
  change (String.prefix "//" ("/" ++ String a t))
    with (String.prefix "/" (String a t)).
  now rewrite (prefix_slash_false a t Ha).
Qed.

Lemma split_abs cs :
  forallb valid_name cs = true ->
  Py.split sep (abs_path cs) = "" :: match cs with [] => [""] | _ => cs end.
Proof.
  intros Hcs. unfold abs_path. cbn [String.append Py.split].
  rewrite Ascii.eqb_refl. f_equal.
  destruct cs as [|c cs]; [reflexivity|]. now apply split_join.
Qed.

Lemma filter_valid cs :
  forallb valid_name cs = true ->
  filter (fun c => negb (String.eqb c "")) cs = cs.
Proof.
  induction cs as [|c cs IH]; cbn; [reflexivity|].
  intros H. apply andb_true_iff in H as [Hc Hcs].
  apply valid_name_inv in Hc as (H1 & _). apply String.eqb_neq in H1.
  rewrite H1. cbn. now rewrite IH.
Qed.

Lemma filter_pieces cs :
  forallb piece cs = true ->
  filter (fun c => negb (String.eqb c "")) cs = cs.
Proof.
  induction cs as [|c cs IH]; cbn; [reflexivity|].
  intros H. apply andb_true_iff in H as [Hc Hcs].
  apply piece_inv in Hc as (H1 & _). apply String.eqb_neq in H1.
  rewrite H1. cbn. now rewrite IH.
Qed.

(** The components of an absolute path of names are these names. *)
Lemma components_abs_pieces cs :
  forallb piece cs = true -> posixpath.components (abs_path cs) = cs.
Proof.
  intros Hcs. unfold posixpath.components, abs_path.
  cbn [String.append Py.split]. rewrite Ascii.eqb_refl.
  destruct cs as [|c cs]; [reflexivity|].
  rewrite split_join_pieces by (assumption || discriminate).
  transitivity (filter (fun c => negb (String.eqb c "")) (c :: cs));
    [reflexivity | now apply filter_pieces].
Qed.

Lemma components_abs cs :
  forallb valid_name cs = true -> posixpath.components (abs_path cs) = cs.
Proof. intros Hcs. now apply components_abs_pieces, valid_names_pieces. Qed.

(** [normpath] leaves such a path as it is. *)
Lemma normpath_abs cs :
  forallb valid_name cs = true ->
  posixpath.normpath (abs_path cs) = abs_path cs.
Proof.
  intros Hcs. unfold posixpath.normpath.
  rewrite initial_slashes_abs, split_abs by assumption.
  replace (String.eqb (abs_path cs) "") with false by reflexivity.
  destruct cs as [|c cs]; [reflexivity|].
  change (posixpath.norm_comps 1 ("" :: c :: cs) [])
    with (posixpath.norm_comps 1 (c :: cs) []).
  rewrite norm_comps_valid by assumption. reflexivity.
Qed.

Lemma endswith_app a b c :
  b <> "" -> Py.endswith_char (a ++ b) c = Py.endswith_char b c.
Proof.
  intros Hb. induction a as [|x a IH]; [reflexivity|].
  cbn [String.append Py.endswith_char].
  destruct (a ++ b) eqn:E; [|assumption].
  destruct a; [cbn in E; contradiction | discriminate].
Qed.

Lemma endswith_absent s c :
  Py.has_char c s = false -> Py.endswith_char s c = false.
Proof.
  induction s as [|a s IH]; [reflexivity|]. cbn [Py.has_char Py.endswith_char].
  intros H. apply orb_false_iff in H as [Ha Hs].
  destruct s; [assumption | auto].
Qed.

Lemma join_snoc cs f :
  cs <> [] -> Py.join "/" (cs ++ [f]) = Py.join "/" cs ++ String sep f.
Proof.
  induction cs as [|c [|c' cs] IH]; intros Hne; [contradiction|reflexivity|].
  change ((c :: c' :: cs) ++ [f])%list with (c :: c' :: (cs ++ [f]))%list.
  rewrite !join_cons.
  change (c' :: (cs ++ [f]))%list with ((c' :: cs) ++ [f])%list.
  rewrite IH by discriminate. now rewrite str_app_assoc.
Qed.

Lemma abs_path_snoc cs f :
  cs <> [] -> abs_path (cs ++ [f]) = abs_path cs ++ String sep f.
Proof.
  intros Hne. unfold abs_path. now rewrite join_snoc.
Qed.

Lemma abs_path_well_ended cs :
  cs <> [] -> forallb valid_name cs = true ->
  abs_path cs <> "" /\ Py.endswith_char (abs_path cs) sep = false.
Proof.
  intros Hne Hcs. split; [discriminate|].
  destruct (exists_last Hne) as (init & l & ->).
  rewrite forallb_app in Hcs. apply andb_true_iff in Hcs as [_ Hl].
  cbn in Hl. rewrite andb_true_r in Hl.
  apply valid_name_inv in Hl as (Hl1 & Hl2 & _).
  destruct init as [|c init].
  - unfold abs_path. cbn [app Py.join String.concat].
    rewrite endswith_app by assumption. now apply endswith_absent.
  - rewrite abs_path_snoc by discriminate.
    change (String sep l) with ("/" ++ l). rewrite <- str_app_assoc.
    rewrite endswith_app by assumption. now apply endswith_absent.
Qed.

Lemma join1_valid acc f :
  acc <> "" -> Py.endswith_char acc sep = false -> valid_name f = true ->
  posixpath.join1 acc f = acc ++ String sep f.
Proof.
  intros Hacc Hend Hf. unfold posixpath.join1, Py.startswith.
  destruct (valid_name_head _ Hf) as (a & f' & -> & Ha).
  rewrite (prefix_slash_false a f' Ha), Hend.
  apply String.eqb_neq in Hacc. rewrite Hacc. reflexivity.
Qed.

(** Joining a valid name to an absolute path of valid names. *)
Lemma join_abs cs f :
  forallb valid_name cs = true -> valid_name f = true ->
  posixpath.join (abs_path cs) [f] = abs_path (cs ++ [f]).
Proof.
  intros Hcs Hf. cbn [posixpath.join fold_left].
  destruct cs as [|c cs].
  - unfold posixpath.join1, Py.startswith.
    destruct (valid_name_head _ Hf) as (a & f' & -> & Ha).
    rewrite (prefix_slash_false a f' Ha). reflexivity.
  - destruct (abs_path_well_ended (c :: cs)) as [H1 H2];
      [discriminate | assumption |].
    rewrite join1_valid, abs_path_snoc by (assumption || discriminate).
    reflexivity.
Qed.

(** [posixpath.join] of valid names is the names joined by slashes. *)
Lemma join_valid_names p :
  forall a, forallb valid_name (a :: p) = true ->
    posixpath.join a p = Py.join "/" (a :: p).
Proof.
  assert (G : forall p acc,
             acc <> "" -> Py.endswith_char acc sep = false ->
             forallb valid_name p = true ->
             forall a, Py.join "/" (a :: p) = a ++ Py.join "/" ("" :: p) /\
             fold_left posixpath.join1 p acc = acc ++ Py.join "/" ("" :: p)).
  { clear p. induction p as [|x p IH]; intros acc Hacc Hend Hp a.
    - cbn. now rewrite !str_app_nil.
    - cbn [forallb] in Hp. apply andb_true_iff in Hp as [Hx Hp].
      pose proof (valid_name_inv _ Hx) as (Hx1 & Hx2 & _).
      assert (Hacc' : acc ++ String sep x <> "")
        by (destruct acc; discriminate).
      assert (Hend' : Py.endswith_char (acc ++ String sep x) sep = false).
      { change (String sep x) with ("/" ++ x). rewrite <- str_app_assoc.
        rewrite endswith_app by assumption. now apply endswith_absent. }
      destruct (IH _ Hacc' Hend' Hp x) as [Hj Hf]. split.
      + rewrite !join_cons. cbn [String.append]. reflexivity.
      + cbn [fold_left]. rewrite join1_valid by assumption.
        rewrite Hf, join_cons, Hj. cbn [String.append].
        now rewrite str_app_assoc. }
  intros a Ha. cbn [forallb] in Ha. apply andb_true_iff in Ha as [Ha Hp].
  pose proof (valid_name_inv _ Ha) as (Ha1 & Ha2 & _).
  destruct (G p a Ha1 (endswith_absent _ _ Ha2) Hp a) as [Hj Hf].
  unfold posixpath.join. now rewrite Hf, Hj.
Qed.

Lemma common_len_app l rest :
  posixpath.common_len l (l ++ rest) = List.length l.
Proof.
  induction l as [|a l IH]; [destruct rest; reflexivity|].
  cbn. now rewrite String.eqb_refl, IH.
Qed.

(** The path of an entry relative to a directory above it. *)
Lemma relpath_below base rest :
  forallb valid_name (base ++ rest) = true -> rest <> [] ->
  posixpath.relpath (abs_path (base ++ rest)) (abs_path base)
  = Py.join "/" rest.
Proof.
  intros Hall Hne. pose proof Hall as Hall'.
  rewrite forallb_app in Hall'. apply andb_true_iff in Hall' as [Hb Hr].
  unfold posixpath.relpath.
  rewrite !normpath_abs, !components_abs by assumption.
  rewrite common_len_app, Nat.sub_diag, skipn_app, skipn_all, Nat.sub_diag.
  cbn [repeat app skipn].
  destruct rest as [|a p]; [contradiction|]. now apply join_valid_names.
Qed.

Lemma join_app a b :
  a <> [] -> b <> [] ->
  Py.join "/" (a ++ b) = Py.join "/" a ++ String sep (Py.join "/" b).
Proof.
  induction a as [|c [|c' a] IH]; intros Ha Hb; [contradiction| |].
  - destruct b as [|x b]; [contradiction|]. reflexivity.
  - change ((c :: c' :: a) ++ b)%list with (c :: c' :: (a ++ b))%list.
    rewrite !join_cons.
    change (c' :: (a ++ b))%list with ((c' :: a) ++ b)%list.
    rewrite IH by (assumption || discriminate). now rewrite str_app_assoc.
Qed.

Lemma abs_path_app a b :
  a <> [] -> b <> [] ->
  abs_path (a ++ b) = abs_path a ++ String sep (Py.join "/" b).
Proof. intros Ha Hb. unfold abs_path. now rewrite join_app. Qed.

(** Joining a relative path of valid names to an absolute one. *)
Lemma join_abs_relative cs names :
  cs <> [] -> forallb valid_name cs = true ->
  names <> [] -> forallb valid_name names = true ->
  posixpath.join (abs_path cs) [Py.join "/" names] = abs_path (cs ++ names).
Proof.
  intros Hcs Hv Hn Hnv. cbn [posixpath.join fold_left].
  destruct names as [|x names]; [contradiction|].
  cbn [forallb] in Hnv. apply andb_true_iff in Hnv as [Hx _].
  destruct (join_head x names Hx) as (a & t & Ej & Ha).
  destruct (abs_path_well_ended cs Hcs Hv) as [H1 H2].
  rewrite abs_path_app by (assumption || discriminate).
  unfold posixpath.join1, Py.startswith. rewrite Ej.
  rewrite (prefix_slash_false a t Ha), H2.
  apply String.eqb_neq in H1. now rewrite H1.
Qed.

Lemma head_no_slash s :
  Py.has_char sep s = false -> posixpath.head_upto_last_slash s = "".
Proof.
  intros H. destruct s as [|a s]; [reflexivity|].
  unfold posixpath.head_upto_last_slash. now rewrite H.
Qed.

Lemma head_app x name :
  Py.has_char sep name = false ->
  posixpath.head_upto_last_slash (x ++ String sep name) = x ++ "/".
Proof.
  intros H. induction x as [|a x IH].
  - change ("" ++ String sep name) with (String sep name).
    change (posixpath.head_upto_last_slash (String sep name))
      with (String sep (posixpath.head_upto_last_slash name)).
    now rewrite head_no_slash.
  - change (String a x ++ String sep name)
      with (String a (x ++ String sep name)).
    change (posixpath.head_upto_last_slash (String a (x ++ String sep name)))
      with (if Py.has_char sep (String a (x ++ String sep name))
            then String a (posixpath.head_upto_last_slash
                             (x ++ String sep name))
            else "").
    replace (Py.has_char sep (String a (x ++ String sep name))) with true.
    + now rewrite IH.
    + symmetry. change (String a (x ++ String sep name))
        with (String a x ++ String sep name).
      rewrite has_char_app. cbn [Py.has_char].
      rewrite (Ascii.eqb_refl sep). cbn. apply orb_true_r.
Qed.

Lemma all_slashes_well_ended y t :
  y <> "" -> Py.endswith_char y sep = false ->
  posixpath.all_slashes (y ++ t) = false.
Proof.
  induction y as [|a y IH]; intros Hy He; [contradiction|].
  cbn [String.append posixpath.all_slashes].
  destruct y as [|b y].
  - cbn in He. now rewrite He.
  - rewrite IH; [apply andb_false_r | discriminate | exact He].
Qed.

Lemma rstrip_well_ended y :
  y <> "" -> Py.endswith_char y sep = false ->
  posixpath.rstrip_slash (y ++ "/") = y.
Proof.
  induction y as [|a y IH]; intros Hy He; [contradiction|].
  change (posixpath.rstrip_slash (String a y ++ "/"))
    with (if posixpath.all_slashes (String a y ++ "/") then ""
          else String a (posixpath.rstrip_slash (y ++ "/"))).
  rewrite all_slashes_well_ended by assumption. f_equal.
  destruct y as [|b y]; [reflexivity|].
  apply IH; [discriminate | exact He].
Qed.

(** The directory of an absolute path of valid names. *)
Lemma dirname_abs dcs name :
  forallb valid_name (dcs ++ [name]) = true ->
  posixpath.dirname (abs_path (dcs ++ [name])) = abs_path dcs.
Proof.
  intros Hv. rewrite forallb_app in Hv. apply andb_true_iff in Hv as [Hd Hn].
  cbn in Hn. rewrite andb_true_r in Hn.
  apply valid_name_inv in Hn as (_ & Hn & _).
  unfold posixpath.dirname. destruct dcs as [|c dcs].
  - change (abs_path ([] ++ [name])) with ("" ++ String sep name).
    rewrite head_app by assumption. reflexivity.
  - destruct (abs_path_well_ended (c :: dcs)) as [H1 H2];
      [discriminate | assumption |].
    rewrite abs_path_snoc by discriminate.
    rewrite head_app by assumption.
    rewrite all_slashes_well_ended by assumption.
    replace (String.eqb (abs_path (c :: dcs) ++ "/") "") with false
      by reflexivity.
    cbn [negb andb]. now apply rstrip_well_ended.
Qed.

Lemma forallb_firstn {A} (f : A -> bool) k l :
  forallb f l = true -> forallb f (firstn k l) = true.
Proof.
  revert k; induction l as [|x l IH]; intros [|k] H; try reflexivity.
  cbn in H |- *. apply andb_true_iff in H as [Hx Hl].
  now rewrite Hx, IH.
Qed.

End PathFacts.

Lemma working_directory_abs cwd :
  canonical cwd = true ->
  WORKING_DIRECTORY cwd
  = abs_path (posixpath.components cwd ++ ["auto_gpt_workspace"]) /\
  forallb valid_name (posixpath.components cwd ++ ["auto_gpt_workspace"]) = true.
Proof.
  unfold canonical. intros H. apply andb_true_iff in H as [H _].
  apply andb_true_iff in H as [Hcs Heq].
  apply String.eqb_eq in Heq. split.
  - unfold WORKING_DIRECTORY. rewrite Heq at 1. now apply join_abs.
  - rewrite forallb_app, Hcs. reflexivity.
Qed.

(** The file system takes the path of the log file in the working directory,
    and with it the path of the working directory. *)
Lemma log_file_path_accepts cwd :
  canonical cwd = true ->
  os.accepts ((posixpath.components cwd ++ ["auto_gpt_workspace"])
                ++ [LOG_FILE])%list = true /\
  os.accepts (posixpath.components cwd ++ ["auto_gpt_workspace"])%list = true.
Proof.
  intros H. destruct (working_directory_abs cwd H) as [_ Hv].
  unfold canonical in H. apply andb_true_iff in H as [_ Hb].
  apply Nat.ltb_lt in Hb.
  assert (Ha : os.accepts ((posixpath.components cwd ++ ["auto_gpt_workspace"])
                             ++ [LOG_FILE])%list = true).
  { apply valid_accepts.
    - rewrite forallb_app, Hv. reflexivity.
    - now rewrite <- app_assoc. }
  split; [exact Ha | now apply accepts_app in Ha].
Qed.


(** ** The path guard (C1) *)

(** The scan of [commonprefix] returns its first argument exactly when that
    is a prefix of the second, and likewise with the arguments swapped. *)
Lemma common_prefix a :
  forall b, String.prefix a b = true ->
    posixpath.common a b = a /\ posixpath.common b a = a.
Proof.
  induction a as [|x a IH]; intros [|y b] H; try discriminate.
  - split; reflexivity.
  - split; reflexivity.
  - apply prefix_cons_inv in H as [<- H]. destruct (IH b H) as [H1 H2].
    cbn. rewrite Ascii.eqb_refl. now rewrite H1, H2.
Qed.

Lemma common_is_prefix a :
  forall b, posixpath.common a b = a \/ posixpath.common b a = a ->
    String.prefix a b = true.
Proof.
  induction a as [|x a IH]; intros b H; [apply prefix_nil|].
  destruct b as [|y b]; [destruct H; discriminate|].
  cbn in H. rewrite (Ascii.eqb_sym y x) in H.
  destruct (Ascii.eqb_spec x y) as [<-|Hne];
    [|destruct H; discriminate].
  rewrite prefix_cons. apply IH. destruct H as [H|H]; injection H; auto.
Qed.

Lemma commonprefix2_is_base base new_path :
  String.eqb (posixpath.commonprefix2 base new_path) base
  = String.prefix base new_path.
Proof.
  unfold posixpath.commonprefix2.
  destruct (String.prefix base new_path) eqn:E.
  - destruct (common_prefix _ _ E) as [H1 H2].
    destruct (String.leb base new_path); rewrite ?H1, ?H2;
      apply String.eqb_refl.
  - apply String.eqb_neq. intros H.
    rewrite common_is_prefix in E; [discriminate|].
    destruct (String.leb base new_path); auto.
Qed.

(** With the restriction on, [safe_join] returns the normalised join and
    raises exactly when the common prefix is not [base]. *)
Lemma safe_join_restricted (CFG : Config) (base : string) (paths : list string) :
  Py.lower (working_directory_restricted CFG) = "true" ->
  let new_path := posixpath.normpath (posixpath.join base paths) in
  safe_join CFG base paths =
  if String.eqb (posixpath.commonprefix2 base new_path) base
  then inr new_path
  else inl (ValueError "Attempted to access outside of working directory.").
Proof.
  intros H. unfold safe_join. rewrite H. cbn.
  destruct (String.eqb _ base); reflexivity.
Qed.

(** That is: exactly when [base] is not a prefix, character by character,
    of the normalised join. *)
Lemma safe_join_restricted_prefix (CFG : Config) (base : string)
  (paths : list string) :
  Py.lower (working_directory_restricted CFG) = "true" ->
  let new_path := posixpath.normpath (posixpath.join base paths) in
  safe_join CFG base paths =
  if String.prefix base new_path
  then inr new_path
  else inl (ValueError "Attempted to access outside of working directory.").
Proof.
  intros H new_path. rewrite <- commonprefix2_is_base.
  now apply safe_join_restricted.
Qed.

(** With the restriction off the segments are resolved against the root. *)
Lemma safe_join_unrestricted (CFG : Config) (base : string) (paths : list string) :
  Py.lower (working_directory_restricted CFG) <> "true" ->
  safe_join CFG base paths
  = inr (posixpath.normpath (posixpath.join "/" paths)).
Proof.
  intros H. unfold safe_join.
  destruct (String.eqb_spec (Py.lower (working_directory_restricted CFG)) "true");
    [contradiction | reflexivity].
Qed.

(** With the restriction on and a normalised working directory the log is
    read and appended at [LOG_FILE_PATH]. *)
Lemma log_path_restricted (CFG : Config) (cwd : string) :
  Py.lower (working_directory_restricted CFG) = "true" ->
  canonical cwd = true ->
  log_path CFG cwd = inr (LOG_FILE_PATH cwd).
Proof.
  intros Hr Hcwd. destruct (working_directory_abs cwd Hcwd) as [HWD Hvalid].
  unfold log_path. rewrite safe_join_restricted_prefix by assumption.
  cbv zeta. fold (LOG_FILE_PATH cwd).
  assert (HL : LOG_FILE_PATH cwd
               = abs_path ((posixpath.components cwd ++ ["auto_gpt_workspace"])
                             ++ [LOG_FILE])).
  { unfold LOG_FILE_PATH. rewrite HWD. now apply join_abs. }
  assert (HLv : forallb valid_name
                  ((posixpath.components cwd ++ ["auto_gpt_workspace"])
                     ++ [LOG_FILE]) = true)
    by (rewrite forallb_app, Hvalid; reflexivity).
  assert (Hn : posixpath.normpath (LOG_FILE_PATH cwd) = LOG_FILE_PATH cwd)
    by (rewrite HL; now apply normpath_abs).
  assert (Hp : String.prefix (WORKING_DIRECTORY cwd) (LOG_FILE_PATH cwd) = true).
  { rewrite HL, abs_path_snoc, <- HWD.
    - apply prefix_self_app.
    - destruct (posixpath.components cwd); discriminate. }
  now rewrite Hn, Hp.
Qed.

(** X1: the guard of [safe_join] is a test on characters: with the restriction
    on, the normalised join is returned when [base] is a prefix of it as a
    text, and [ValueError] is raised otherwise. *)
Theorem safe_join_guard_is_a_prefix_test (CFG : Config) (base : string)
  (paths : list string) :
  Py.lower (working_directory_restricted CFG) = "true" ->
  (String.prefix base (posixpath.normpath (posixpath.join base paths)) = true ->
   safe_join CFG base paths
   = inr (posixpath.normpath (posixpath.join base paths))) /\
  (String.prefix base (posixpath.normpath (posixpath.join base paths)) = false ->
   safe_join CFG base paths
   = inl (ValueError "Attempted to access outside of working directory.")).
Proof.
  intros H. pose proof (safe_join_restricted_prefix CFG base paths H) as E.
  cbv zeta in E. split; intros Hp; now rewrite Hp in E.
Qed.

Lemma safe_join_guard_witness :
  safe_join Example.restricted (WORKING_DIRECTORY Example.cwd)
    ["notes"; "../../../etc/passwd"]
  = inl (ValueError "Attempted to access outside of working directory.").
Proof.
  apply (safe_join_guard_is_a_prefix_test Example.restricted
           (WORKING_DIRECTORY Example.cwd) ["notes"; "../../../etc/passwd"]);
    reflexivity.
Defined.

(** C1 fails on the code.  With the restriction on, [safe_join] compares
    characters, not path components: a path into a sibling directory whose
    name starts with the name of the working directory has the working
    directory as common prefix, is returned without error, and lies outside
    the working directory. *)
Theorem C1_sibling_directory_is_accepted :
  safe_join Example.restricted (WORKING_DIRECTORY Example.cwd)
    ["../auto_gpt_workspace_old/secret.txt"]
  = inr "/home/agent/auto_gpt_workspace_old/secret.txt" /\
  posixpath.commonprefix2 (WORKING_DIRECTORY Example.cwd)
    "/home/agent/auto_gpt_workspace_old/secret.txt"
  = WORKING_DIRECTORY Example.cwd /\
  inside_root (WORKING_DIRECTORY Example.cwd)
    "/home/agent/auto_gpt_workspace_old/secret.txt" = false.
Proof. repeat split; vm_compute; reflexivity. Qed.

(** ** Making directories, resolving relative names *)

Lemma fs_stat_snoc p name s :
  os.accepts (p ++ [name])%list = true ->
  fs_stat (p ++ [name])%list s =
  match fs_stat p s with
  | inr (Dir es) =>
      match os.assoc name es with
      | Some m => inr m
      | None => inl ENOENT
      end
  | inr (File _) => inl ENOTDIR
  | inl e => inl e
  end.
Proof.
  intros Ha. destruct (accepts_app _ _ Ha) as [Hp _].
  rewrite !fs_stat_accepted by assumption. rewrite stat_app.
  destruct (os.stat p (Dir s)) as [e|[c|es]]; reflexivity.
Qed.

Lemma fs_update_snoc f name o p s es :
  os.accepts (p ++ [name])%list = true ->
  fs_stat p s = inr (Dir es) -> f (os.assoc name es) = inr o ->
  exists s', fs_update (p ++ [name])%list f s = inr s' /\
             fs_stat p s' = inr (Dir (os.set_entry name o es)).
Proof.
  intros Ha Hp Hf. destruct (accepts_app _ _ Ha) as [Hpa _].
  rewrite fs_stat_accepted in Hp by assumption.
  destruct (update_snoc f name o p (Dir s) es Hp Hf) as (n' & Hu & Hs).
  destruct (update_dir _ _ _ _ Hu) as [s' ->].
  exists s'. rewrite fs_update_accepted, fs_stat_accepted by assumption.
  now rewrite Hu.
Qed.

Lemma fs_update_keeps_dir f p q s s' es :
  keeps_dirs f -> fs_update p f s = inr s' ->
  fs_stat q s = inr (Dir es) -> exists es', fs_stat q s' = inr (Dir es').
Proof.
  intros Hf Hu Hq. apply fs_update_inr in Hu as [_ Hu].
  apply fs_stat_inr in Hq as [Ha Hq]. rewrite fs_stat_accepted by assumption.
  eapply update_keeps_dir; eauto.
Qed.

Lemma firstn_snoc {A} (d : A) k (l : list A) :
  k < List.length l -> firstn (S k) l = (firstn k l ++ [nth k l d])%list.
Proof.
  revert k; induction l as [|x l IH]; intros k Hk; [cbn in Hk; lia|].
  destruct k as [|k]; [reflexivity|].
  cbn [firstn nth app]. f_equal. apply IH. cbn in Hk. lia.
Qed.

(** [os.makedirs] makes the directories that are missing when none of the
    entries on the way is a file. *)
Lemma makedirs_makes (dcs : list string) :
  forallb piece dcs = true -> os.accepts dcs = true ->
  forall k s e,
    k <= List.length dcs ->
    (forall j m, j < k -> fs_stat (firstn j dcs) s = inr m ->
                 exists es, m = Dir es) ->
    fs_stat (firstn k dcs) s = inl e ->
    exists s',
      makedirs_upto k dcs s = (inr tt, s') /\
      fs_stat (firstn k dcs) s' = inr (Dir []).
Proof.
  intros Hv Hacc. induction k as [|k IH]; intros s e Hk Hdirs Hmiss.
  { rewrite fs_stat_accepted in Hmiss by reflexivity. discriminate. }
  assert (Hc : forall j, posixpath.components (os.prefix_str j dcs)
                         = firstn j dcs).
  { intros j. apply (components_abs_pieces (firstn j dcs)).
    now apply forallb_firstn. }
  pose proof (accepts_firstn (S k) dcs Hacc) as Hak.
  cbn [makedirs_upto]. unfold bind at 1, path_exists at 1. rewrite (Hc k).
  rewrite (firstn_snoc "" k dcs) in * by lia.
  set (x := nth k dcs "") in *.
  assert (Hmk : forall s0,
             fs_stat (firstn k dcs) s0 = inr (Dir []) \/
             (s0 = s /\ exists es, fs_stat (firstn k dcs) s = inr (Dir es)) ->
             exists s',
               os_mkdir (os.prefix_str (S k) dcs) s0 = (inr tt, s') /\
               fs_stat (firstn k dcs ++ [x])%list s' = inr (Dir [])).
  { intros s0 Hs0.
    assert (exists es, fs_stat (firstn k dcs) s0 = inr (Dir es) /\
                       os.assoc x es = None) as (es & Hes & Hx).
    { destruct Hs0 as [H0|[-> [es Hes]]]; [eauto|].
      exists es. split; [assumption|].
      rewrite fs_stat_snoc, Hes in Hmiss by assumption.
      destruct (os.assoc x es); [discriminate | reflexivity]. }
    destruct (fs_update_snoc os.on_mkdir x (Some (Dir [])) _ s0 es Hak Hes)
      as (s' & Hu & Hs'); [now rewrite Hx|].
    exists s'. unfold os_mkdir. rewrite sys_update_eq.
    rewrite (Hc (S k)), (firstn_snoc "" k dcs) by lia. fold x. rewrite Hu.
    split; [reflexivity|].
    now rewrite fs_stat_snoc, Hs', assoc_set_same by assumption. }
  destruct (fs_stat (firstn k dcs) s) as [e0|m] eqn:Ek.
  - cbn [negb]. unfold bind at 1, try_except.
    destruct (IH s e0 ltac:(lia)) as (s1 & Hrun & Hs1);
      [intros j m Hj; apply Hdirs; lia | assumption |].
    rewrite Hrun. apply Hmk. now left.
  - cbn [negb]. unfold bind at 1, ret at 1.
    destruct (Hdirs k m ltac:(lia)) as [es ->].
    { rewrite <- Ek. f_equal. }
    apply Hmk. right. eauto.
Qed.

Section WriteSucceeds.

Variable CFG : Config.
Variable cwd : string.
Hypothesis restricted : Py.lower (working_directory_restricted CFG) = "true".
Hypothesis cwd_canonical : canonical cwd = true.

Local Abbreviation wcs := (posixpath.components cwd ++ ["auto_gpt_workspace"])%list.

Lemma safe_join_relative names :
  names <> [] -> forallb valid_name names = true ->
  safe_join CFG (WORKING_DIRECTORY cwd) [Py.join "/" names]
  = inr (abs_path (wcs ++ names)%list).
Proof.
  intros Hn Hv.
  destruct (working_directory_abs cwd cwd_canonical) as [HWD Hw].
  assert (Hne : wcs <> []) by (destruct (posixpath.components cwd); discriminate).
  assert (Hall : forallb valid_name (wcs ++ names)%list = true)
    by (rewrite forallb_app, Hw, Hv; reflexivity).
  rewrite safe_join_restricted_prefix by assumption. cbv zeta.
  rewrite HWD, join_abs_relative, normpath_abs by assumption.
  rewrite (abs_path_app wcs names) at 1 by assumption.
  now rewrite prefix_self_app.
Qed.

End WriteSucceeds.

(** ** The duplicate check on a missing log (C9) *)

Lemma no_newline_no_entry (msg kind filename : string) :
  Py.has_char Py.nl msg = false ->
  Py.contains msg (log_entry kind filename) = false.
Proof.
  intros Hmsg. destruct (Py.contains msg (log_entry kind filename)) eqn:E;
    [|reflexivity].
  rewrite (contains_has_char Py.nl _ _ E (log_entry_has_newline _ _)) in Hmsg.
  discriminate.
Qed.

(** C9: when the log file does not exist, [check_duplicate_operation] returns
    [False] for every kind and filename and changes nothing: the read it
    delegates to returns a text that starts with [Error: ], and that text does
    not contain the entry line, which ends in a line feed. *)
Theorem C9_missing_log_has_no_entry (CFG : Config) (cwd kind filename : string)
  (s : fs) :
  log_exists CFG cwd s = false ->
  check_duplicate_operation CFG cwd kind filename s = (inr false, s) /\
  exists msg,
    read_file CFG cwd LOG_FILE s = (inr ("Error: " ++ msg), s) /\
    Py.contains ("Error: " ++ msg) (log_entry kind filename) = false.
Proof.
  intros Hmissing. rewrite check_duplicate_eq, read_file_eq. cbn [fst].
  unfold log_exists, log_path in Hmissing.
  assert (Herr : exists msg,
             match safe_join CFG (WORKING_DIRECTORY cwd) [LOG_FILE] with
             | inl e => "Error: " ++ str_exn e
             | inr p =>
                 match fs_stat (posixpath.components p) s with
                 | inr (File c) => Py.universal_newlines c
                 | inr (Dir _) => "Error: " ++ str_exn (OSError EISDIR p)
                 | inl e => "Error: " ++ str_exn (os_error e p)
                 end
             end = "Error: " ++ msg /\ Py.has_char Py.nl msg = false).
  { destruct (safe_join CFG (WORKING_DIRECTORY cwd) [LOG_FILE]) as [e|p] eqn:Ep.
    - apply safe_join_error in Ep as ->. eexists; split; reflexivity.
    - destruct (fs_stat (posixpath.components p) s) as [e|n]; [|discriminate].
      eexists; split; [reflexivity | apply sys_error_no_newline]. }
  destruct Herr as (msg & -> & Hmsg).
  assert (Hno : Py.contains ("Error: " ++ msg) (log_entry kind filename) = false).
  { apply no_newline_no_entry. rewrite has_char_app, Hmsg. reflexivity. }
  split; [now rewrite Hno | exists msg; auto].
Qed.

Lemma C9_missing_log_witness :
  log_exists Example.restricted Example.cwd Example.fresh = false /\
  check_duplicate_operation Example.restricted Example.cwd
    "write" "notes/a.txt" Example.fresh = (inr false, Example.fresh).
Proof.
  split; [reflexivity|].
  apply (C9_missing_log_has_no_entry Example.restricted Example.cwd
           "write" "notes/a.txt" Example.fresh).
  reflexivity.
Defined.

(** ** The recursion between [log_operation] and [append_to_file] (C2) *)

(** C2 fails on the code: there is no base case.  With the restriction on,
    a normalised working directory and the log a regular file, a call of
    [append_to_file] on the log appends its text and then one [append] entry
    for every two frames the interpreter still allows: the recursion ends
    only in the [RecursionError] that the innermost [append_to_file] turns
    into a returned text. *)
Theorem C2_appends_fill_the_stack (CFG : Config) (cwd : string) :
  Py.lower (working_directory_restricted CFG) = "true" ->
  canonical cwd = true ->
  forall (depth : nat) (c text : string) (s : fs),
    fs_stat (posixpath.components (LOG_FILE_PATH cwd)) s = inr (File c) ->
    exists msg s',
      append_to_file CFG cwd (S depth) LOG_FILE text s = (inr msg, s') /\
      fs_stat (posixpath.components (LOG_FILE_PATH cwd)) s'
      = inr (File (c ++ text ++
                   repeat_str (log_entry "append" LOG_FILE) (depth / 2))).
Proof.
  intros Hr Hcwd depth.
  pose proof (log_path_restricted CFG cwd Hr Hcwd) as Hlp.
  unfold log_path in Hlp.
  induction depth as [depth IH] using lt_wf_ind. intros c text s Hc.
  destruct (fs_append_file text _ _ _ Hc) as [s_a Hu].
  destruct (fs_append_found _ _ _ _ Hu) as (c' & Hc' & Hold).
  rewrite <- (Hold c Hc) in *. clear Hold.
  assert (Hopen : open_append (LOG_FILE_PATH cwd) text s = (inr tt, s_a))
    by (unfold open_append; now rewrite sys_update_eq, Hu).
  rewrite append_to_file_S. unfold try_except, bind at 1 2.
  unfold lift at 1. rewrite Hlp, Hopen. unfold bind at 1.
  destruct depth as [|[|d]].
  - cbn. eexists _, _. split; [reflexivity|]. now rewrite str_app_nil.
  - rewrite log_operation_S. unfold bind at 1 2, path_exists at 1.
    rewrite Hc'. cbn. eexists _, _. split; [reflexivity|].
    now rewrite str_app_nil.
  - rewrite log_operation_S. unfold bind at 1 2, path_exists at 1.
    rewrite Hc'. cbn [negb]. unfold ret at 1. unfold bind at 1.
    destruct (IH d ltac:(lia) (c' ++ text) (log_entry "append" LOG_FILE) s_a Hc')
      as (msg & s' & Happ & Hs').
    rewrite Happ. unfold ret. eexists _, _. split; [reflexivity|].
    rewrite Hs'. do 2 f_equal.
    replace (S (S d)) with (d + 1 * 2) by lia.
    rewrite Nat.div_add by lia. rewrite Nat.add_1_r. cbn [repeat_str].
    now rewrite !str_app_assoc.
Qed.

Lemma C2_appends_fill_the_stack_witness :
  exists msg s',
    append_to_file Example.restricted Example.cwd 101 LOG_FILE "x"
      Example.written = (inr msg, s') /\
    fs_stat (posixpath.components (LOG_FILE_PATH Example.cwd)) s'
    = inr (File (("File Operation Logger " ++ log_entry "write" "notes/a.txt"
                    ++ log_entry "append" LOG_FILE)
                 ++ "x" ++ repeat_str (log_entry "append" LOG_FILE) 50)).
Proof.
  apply (C2_appends_fill_the_stack Example.restricted Example.cwd
           eq_refl eq_refl 100 _ "x" Example.written).
  vm_compute; reflexivity.
Defined.

(** ** Chunks (C5, C6) *)

(** C5 fails on the code.  On 4500 characters with [max_length = 4000] and
    [overlap = 200] the loop yields two chunks and the second starts at 3800,
    but the first is [content[0:4200]]: it is 4200 characters long, more than
    [max_length], and the two chunks share the range from 3800 to 4200, twice
    the overlap. *)
Theorem C5_first_chunk_exceeds_max_length :
  Py.len Example.content4500 = 4500%Z /\
  split_spans 2 4500 4000 200 0 = Some [(0, 4200); (3800, 4500)]%Z /\
  split_file 2 Example.content4500 4000 200
  = Some [Py.slice Example.content4500 0 4200;
          Py.slice Example.content4500 3800 4500] /\
  option_map (map String.length) (split_file 2 Example.content4500 4000 200)
  = Some [4200; 700].
Proof. repeat split; vm_compute; reflexivity. Qed.

Section SplitFile.

Variables n max_length overlap : Z.
Hypothesis overlap_ok : (0 <= overlap < max_length)%Z.

Local Abbreviation stride := (max_length - overlap)%Z.

Lemma split_spans_more_fuel fuel :
  forall start spans,
    split_spans fuel n max_length overlap start = Some spans ->
    forall fuel', fuel <= fuel' ->
      split_spans fuel' n max_length overlap start = Some spans.
Proof.
  induction fuel as [|fuel IH]; intros start spans H fuel' Hle.
  - cbn in H. destruct fuel'; cbn; destruct (start <? n)%Z; congruence.
  - destruct fuel' as [|fuel']; [lia|]. cbn in H |- *.
    destruct (start <? n)%Z; [|assumption].
    destruct (split_spans fuel n max_length overlap (start + stride))
      as [rest|] eqn:E; [|discriminate].
    rewrite (IH _ _ E fuel') by lia. assumption.
Qed.

(** What the loop yields from [start] on. *)
Lemma split_spans_from fuel :
  forall start, (0 <= start)%Z -> (n - start <= Z.of_nat fuel)%Z ->
    exists spans,
      split_spans fuel n max_length overlap start = Some spans /\
      (forall k, k < List.length spans ->
         nth k (map fst spans) 0%Z = (start + Z.of_nat k * stride)%Z) /\
      (forall a b, In (a, b) spans ->
         (start <= a < b)%Z /\ b = Z.min (a + max_length + overlap) n) /\
      (forall i, (start <= i < n)%Z ->
         exists a b, In (a, b) spans /\ (a <= i < b)%Z) /\
      ((n <= start)%Z -> spans = []).
Proof.
  induction fuel as [|fuel IH]; intros start H0 Hfuel.
  - exists []. cbn. destruct (Z.ltb_spec start n); [lia|].
    repeat split; try (intros; cbn in *; lia); try contradiction.
  - cbn [split_spans]. destruct (Z.ltb_spec start n) as [Hlt|Hge].
    + destruct (IH (start + stride)%Z ltac:(lia) ltac:(lia))
        as (rest & Hrest & Hstarts & Hspans & Hcover & _).
      rewrite Hrest. cbn [option_map].
      set (stop := if (start + max_length + overlap <? n)%Z
                   then (start + max_length + overlap)%Z else n).
      assert (Hstop : stop = Z.min (start + max_length + overlap) n /\
                      (start < stop)%Z).
      { unfold stop. destruct (Z.ltb_spec (start + max_length + overlap) n); lia. }
      exists ((start, stop) :: rest).
      split; [unfold stop; destruct (_ <? _)%Z; reflexivity|].
      split; [|split; [|split]].
      * intros [|k] Hk; cbn [map nth fst]; [lia|].
        cbn [List.length] in Hk. rewrite Hstarts by lia. lia.
      * intros a b [[= <- <-]|Hin]; [lia|].
        destruct (Hspans a b Hin). lia.
      * intros i Hi. destruct (Z.lt_ge_cases i stop) as [Hin|Hout].
        -- exists start, stop. split; [now left | lia].
        -- destruct (Hcover i ltac:(lia)) as (a & b & Hin & Hab).
           exists a, b. split; [now right | assumption].
      * lia.
    + exists []. repeat split; try (intros; cbn in *; lia); try contradiction.
Qed.

End SplitFile.

(** C6: for [0 <= overlap < max_length] the loop of [split_file] ends on
    every content (any fuel from the length of the content on gives the same
    chunks); the chunks are the slices [content[a:b]] of spans whose starts are
    [0], [max_length - overlap], twice that, and so on, each span running to
    [a + max_length + overlap] or to the end of the content; every position
    of the content lies in a span; and empty content gives no chunk. *)
Theorem C6_split_file_total (content : string) (max_length overlap : Z) :
  (0 <= overlap < max_length)%Z ->
  exists spans,
    (forall fuel, String.length content <= fuel ->
       split_file fuel content max_length overlap
       = Some (map (fun span => Py.slice content (fst span) (snd span)) spans)) /\
    (forall k, k < List.length spans ->
       nth k (map fst spans) 0%Z = (Z.of_nat k * (max_length - overlap))%Z) /\
    (forall a b, In (a, b) spans ->
       (0 <= a < b)%Z /\ b = Z.min (a + max_length + overlap) (Py.len content)) /\
    (forall i, (0 <= i < Py.len content)%Z ->
       exists a b, In (a, b) spans /\ (a <= i < b)%Z) /\
    (content = "" -> spans = []).
Proof.
  intros Hov.
  destruct (split_spans_from (Py.len content) max_length overlap Hov
              (String.length content) 0%Z ltac:(lia) ltac:(unfold Py.len; lia))
    as (spans & Hrun & Hstarts & Hspans & Hcover & Hempty).
  exists spans. split; [|split; [|split; [|split]]].
  - intros fuel Hfuel. unfold split_file.
    now rewrite (split_spans_more_fuel _ _ _ _ _ _ Hrun fuel Hfuel).
  - intros k Hk. rewrite Hstarts by assumption. lia.
  - assumption.
  - assumption.
  - intros ->. apply Hempty. cbn. lia.
Qed.

Lemma C6_split_file_total_witness :
  exists spans,
    (forall fuel, 10 <= fuel ->
       split_file fuel "0123456789" 4 1
       = Some (map (fun span => Py.slice "0123456789" (fst span) (snd span))
                 spans)) /\
    (forall k, k < List.length spans ->
       nth k (map fst spans) 0%Z = (Z.of_nat k * (4 - 1))%Z) /\
    (forall a b, In (a, b) spans ->
       (0 <= a < b)%Z /\ b = Z.min (a + 4 + 1) (Py.len "0123456789")) /\
    (forall i, (0 <= i < Py.len "0123456789")%Z ->
       exists a b, In (a, b) spans /\ (a <= i < b)%Z) /\
    ("0123456789" = "" -> spans = []).
Proof.
  apply (C6_split_file_total "0123456789" 4 1). lia.
Defined.

(** ** Failures at the boundary (C10) *)

(** C10 fails on the code.  [read_file], [write_to_file], [append_to_file]
    and [delete_file] wrap their body in [try ... except Exception] and return
    a text that starts with [Error: ]: so does [read_file] on a path that
    leaves the working directory.  [search_files] calls [safe_join] outside
    any [try], and on such a directory it raises [ValueError] to its
    caller. *)
Theorem C10_search_files_raises (s : fs) :
  read_file Example.restricted Example.cwd ".." s
  = (inr ("Error: " ++ "Attempted to access outside of working directory."), s) /\
  search_files Example.restricted Example.cwd ".." s
  = (inl (ValueError "Attempted to access outside of working directory."), s).
Proof. split; reflexivity. Qed.

(** X4: [read_file], [write_to_file] and [delete_file] never raise, and
    neither does [append_to_file] once it has a frame: whatever happens
    inside, the caller gets a text back. *)
Theorem file_store_returns (CFG : Config) (cwd : string) (depth : nat)
  (filename text : string) (s : fs) :
  (exists msg, read_file CFG cwd filename s = (inr msg, s)) /\
  (exists msg s', write_to_file CFG cwd depth filename text s = (inr msg, s')) /\
  (exists msg s',
      append_to_file CFG cwd (S depth) filename text s = (inr msg, s')) /\
  (exists msg s', delete_file CFG cwd depth filename s = (inr msg, s')).
Proof.
  split; [rewrite read_file_eq; eauto|].
  split; [|split; [apply append_to_file_returns|]].
  - unfold write_to_file.
    rewrite (bind_run _ _ _ _ _ (check_duplicate_eq CFG cwd "write" filename s)).
    destruct (Py.contains _ _); [unfold ret; eauto | apply try_returns].
  - unfold delete_file.
    rewrite (bind_run _ _ _ _ _ (check_duplicate_eq CFG cwd "delete" filename s)).
    destruct (Py.contains _ _); [unfold ret; eauto | apply try_returns].
Qed.

(** ** Searching the working directory (C7) *)

Section NodeInduction.

Variable P : node -> Prop.
Hypothesis P_file : forall c, P (File c).
Hypothesis P_dir : forall es, Forall (fun e => P (snd e)) es -> P (Dir es).

(** Induction on a tree with the property at hand for every entry of a
    directory. *)
Lemma node_entries_ind : forall n, P n.
Proof.
  fix IH 1. intros [c|es]; [apply P_file|]. apply P_dir.
  induction es as [|[name m] es IHes]; constructor; [apply IH | apply IHes].
Qed.

End NodeInduction.

Section Search.

Variable base : list string.
Hypothesis base_valid : forallb valid_name base = true.

(** What [search_files] makes of one step of the walk, relative to
    [abs_path base]. *)
Local Abbreviation found_in := (fun step : string * (list string * list string) =>
  let root := fst step in
  let files := snd (snd step) in
  map (fun file =>
         posixpath.relpath (posixpath.join root [file]) (abs_path base))
    (filter (fun file => negb (Py.startswith file ".")) files)).

Lemma names_ok_entry es name m :
  names_ok (Dir es) = true -> In (name, m) es ->
  valid_name name = true /\ names_ok m = true.
Proof.
  cbn [names_ok]. rewrite forallb_forall. intros H Hin.
  apply H in Hin. now apply andb_true_iff in Hin.
Qed.

Lemma relpath_entry dirs name :
  forallb valid_name dirs = true -> valid_name name = true ->
  posixpath.relpath
    (posixpath.join (abs_path (base ++ dirs)) [name]) (abs_path base)
  = Py.join "/" (dirs ++ [name]).
Proof.
  intros Hd Hn.
  assert (Hbd : forallb valid_name (base ++ dirs) = true)
    by (rewrite forallb_app, base_valid, Hd; reflexivity).
  rewrite join_abs by assumption. rewrite <- app_assoc.
  apply relpath_below.
  - rewrite !forallb_app, base_valid, Hd. cbn. now rewrite Hn.
  - destruct dirs; discriminate.
Qed.

Lemma dirs_fit_entry len es name m :
  dirs_fit len (Dir es) = true -> In (name, m) es ->
  len < os.PATH_MAX /\ dirs_fit (len + S (Py.utf8_len name)) m = true.
Proof.
  cbn [dirs_fit]. intros H Hin. apply andb_true_iff in H as [Hl H].
  apply Nat.ltb_lt in Hl. split; [assumption|].
  rewrite forallb_forall in H. exact (H _ Hin).
Qed.

(** The walk, read by [search_files], lists the visible files. *)
Lemma walk_visible n :
  names_ok n = true ->
  forall dirs, forallb valid_name dirs = true ->
    dirs_fit (os.path_bytes (base ++ dirs)%list) n = true ->
    flat_map found_in (walk (abs_path (base ++ dirs)) n)
    = map (Py.join "/") (visible_files dirs n).
Proof.
  induction n as [c|es IH] using node_entries_ind; intros Hok dirs Hd Hfit;
    [reflexivity|].
  assert (Hbd : forallb valid_name (base ++ dirs) = true)
    by (rewrite forallb_app, base_valid, Hd; reflexivity).
  cbn [walk]. rewrite components_abs by assumption.
  replace (os.PATH_MAX <=? os.path_bytes (base ++ dirs)%list)%nat with false.
  2:{ symmetry. apply Nat.leb_gt. cbn [dirs_fit] in Hfit.
      apply andb_true_iff in Hfit as [Hl _]. now apply Nat.ltb_lt in Hl. }
  cbn [visible_files flat_map fst snd]. rewrite map_app. f_equal.
  - rewrite map_map. apply map_ext_in. intros file Hfile.
    apply filter_In in Hfile as [Hfile _].
    apply in_map_iff in Hfile as ([name m] & <- & Hin).
    apply filter_In in Hin as [Hin _].
    apply relpath_entry; [assumption|].
    now destruct (names_ok_entry _ _ _ Hok Hin).
  - assert (Hes : forall e, In e es ->
               valid_name (fst e) = true /\ names_ok (snd e) = true /\
               dirs_fit (os.path_bytes (base ++ dirs)%list
                         + S (Py.utf8_len (fst e))) (snd e) = true).
    { intros [name m] Hin. destruct (names_ok_entry _ _ _ Hok Hin).
      destruct (dirs_fit_entry _ _ _ _ Hfit Hin). auto. }
    clear Hok Hfit. induction es as [|[name m] es IHes]; [reflexivity|].
    cbn [flat_map]. rewrite flat_map_app, map_app.
    pose proof (Forall_inv IH) as IHm. cbn [snd] in IHm.
    destruct (Hes (name, m) (or_introl eq_refl)) as (Hname & Hm & Hfm).
    cbn [fst snd] in Hname, Hm, Hfm. f_equal.
    + destruct m as [c|es']; [reflexivity|].
      assert (Hjoin : posixpath.join (abs_path (base ++ dirs)) [name]
                      = abs_path (base ++ (dirs ++ [name]))).
      { rewrite join_abs, <- app_assoc; [reflexivity| |assumption].
        rewrite forallb_app, base_valid, Hd; reflexivity. }
      rewrite Hjoin. apply IHm; [assumption| |].
      * rewrite forallb_app, Hd. cbn. now rewrite Hname.
      * rewrite app_assoc, path_bytes_app. cbn [os.path_bytes].
        now rewrite Nat.add_0_r.
    + apply IHes; [exact (Forall_inv_tail IH)|].
      intros e He. apply Hes. now right.
Qed.

(** An absolute path of valid names has no NUL. *)
Lemma abs_path_no_nul cs :
  forallb valid_name cs = true -> Py.has_char Py.nul (abs_path cs) = false.
Proof.
  intros H. rewrite <- nul_components, components_abs by assumption.
  now apply storable_no_nul, valid_names_storable.
Qed.

Lemma os_walk_abs cs s :
  forallb valid_name cs = true ->
  os_walk (abs_path cs) s =
  (match fs_stat cs s with
   | inr n => inr (walk (abs_path cs) n)
   | inl _ => inr []
   end, s).
Proof.
  intros H. unfold os_walk.
  rewrite abs_path_no_nul, components_abs by assumption.
  destruct (fs_stat cs s); reflexivity.
Qed.

End Search.

(** Every visible file is named by valid names, the last of them its own
    name, which does not begin with a dot. *)
Lemma visible_files_names n :
  names_ok n = true ->
  forall dirs names, forallb valid_name dirs = true ->
    In names (visible_files dirs n) ->
    forallb valid_name names = true /\
    exists above file,
      names = (above ++ [file])%list /\ Py.startswith file "." = false.
Proof.
  induction n as [c|es IH] using node_entries_ind;
    intros Hok dirs names Hd Hin; [contradiction|].
  cbn [visible_files] in Hin. apply in_app_or in Hin as [Hin|Hin].
  - apply in_map_iff in Hin as (file & <- & Hfile).
    apply filter_In in Hfile as [Hfile Hdot].
    apply in_map_iff in Hfile as ([name m] & <- & Hin).
    apply filter_In in Hin as [Hin _].
    destruct (names_ok_entry _ _ _ Hok Hin) as [Hname _]. cbn [fst]. split.
    + rewrite forallb_app, Hd. cbn. now rewrite Hname.
    + exists dirs, name. split; [reflexivity|].
      now apply negb_true_iff in Hdot.
  - apply in_flat_map in Hin as ([name m] & Hin & Hnames).
    destruct (names_ok_entry _ _ _ Hok Hin) as [Hname Hm].
    rewrite Forall_forall in IH.
    apply (IH (name, m) Hin Hm (dirs ++ [name])%list names); [|assumption].
    rewrite forallb_app, Hd. cbn. now rewrite Hname.
Qed.

(** C7, as the code has it: [search_files("")] and [search_files("/")]
    return the same list, for every tree; on a working directory of valid
    names that list is the visible files of the working directory, each as
    the names from the working directory down to the file joined by slashes,
    and the last name, the file's own, never begins with a dot.  Names of
    directories on the way may begin with a dot. *)
Theorem C7_search_lists_visible_files (CFG : Config) (cwd : string) (s : fs) :
  canonical cwd = true ->
  workspace_names_ok cwd s = true ->
  search_files CFG cwd "" s = search_files CFG cwd "/" s /\
  search_files CFG cwd "" s
  = (inr (map (Py.join "/") (workspace_files cwd s)), s) /\
  forall names, In names (workspace_files cwd s) ->
    forallb valid_name names = true /\
    exists above file,
      names = (above ++ [file])%list /\ Py.startswith file "." = false.
Proof.
  intros Hcwd Hnames. split; [reflexivity|].
  destruct (working_directory_abs cwd Hcwd) as [HWD Hvalid].
  unfold workspace_files, workspace_names_ok, workspace_node in *.
  split.
  - unfold search_files, bind, ret. cbn [String.eqb orb].
    rewrite HWD in *. rewrite os_walk_abs by assumption.
    rewrite components_abs in * by assumption.
    destruct (fs_stat (posixpath.components cwd ++ ["auto_gpt_workspace"])%list s)
      as [e|n]; [reflexivity|].
    apply andb_true_iff in Hnames as [Hnames Hfit]. f_equal. f_equal.
    rewrite <- (app_nil_r (posixpath.components cwd ++ ["auto_gpt_workspace"]))
      at 1.
    apply (walk_visible _ Hvalid); [assumption|reflexivity|].
    now rewrite app_nil_r.
  - intros names Hin.
    destruct (fs_stat (posixpath.components (WORKING_DIRECTORY cwd)) s)
      as [e|n]; [contradiction|].
    apply andb_true_iff in Hnames as [Hnames _].
    exact (visible_files_names n Hnames [] names eq_refl Hin).
Qed.

Lemma C7_search_witness :
  search_files Example.restricted Example.cwd "" Example.with_hidden
  = (inr (map (Py.join "/")
            (workspace_files Example.cwd Example.with_hidden)),
     Example.with_hidden).
Proof.
  apply (C7_search_lists_visible_files Example.restricted Example.cwd
           Example.with_hidden); reflexivity.
Defined.

(** A file in a directory whose name begins with a dot is found: the first
    component of its path begins with a dot. *)
Lemma C7_counterexample :
  search_files Example.restricted Example.cwd "" Example.with_hidden
  = (inr ["notes.txt"; ".git/config"; "sub/b.txt"], Example.with_hidden) /\
  Py.split posixpath.sep ".git/config" = [".git"; "config"] /\
  Py.startswith ".git" "." = true.
Proof. repeat split; vm_compute; reflexivity. Qed.
(** ** More on chunks *)

Section SliceFacts.

Lemma length_substring (s : string) :
  forall a m, String.length (substring a m s) = Nat.min m (String.length s - a).
Proof.
  induction s as [|c s IH]; intros [|a] [|m]; cbn [substring String.length];
    try reflexivity.
  - now rewrite IH, Nat.sub_0_r.
  - rewrite IH. reflexivity.
  - rewrite IH. reflexivity.
Qed.

Lemma substring_adjacent (s : string) :
  forall a m1 m2,
    substring a m1 s ++ substring (a + m1) m2 s = substring a (m1 + m2) s.
Proof.
  induction s as [|c s IH]; intros [|a] [|m1] m2; cbn [Nat.add];
    try (destruct m2; reflexivity).
  - cbn [substring String.append]. f_equal. apply (IH 0).
  - cbn [substring]. apply (IH a 0 m2).
  - cbn [substring]. apply (IH a (S m1) m2).
Qed.

Lemma substring_none (s : string) : forall a, substring a 0 s = "".
Proof. induction s as [|c s IH]; intros [|a]; cbn; auto. Qed.

Lemma substring_whole (s : string) :
  forall m, String.length s <= m -> substring 0 m s = s.
Proof.
  induction s as [|c s IH]; intros [|m] H; try reflexivity.
  - cbn in H. lia.
  - cbn [substring]. f_equal. apply IH. cbn in H. lia.
Qed.

Lemma concat_empty_cons (x : string) (l : list string) :
  String.concat "" (x :: l) = x ++ String.concat "" l.
Proof. destruct l; cbn [String.concat]; [now rewrite str_app_nil | reflexivity]. Qed.

Lemma str_length_app (a b : string) :
  String.length (a ++ b) = String.length a + String.length b.
Proof. induction a as [|x a IH]; cbn; [reflexivity | now rewrite IH]. Qed.

(** [s[a:b]] for bounds that are not negative. *)
Lemma slice_eq (s : string) (a b : Z) :
  (0 <= a)%Z -> (0 <= b)%Z ->
  Py.slice s a b
  = substring (Z.to_nat (Z.min a (Py.len s)))
      (Z.to_nat (Z.min b (Py.len s)) - Z.to_nat (Z.min a (Py.len s))) s.
Proof.
  intros Ha Hb. unfold Py.slice, Py.clamp.
  destruct (Z.ltb_spec a 0); [lia|]. destruct (Z.ltb_spec b 0); [lia|].
  f_equal. lia.
Qed.

Lemma slice_adjacent (s : string) (a b c : Z) :
  (0 <= a <= b)%Z -> (b <= c)%Z ->
  Py.slice s a b ++ Py.slice s b c = Py.slice s a c.
Proof.
  intros Hab Hbc. rewrite !slice_eq by lia.
  set (n := Py.len s).
  replace (Z.to_nat (Z.min b n))
    with (Z.to_nat (Z.min a n)
          + (Z.to_nat (Z.min b n) - Z.to_nat (Z.min a n))) at 2 by lia.
  rewrite substring_adjacent. f_equal. lia.
Qed.

Lemma slice_whole (s : string) : Py.slice s 0 (Py.len s) = s.
Proof.
  rewrite slice_eq by (unfold Py.len; lia).
  unfold Py.len. replace (Z.to_nat (Z.min 0 _)) with 0 by lia.
  apply substring_whole. lia.
Qed.

Lemma slice_len (s : string) (a b : Z) :
  (0 <= a <= b)%Z -> (a <= Py.len s)%Z ->
  Py.len (Py.slice s a b) = (Z.min b (Py.len s) - a)%Z.
Proof.
  intros Hab Ha. rewrite slice_eq by lia. unfold Py.len in *.
  rewrite length_substring. lia.
Qed.

(** A bound past the end is the end. *)
Lemma slice_clamped (s : string) (a b : Z) :
  (0 <= a)%Z -> (0 <= b)%Z ->
  Py.slice s a (Z.min b (Py.len s)) = Py.slice s a b.
Proof.
  intros Ha Hb. rewrite !slice_eq by (unfold Py.len; lia). f_equal. lia.
Qed.

End SliceFacts.

Section Chunks.

Variables n max_length overlap : Z.

Local Abbreviation stride := (max_length - overlap)%Z.

(** The loop runs once for every multiple of the stride below the length. *)
Lemma split_spans_count fuel :
  (0 < stride)%Z ->
  forall start spans,
    split_spans fuel n max_length overlap start = Some spans ->
    Z.of_nat (List.length spans)
    = Z.max 0 ((n - start + stride - 1) / stride).
Proof.
  intros Hs. induction fuel as [|fuel IH]; intros start spans H;
    cbn [split_spans] in H; destruct (Z.ltb_spec start n) as [Hlt|Hge].
  - discriminate.
  - injection H as <-. cbn [List.length].
    assert ((n - start + stride - 1) / stride <= 0)%Z; [|lia].
    destruct (Z.eq_dec n start) as [->|Hne].
    + rewrite Z.div_small by lia. lia.
    + assert ((n - start + stride - 1) / stride < 1)%Z; [|lia].
      apply Z.div_lt_upper_bound; lia.
  - destruct (split_spans fuel n max_length overlap (start + stride))
      as [rest|] eqn:E; [|discriminate].
    injection H as <-. cbn [List.length]. rewrite Nat2Z.inj_succ, (IH _ _ E).
    replace (n - start + stride - 1)%Z with ((n - start - 1) + 1 * stride)%Z
      by lia.
    rewrite Z.div_add by lia.
    replace (n - (start + stride) + stride - 1)%Z with (n - start - 1)%Z by lia.
    assert (0 <= (n - start - 1) / stride)%Z by (apply Z.div_pos; lia).
    lia.
  - injection H as <-. cbn [List.length].
    assert ((n - start + stride - 1) / stride <= 0)%Z; [|lia].
    destruct (Z.eq_dec n start) as [->|Hne].
    + rewrite Z.div_small by lia. lia.
    + assert ((n - start + stride - 1) / stride < 1)%Z; [|lia].
      apply Z.div_lt_upper_bound; lia.
Qed.

(** With a stride that does not advance the loop never ends. *)
Lemma split_spans_diverges fuel :
  (stride <= 0)%Z ->
  forall start, (start < n)%Z ->
    split_spans fuel n max_length overlap start = None.
Proof.
  intros Hs. induction fuel as [|fuel IH]; intros start Hlt;
    cbn [split_spans]; destruct (Z.ltb_spec start n); try lia; [reflexivity|].
  rewrite IH by lia. reflexivity.
Qed.

End Chunks.

(** Without overlap the chunks are the content cut into pieces. *)
Lemma split_spans_pieces (content : string) (max_length : Z) fuel :
  (0 < max_length)%Z ->
  forall start, (0 <= start)%Z ->
    (Py.len content - start <= Z.of_nat fuel)%Z ->
    exists spans,
      split_spans fuel (Py.len content) max_length 0 start = Some spans /\
      String.concat ""
        (map (fun span => Py.slice content (fst span) (snd span)) spans)
      = Py.slice content start (Py.len content).
Proof.
  intros Hm. set (n := Py.len content).
  assert (Hn : (0 <= n)%Z) by (unfold n, Py.len; lia).
  induction fuel as [|fuel IH]; intros start H0 Hfuel; cbn [split_spans];
    destruct (Z.ltb_spec start n) as [Hlt|Hge]; try lia.
  - exists []. split; [reflexivity|]. cbn [map String.concat].
    rewrite slice_eq by lia. fold n.
    replace (Z.to_nat (Z.min n n) - Z.to_nat (Z.min start n)) with 0 by lia.
    now rewrite substring_none.
  - destruct (IH (start + (max_length - 0))%Z ltac:(lia) ltac:(lia))
      as (rest & Hrest & Hcat).
    rewrite Hrest. cbn [option_map]. eexists. split; [reflexivity|].
    cbn [map]. rewrite concat_empty_cons, Hcat. cbn [fst snd].
    destruct (Z.ltb_spec (start + max_length + 0) n).
    + replace (start + (max_length - 0))%Z with (start + max_length + 0)%Z by lia.
      apply slice_adjacent; lia.
    + rewrite (slice_eq content (start + (max_length - 0)) n) by lia. fold n.
      replace (Z.to_nat (Z.min n n)
               - Z.to_nat (Z.min (start + (max_length - 0)) n)) with 0 by lia.
      rewrite substring_none. apply str_app_nil.
  - exists []. split; [reflexivity|]. cbn [map String.concat].
    rewrite slice_eq by lia. fold n.
    replace (Z.to_nat (Z.min n n) - Z.to_nat (Z.min start n)) with 0 by lia.
    now rewrite substring_none.
Qed.

(** The chunks and their number. *)
Lemma split_file_chunks (content : string) (max_length overlap : Z) :
  (0 <= overlap < max_length)%Z ->
  exists chunks,
    (forall fuel, String.length content <= fuel ->
       split_file fuel content max_length overlap = Some chunks) /\
    Z.of_nat (List.length chunks)
    = ((Py.len content + (max_length - overlap) - 1)
       / (max_length - overlap))%Z /\
    forall k, k < List.length chunks ->
      nth k chunks ""
      = Py.slice content (Z.of_nat k * (max_length - overlap))
          (Z.of_nat k * (max_length - overlap) + max_length + overlap).
Proof.
  intros Hov. set (n := Py.len content).
  assert (Hn : (0 <= n)%Z) by (unfold n, Py.len; lia).
  destruct (split_spans_from n max_length overlap Hov
              (String.length content) 0%Z ltac:(lia) ltac:(unfold n, Py.len; lia))
    as (spans & Hrun & Hstarts & Hspans & _ & _).
  exists (map (fun span => Py.slice content (fst span) (snd span)) spans).
  split; [|split].
  - intros fuel Hfuel. unfold split_file. fold n.
    now rewrite (split_spans_more_fuel _ _ _ _ _ _ Hrun fuel Hfuel).
  - rewrite length_map.
    rewrite (split_spans_count n max_length overlap _ ltac:(lia) _ _ Hrun).
    rewrite Z.sub_0_r.
    assert (0 <= (n + (max_length - overlap) - 1) / (max_length - overlap))%Z
      by (apply Z.div_pos; lia).
    lia.
  - rewrite length_map. intros k Hk.
    set (f := fun span : Z * Z => Py.slice content (fst span) (snd span)).
    rewrite (nth_indep _ "" (f (0, 0)%Z)) by now rewrite length_map.
    rewrite map_nth.
    destruct (nth k spans (0, 0)%Z) as [a b] eqn:E.
    assert (Ha : a = (Z.of_nat k * (max_length - overlap))%Z).
    { pose proof (Hstarts k Hk) as Hs. rewrite Z.add_0_l in Hs.
      rewrite <- Hs.
      rewrite (nth_indep _ 0%Z (fst (0, 0)%Z)) by now rewrite length_map.
      now rewrite map_nth, E. }
    destruct (Hspans a b) as [Hab Hb]; [rewrite <- E; now apply nth_In|].
    unfold f. cbn [fst snd]. rewrite Hb. fold n. rewrite <- Ha.
    apply slice_clamped; lia.
Qed.

(** X5: for [0 <= overlap < max_length], [split_file] yields one chunk for
    every multiple of [max_length - overlap] below the length of the content,
    that is the length divided by the stride, rounded up; chunk [k] is
    [content[k * stride : k * stride + max_length + overlap]] and has
    [max_length + overlap] characters, or what is left of the content from
    its start when that is less. *)
Theorem split_file_chunk_count (content : string) (max_length overlap : Z) :
  (0 <= overlap < max_length)%Z ->
  exists chunks,
    (forall fuel, String.length content <= fuel ->
       split_file fuel content max_length overlap = Some chunks) /\
    Z.of_nat (List.length chunks)
    = ((Py.len content + (max_length - overlap) - 1)
       / (max_length - overlap))%Z /\
    forall k, k < List.length chunks ->
      nth k chunks ""
      = Py.slice content (Z.of_nat k * (max_length - overlap))
          (Z.of_nat k * (max_length - overlap) + max_length + overlap) /\
      Py.len (nth k chunks "")
      = Z.min (max_length + overlap)
          (Py.len content - Z.of_nat k * (max_length - overlap)).
Proof.
  intros Hov.
  destruct (split_file_chunks content max_length overlap Hov)
    as (chunks & Hrun & Hcount & Hnth).
  exists chunks. split; [assumption|]. split; [assumption|].
  intros k Hk. rewrite (Hnth k Hk). split; [reflexivity|].
  set (stride := (max_length - overlap)%Z) in *.
  assert (Hstart : (0 <= Z.of_nat k * stride < Py.len content)%Z).
  { assert (Hlast : (Z.of_nat k + 1 <= (Py.len content + stride - 1) / stride)%Z)
      by lia.
    pose proof (Z.mul_div_le (Py.len content + stride - 1) stride
                  ltac:(unfold stride; lia)) as Hdiv.
    unfold stride in *. nia. }
  rewrite slice_len by lia. lia.
Qed.

Lemma split_file_chunk_count_witness :
  exists chunks,
    (forall fuel, 10 <= fuel -> split_file fuel "0123456789" 4 1 = Some chunks) /\
    Z.of_nat (List.length chunks) = ((10 + (4 - 1) - 1) / (4 - 1))%Z /\
    forall k, k < List.length chunks ->
      nth k chunks ""
      = Py.slice "0123456789" (Z.of_nat k * (4 - 1))
          (Z.of_nat k * (4 - 1) + 4 + 1) /\
      Py.len (nth k chunks "")
      = Z.min (4 + 1) (10 - Z.of_nat k * (4 - 1)).
Proof.
  apply (split_file_chunk_count "0123456789" 4 1). lia.
Defined.

(** X6: without overlap the chunks are the content cut into pieces: joined
    in order they give the content back, and every chunk has at least one
    character and at most [max_length]. *)
Theorem split_file_without_overlap (content : string) (max_length : Z) :
  (0 < max_length)%Z ->
  exists chunks,
    (forall fuel, String.length content <= fuel ->
       split_file fuel content max_length 0 = Some chunks) /\
    String.concat "" chunks = content /\
    forall chunk, In chunk chunks -> (0 < Py.len chunk <= max_length)%Z.
Proof.
  intros Hm. set (n := Py.len content).
  assert (Hn : (0 <= n)%Z) by (unfold n, Py.len; lia).
  assert (Hov : (0 <= 0 < max_length)%Z) by lia.
  destruct (split_spans_pieces content max_length (String.length content) Hm
              0%Z ltac:(lia) ltac:(unfold Py.len; lia))
    as (spans & Hrun & Hcat).
  destruct (split_spans_from n max_length 0 Hov
              (String.length content) 0%Z ltac:(lia) ltac:(unfold n, Py.len; lia))
    as (spans' & Hrun' & _ & Hspans & _ & _).
  fold n in Hrun. assert (spans' = spans) as -> by congruence.
  exists (map (fun span => Py.slice content (fst span) (snd span)) spans).
  split; [|split].
  - intros fuel Hfuel. unfold split_file. fold n.
    now rewrite (split_spans_more_fuel _ _ _ _ _ _ Hrun fuel Hfuel).
  - rewrite Hcat. apply slice_whole.
  - intros chunk Hin. apply in_map_iff in Hin as ([a b] & <- & Hin).
    destruct (Hspans a b Hin) as [Hab Hb]. cbn [fst snd].
    rewrite slice_len by (fold n; lia). fold n. lia.
Qed.

Lemma split_file_without_overlap_witness :
  exists chunks,
    (forall fuel, 10 <= fuel -> split_file fuel "0123456789" 4 0 = Some chunks) /\
    String.concat "" chunks = "0123456789" /\
    forall chunk, In chunk chunks -> (0 < Py.len chunk <= 4)%Z.
Proof.
  apply (split_file_without_overlap "0123456789" 4). lia.
Defined.

(** X7: when [overlap] is not less than [max_length] the start never moves
    forward, and on content that is not empty the loop of [split_file] never
    ends: no number of iterations gives the list of chunks. *)
Theorem split_file_never_ends (content : string) (max_length overlap : Z) :
  content <> "" -> (max_length <= overlap)%Z ->
  forall fuel, split_file fuel content max_length overlap = None.
Proof.
  intros Hc Hov fuel. unfold split_file.
  rewrite split_spans_diverges; [reflexivity | lia |].
  destruct content; [contradiction | unfold Py.len; cbn; lia].
Qed.

Lemma split_file_never_ends_witness :
  split_file 1000 "0123456789" 4 4 = None /\
  split_file 1000 "0123456789" 200 4000 = None.
Proof.
  split.
  - apply (split_file_never_ends "0123456789" 4 4); [discriminate | lia].
  - apply (split_file_never_ends "0123456789" 200 4000); [discriminate | lia].
Defined.

(** ** More on the directory tree *)

Section TreeErrors.




(** Where nothing stood, nothing stands after an entry elsewhere is made,
    rewritten or removed. *)
Lemma update_absent_stays f p :
  (forall o m, f o = inr (Some m) -> m = Dir [] \/ exists t, m = File t) ->
  forall q n n' e, os.update p f n = inr n' ->
    os.stat q n = inl e -> q <> p -> exists e', os.stat q n' = inl e'.
Proof.
  intros Hf. induction p as [|c0 p IH]; intros q n n' e H Hq Hne.
  - destruct n; discriminate.
  - destruct n as [|es]; [discriminate|].
    destruct q as [|c1 q]; [discriminate|].
    rewrite stat_cons in Hq. destruct p as [|c' p].
    + cbn in H. destruct (f (os.assoc c0 es)) as [e0|o] eqn:Ef; [discriminate|].
      injection H as <-. rewrite stat_cons.
      destruct (string_dec c0 c1) as [->|Hc].
      * rewrite assoc_set_same. destruct o as [m|]; [|eauto].
        destruct q as [|c2 q]; [congruence|].
        destruct (Hf _ _ Ef) as [->|[t ->]]; cbn; eauto.
      * rewrite assoc_set_other by assumption. eauto.
    + rewrite update_deep in H.
      destruct (os.assoc c0 es) as [m|] eqn:Ea; [|discriminate].
      destruct (os.update (c' :: p) f m) as [e0|m'] eqn:Eu; [discriminate|].
      injection H as <-. rewrite stat_cons.
      destruct (string_dec c0 c1) as [->|Hc].
      * rewrite assoc_set_same. rewrite Ea in Hq.
        apply (IH q m m' e Eu Hq). congruence.
      * rewrite assoc_set_other by assumption. eauto.
Qed.






Lemma fs_update_absent_stays f p q s s' e :
  (forall o m, f o = inr (Some m) -> m = Dir [] \/ exists t, m = File t) ->
  fs_update p f s = inr s' -> fs_stat q s = inl e -> q <> p ->
  exists e', fs_stat q s' = inl e'.
Proof.
  intros Hf Hu Hq Hne. apply fs_update_inr in Hu as [_ Hu].
  destruct (fs_stat q s') as [e'|m] eqn:E; [eauto|].
  apply fs_stat_inr in E as [Ha E].
  rewrite fs_stat_accepted in Hq by assumption.
  destruct (update_absent_stays f p Hf q _ _ e Hu Hq Hne) as [e' He'].
  congruence.
Qed.

Lemma leaves_write text o m :
  os.on_write text o = inr (Some m) -> m = Dir [] \/ exists t, m = File t.
Proof. destruct o as [[|]|]; cbn; intros [= <-]; eauto. Qed.

Lemma leaves_append text o m :
  os.on_append text o = inr (Some m) -> m = Dir [] \/ exists t, m = File t.
Proof. destruct o as [[|]|]; cbn; intros [= <-]; eauto. Qed.

End TreeErrors.

(** ** What the recursion of the log keeps, in general *)

Section LogInvariant.

Variable CFG : Config.
Variable cwd : string.

Local Abbreviation WD := (WORKING_DIRECTORY cwd).
Local Abbreviation comps := posixpath.components.

(** A property of the tree that writing the header where nothing stands
    and appending to the paths [ok] allows both keep. *)
Variable Inv : fs -> Prop.
Variable ok : path -> Prop.

Hypothesis Inv_header :
  forall text s s' e,
    fs_stat (comps (LOG_FILE_PATH cwd)) s = inl e ->
    fs_update (comps (LOG_FILE_PATH cwd)) (os.on_write text) s = inr s' ->
    Inv s -> Inv s'.

Hypothesis Inv_append :
  forall p text s s',
    ok p -> fs_update p (os.on_append text) s = inr s' -> Inv s -> Inv s'.

Hypothesis ok_log : forall lp, log_path CFG cwd = inr lp -> ok (comps lp).

Lemma log_recursion_keeps depth :
  (forall operation filename s r s',
      log_operation CFG cwd depth operation filename s = (r, s') ->
      Inv s -> Inv s') /\
  (forall filename text s r s',
      (forall p, safe_join CFG WD [filename] = inr p -> ok (comps p)) ->
      append_to_file CFG cwd depth filename text s = (r, s') ->
      Inv s -> Inv s').
Proof.
  induction depth as [|d [IHlog IHapp]]; split.
  - intros operation filename s r s' H Hs. cbn in H. run_done H. assumption.
  - intros filename text s r s' _ H Hs. cbn in H. run_done H. assumption.
  - intros operation filename s r s' H Hs. rewrite log_operation_S in H.
    apply bind_inv in H as [(ex & s1 & Hex & H) | (e & Hex & _)];
      apply path_exists_run in Hex as (-> & Hex); [|assumption].
    apply bind_inv in H as [([] & s2 & Hhead & H) | (e & Hhead & _)].
    + assert (Hs2 : Inv s2).
      { destruct ex; cbn [negb] in Hhead.
        - run_done Hhead. assumption.
        - destruct Hex as [[? _]|[_ [e He]]]; [discriminate|].
          apply sys_update_run in Hhead as [[_ Hu]|[-> _]]; [|assumption].
          eapply Inv_header; eauto. }
      apply bind_inv in H as [(msg & s3 & Happ & H) | (e & Happ & _)].
      * run_done H. eapply IHapp; eauto.
      * eapply IHapp; eauto.
    + destruct ex; cbn [negb] in Hhead.
      * run_done Hhead.
      * apply sys_update_run in Hhead as [[? _]|[-> _]];
          [discriminate | assumption].
  - intros filename text s r s' Hok H Hs. rewrite append_to_file_S in H.
    assert (Hbody : forall r0 s0,
               (filepath <- lift (safe_join CFG WD [filename]) ;;
                open_append filepath text ;;;
                log_operation CFG cwd d "append" filename ;;;
                ret "Text appended successfully.") s = (r0, s0) ->
               Inv s0).
    { intros r0 s0 Hb.
      apply bind_inv in Hb as [(p & s1 & Hp & Hb) | (e & Hp & _)];
        apply lift_inv in Hp as [Hp ->]; [|assumption].
      apply bind_inv in Hb as [([] & s2 & Hopen & Hb) | (e & Hopen & _)].
      - apply sys_update_run in Hopen as [[_ Hu]|[_ (e & ? & _)]];
          [|discriminate].
        assert (Hs2 : Inv s2) by (eapply Inv_append; eauto).
        apply bind_inv in Hb as [([] & s3 & Hlog & Hb) | (e & Hlog & _)].
        + run_done Hb. eapply IHlog; eauto.
        + eapply IHlog; eauto.
      - apply sys_update_run in Hopen as [[? _]|[-> _]];
          [discriminate | assumption]. }
    apply try_inv in H as [(msg & H & _) | (e & s1 & H & Hh)].
    + eapply Hbody; eauto.
    + run_done Hh. eapply Hbody; eauto.
Qed.

End LogInvariant.

(** ** What every call of the file store keeps *)

Section StoreInvariant.

Variable CFG : Config.
Variable cwd : string.

Local Abbreviation WD := (WORKING_DIRECTORY cwd).
Local Abbreviation comps := posixpath.components.

(** A property of the tree kept when an entry is made where nothing stood,
    and when an entry at a path [ok] allows is rewritten or removed. *)
Variable Inv : fs -> Prop.
Variable ok : path -> Prop.

Hypothesis Inv_create :
  forall f p s s' e,
    keeps_dirs f -> fs_stat p s = inl e -> fs_update p f s = inr s' ->
    Inv s -> Inv s'.

Hypothesis Inv_update :
  forall f p s s',
    keeps_dirs f -> ok p -> fs_update p f s = inr s' -> Inv s -> Inv s'.

Hypothesis ok_log : forall lp, log_path CFG cwd = inr lp -> ok (comps lp).

Lemma mkdir_keeps filename s r s' :
  os_mkdir filename s = (r, s') -> Inv s -> Inv s'.
Proof.
  intros H Hs. apply sys_update_run in H as [[_ Hu]|[-> _]]; [|assumption].
  destruct (fs_update_found _ _ _ _ Hu) as (o & Hf & _).
  destruct (fs_stat (comps filename) s) as [e|n] eqn:E.
  - eapply Inv_create; eauto using keeps_dirs_mkdir.
  - rewrite (stat_found _ _ _ E) in Hf. discriminate.
Qed.

Lemma makedirs_keeps k p :
  forall s r s', makedirs_upto k p s = (r, s') -> Inv s -> Inv s'.
Proof.
  induction k as [|k IH]; intros s r s' H Hs; cbn [makedirs_upto] in H.
  - run_done H. assumption.
  - apply bind_inv in H as [(ex & s1 & Hex & H) | (e & Hex & _)];
      apply path_exists_run in Hex as (-> & _); [|assumption].
    assert (Hstep : forall r1 s2,
               (if negb ex
                then try_except (makedirs_upto k p)
                       (fun e => match e with
                                 | OSError EEXIST _ => ret tt
                                 | _ => raise e
                                 end)
                else ret tt) s = (r1, s2) -> Inv s2).
    { intros r1 s2 Hr. destruct ex; cbn [negb] in Hr.
      - run_done Hr. assumption.
      - apply try_inv in Hr as [(a & Hr & _) | (e & s3 & Hr & Hh)].
        + eapply IH; eauto.
        + assert (s2 = s3) as ->.
          { destruct e as [|[] ?|]; run_done Hh; reflexivity. }
          eapply IH; eauto. }
    apply bind_inv in H as [([] & s2 & Hpre & H) | (e & Hpre & _)].
    + eapply mkdir_keeps; eauto.
    + eapply Hstep; eauto.
Qed.

Lemma log_and_append_keep depth :
  (forall operation filename s r s',
      log_operation CFG cwd depth operation filename s = (r, s') ->
      Inv s -> Inv s') /\
  (forall filename text s r s',
      (forall p, safe_join CFG WD [filename] = inr p -> ok (comps p)) ->
      append_to_file CFG cwd depth filename text s = (r, s') ->
      Inv s -> Inv s').
Proof.
  apply (log_recursion_keeps CFG cwd Inv ok).
  - intros text s s' e He Hu. eapply Inv_create; eauto using keeps_dirs_write.
  - intros p text s s' Hp Hu. eapply Inv_update; eauto using keeps_dirs_append.
  - exact ok_log.
Qed.

Lemma write_keeps depth filename text s r s' :
  (forall p, safe_join CFG WD [filename] = inr p -> ok (comps p)) ->
  write_to_file CFG cwd depth filename text s = (r, s') -> Inv s -> Inv s'.
Proof.
  intros Hok H Hs. destruct (log_and_append_keep depth) as [Hlog _].
  unfold write_to_file in H.
  apply bind_inv in H as [(dup & s0 & Hdup & H) | (e & Hdup & _)];
    rewrite check_duplicate_eq in Hdup; injection Hdup as _ <-;
    [|assumption].
  destruct dup; [run_done H; assumption|].
  assert (Hbody : forall r0 s0,
             (filepath <- lift (safe_join CFG WD [filename]) ;;
              let directory := posixpath.dirname filepath in
              ex <- path_exists directory ;;
              (if negb ex then os_makedirs directory else ret tt) ;;;
              open_write filepath text ;;;
              log_operation CFG cwd depth "write" filename ;;;
              ret "File written to successfully.") s = (r0, s0) ->
             Inv s0).
  { intros r0 s0 Hb.
    apply bind_inv in Hb as [(p & s1 & Hp & Hb) | (e & Hp & _)];
      apply lift_inv in Hp as [Hp ->]; [|assumption].
    cbv zeta in Hb.
    apply bind_inv in Hb as [(ex & s1 & Hex & Hb) | (e & Hex & _)];
      apply path_exists_run in Hex as (-> & _); [|assumption].
    assert (Hdir : forall r1 s2,
               (if negb ex then os_makedirs (posixpath.dirname p)
                else ret tt) s = (r1, s2) -> Inv s2).
    { intros r1 s2 Hr. destruct ex; cbn [negb] in Hr.
      - run_done Hr. assumption.
      - unfold os_makedirs in Hr. eapply makedirs_keeps; eauto. }
    apply bind_inv in Hb as [([] & s2 & Hmk & Hb) | (e & Hmk & _)];
      [|eapply Hdir; eauto].
    apply Hdir in Hmk.
    apply bind_inv in Hb as [([] & s3 & Hopen & Hb) | (e & Hopen & _)].
    - apply sys_update_run in Hopen as [[_ Hu]|[_ (e & ? & _)]];
        [|discriminate].
      assert (Hs3 : Inv s3)
        by (eapply Inv_update; eauto using keeps_dirs_write).
      apply bind_inv in Hb as [([] & s4 & Hl & Hb) | (e & Hl & _)].
      + run_done Hb. eapply Hlog; eauto.
      + eapply Hlog; eauto.
    - apply sys_update_run in Hopen as [[? _]|[-> _]];
        [discriminate | assumption]. }
  apply try_inv in H as [(msg & H & _) | (e & s1 & H & Hh)].
  + eapply Hbody; eauto.
  + run_done Hh. eapply Hbody; eauto.
Qed.

Lemma delete_keeps depth filename s r s' :
  (forall p, safe_join CFG WD [filename] = inr p -> ok (comps p)) ->
  delete_file CFG cwd depth filename s = (r, s') -> Inv s -> Inv s'.
Proof.
  intros Hok H Hs. destruct (log_and_append_keep depth) as [Hlog _].
  unfold delete_file in H.
  apply bind_inv in H as [(dup & s0 & Hdup & H) | (e & Hdup & _)];
    rewrite check_duplicate_eq in Hdup; injection Hdup as _ <-;
    [|assumption].
  destruct dup; [run_done H; assumption|].
  assert (Hbody : forall r0 s0,
             (filepath <- lift (safe_join CFG WD [filename]) ;;
              os_remove filepath ;;;
              log_operation CFG cwd depth "delete" filename ;;;
              ret "File deleted successfully.") s = (r0, s0) ->
             Inv s0).
  { intros r0 s0 Hb.
    apply bind_inv in Hb as [(p & s1 & Hp & Hb) | (e & Hp & _)];
      apply lift_inv in Hp as [Hp ->]; [|assumption].
    apply bind_inv in Hb as [([] & s3 & Hrm & Hb) | (e & Hrm & _)].
    - apply sys_update_run in Hrm as [[_ Hu]|[_ (e & ? & _)]];
        [|discriminate].
      assert (Hs3 : Inv s3)
        by (eapply Inv_update; eauto using keeps_dirs_remove).
      apply bind_inv in Hb as [([] & s4 & Hl & Hb) | (e & Hl & _)].
      + run_done Hb. eapply Hlog; eauto.
      + eapply Hlog; eauto.
    - apply sys_update_run in Hrm as [[? _]|[-> _]];
        [discriminate | assumption]. }
  apply try_inv in H as [(msg & H & _) | (e & s1 & H & Hh)].
  + eapply Hbody; eauto.
  + run_done Hh. eapply Hbody; eauto.
Qed.

(** Every call of the file store keeps the property when the path it is
    aimed at is one [ok] allows. *)
Lemma exec_keeps depth c s :
  match c with
  | Write filename _ | Append filename _ | Delete filename =>
      forall p, safe_join CFG WD [filename] = inr p -> ok (comps p)
  | _ => True
  end ->
  Inv s -> Inv (exec CFG cwd depth c s).
Proof.
  destruct c as [f|f t|f t|f|dir]; cbn [exec]; intros Hc Hs.
  - now rewrite read_file_eq.
  - destruct (write_to_file CFG cwd depth f t s) as [r s'] eqn:E.
    eapply write_keeps; eauto.
  - destruct (append_to_file CFG cwd depth f t s) as [r s'] eqn:E.
    destruct (log_and_append_keep depth) as [_ Happ]. eapply Happ; eauto.
  - destruct (delete_file CFG cwd depth f s) as [r s'] eqn:E.
    eapply delete_keeps; eauto.
  - now rewrite search_files_state.
Qed.

End StoreInvariant.

(** ** Appending, deleting, and what the calls leave alone *)

Section StoreFacts.

Variable CFG : Config.
Variable cwd : string.

Local Abbreviation WD := (WORKING_DIRECTORY cwd).
Local Abbreviation comps := posixpath.components.

(** What a successful [append_to_file] has done. *)
Lemma append_success depth filename text s s1 :
  append_to_file CFG cwd depth filename text s
    = (inr "Text appended successfully.", s1) ->
  exists d p s_a,
    depth = S d /\
    safe_join CFG WD [filename] = inr p /\
    fs_update (comps p) (os.on_append text) s = inr s_a /\
    log_operation CFG cwd d "append" filename s_a = (inr tt, s1).
Proof.
  destruct depth as [|d]; intros H; [cbn in H; run_done H|].
  rewrite append_to_file_S in H.
  apply try_inv in H as [(msg & H & _) | (e & s2 & _ & Hh)];
    [|run_done Hh].
  apply bind_inv in H as [(p & s2 & Hp & H) | (e & _ & ?)]; [|discriminate].
  apply lift_inv in Hp as [Hp ->].
  apply bind_inv in H as [([] & s_a & Hopen & H) | (e & _ & ?)];
    [|discriminate].
  apply bind_inv in H as [([] & s4 & Hlog & H) | (e & _ & ?)];
    [|discriminate].
  run_done H.
  apply sys_update_run in Hopen as [[_ Hu]|[_ (e & ? & _)]]; [|discriminate].
  exists d, p, s_a. auto.
Qed.

(** What an append leaves at its path. *)
Lemma fs_append_cases text p s s' :
  fs_update p (os.on_append text) s = inr s' ->
  exists old,
    fs_stat p s' = inr (File (old ++ text)) /\
    (fs_stat p s = inr (File old) \/
     old = "" /\ exists e, fs_stat p s = inl e).
Proof.
  intros H. destruct (fs_update_found _ _ _ _ H) as (o & Hf & Hs).
  apply fs_update_inr in H as [Ha _]. rewrite !fs_stat_accepted by assumption.
  unfold found in *.
  destruct (os.stat p (Dir s)) as [e|[c0|es]] eqn:E; cbn in Hf.
  - injection Hf as <-. exists "".
    destruct (os.stat p (Dir s')) as [|n]; [discriminate|].
    injection Hs as ->. split; [reflexivity | right; eauto].
  - injection Hf as <-. exists c0.
    destruct (os.stat p (Dir s')) as [|n]; [discriminate|].
    injection Hs as ->. split; [reflexivity | now left].
  - discriminate.
Qed.

End StoreFacts.







(** X12: a call of the file store changes no regular file but the one it is
    aimed at and the log: a regular file at any other path holds the same
    content after the call, whatever the call returned. *)
Theorem file_store_frame (CFG : Config) (cwd : string) (depth : nat)
  (c : command) (s : fs) (q : path) (content : string) :
  fs_stat q s = inr (File content) ->
  (forall lp, log_path CFG cwd = inr lp -> q <> posixpath.components lp) ->
  match c with
  | Write filename _ | Append filename _ | Delete filename =>
      forall p, safe_join CFG (WORKING_DIRECTORY cwd) [filename] = inr p ->
                q <> posixpath.components p
  | _ => True
  end ->
  fs_stat q (exec CFG cwd depth c s) = inr (File content).
Proof.
  intros Hq Hlog Hc.
  apply (exec_keeps CFG cwd (fun s' => fs_stat q s' = inr (File content))
           (fun p => q <> p)); try assumption.
  - intros f p s0 s' e Hf He Hu Hs. eapply fs_update_frame; eauto.
    intros ->. congruence.
  - intros f p s0 s' Hf Hp Hu Hs. eapply fs_update_frame; eauto.
Qed.

Lemma file_store_frame_witness :
  fs_stat ["home"; "agent"; "auto_gpt_workspace"; "notes"; "a.txt"]
    (exec Example.restricted Example.cwd 4 (Write "notes/b.txt" "other")
       Example.written)
  = inr (File "hello").
Proof.
  apply (file_store_frame Example.restricted Example.cwd 4
           (Write "notes/b.txt" "other") Example.written
           ["home"; "agent"; "auto_gpt_workspace"; "notes"; "a.txt"] "hello").
  - vm_compute; reflexivity.
  - intros lp [= <-]. vm_compute. discriminate.
  - intros p [= <-]. vm_compute. discriminate.
Defined.

(** X13: no call of the file store removes a directory or puts a file in its
    place: a directory of the tree is still a directory after any sequence
    of [read_file], [write_to_file], [append_to_file], [delete_file] and
    [search_files] calls. *)
Theorem directories_are_kept (CFG : Config) (cwd : string)
  (cs : list (nat * command)) (s : fs) (q : path) (es : list (string * node)) :
  fs_stat q s = inr (Dir es) ->
  exists es', fs_stat q (exec_all CFG cwd cs s) = inr (Dir es').
Proof.
  revert s es. induction cs as [|[d c] cs IH]; intros s es Hq; [cbn; eauto|].
  cbn [exec_all fold_left fst snd].
  assert (Hstep : exists es', fs_stat q (exec CFG cwd d c s) = inr (Dir es')).
  { apply (exec_keeps CFG cwd (fun s' => exists es', fs_stat q s' = inr (Dir es'))
             (fun _ => True)).
    - intros f p s0 s' e Hf He Hu [es0 Hs]. eapply fs_update_keeps_dir; eauto.
    - intros f p s0 s' Hf _ Hu [es0 Hs]. eapply fs_update_keeps_dir; eauto.
    - trivial.
    - destruct c; trivial.
    - eauto. }
  destruct Hstep as [es' Hes']. exact (IH _ _ Hes').
Qed.

Lemma directories_are_kept_witness :
  exists es',
    fs_stat ["home"; "agent"; "auto_gpt_workspace"; "notes"]
      (exec_all Example.restricted Example.cwd
         [(4, Delete "notes/a.txt"); (4, Delete "notes");
          (4, Write "notes" "text"); (4, Append "notes" "more")]
         Example.written)
    = inr (Dir es').
Proof.
  apply (directories_are_kept Example.restricted Example.cwd
           [(4, Delete "notes/a.txt"); (4, Delete "notes");
            (4, Write "notes" "text"); (4, Append "notes" "more")]
           Example.written
           ["home"; "agent"; "auto_gpt_workspace"; "notes"]
           [("a.txt", File "hello")]).
  vm_compute; reflexivity.
Defined.

(** X14: with the restriction off the log is kept at the root of the file
    system: [check_duplicate_operation] reads [/file_logger.txt] and
    [log_operation] appends its entries there.  The header goes to
    [LOG_FILE_PATH] in the working directory when nothing stands there, and
    that file never gets an entry: [log_operation] leaves it as it is. *)
Theorem unrestricted_log_is_at_the_root (CFG : Config) (cwd : string) :
  Py.lower (working_directory_restricted CFG) <> "true" ->
  canonical cwd = true ->
  log_path CFG cwd = inr "/file_logger.txt" /\
  (forall depth operation filename s s' c,
      log_operation CFG cwd depth operation filename s = (inr tt, s') ->
      fs_stat ["file_logger.txt"] s' = inr (File c) ->
      Py.contains c (log_entry operation filename) = true) /\
  (forall depth operation filename s r s' c,
      log_operation CFG cwd depth operation filename s = (r, s') ->
      fs_stat (posixpath.components (LOG_FILE_PATH cwd)) s = inr (File c) ->
      fs_stat (posixpath.components (LOG_FILE_PATH cwd)) s' = inr (File c)) /\
  (forall depth operation filename s r s' es,
      fs_stat (posixpath.components (WORKING_DIRECTORY cwd)) s = inr (Dir es) ->
      os.assoc LOG_FILE es = None ->
      log_operation CFG cwd (S depth) operation filename s = (r, s') ->
      fs_stat (posixpath.components (LOG_FILE_PATH cwd)) s'
      = inr (File "File Operation Logger ")).
Proof.
  intros Hr Hcwd.
  assert (Hlp : log_path CFG cwd = inr "/file_logger.txt")
    by (unfold log_path; now rewrite safe_join_unrestricted).
  destruct (working_directory_abs cwd Hcwd) as [HWD Hwv].
  destruct (log_file_path_accepts cwd Hcwd) as [HLa HWa].
  assert (HL : LOG_FILE_PATH cwd
               = abs_path ((posixpath.components cwd ++ ["auto_gpt_workspace"])
                             ++ [LOG_FILE]))
    by (unfold LOG_FILE_PATH; rewrite HWD; now apply join_abs).
  assert (HLv : forallb valid_name
                  ((posixpath.components cwd ++ ["auto_gpt_workspace"])
                     ++ [LOG_FILE]) = true)
    by (rewrite forallb_app, Hwv; reflexivity).
  assert (HLc : posixpath.components (LOG_FILE_PATH cwd)
                = ((posixpath.components cwd ++ ["auto_gpt_workspace"])
                     ++ [LOG_FILE])%list)
    by (rewrite HL; now apply components_abs).
  assert (HWc : posixpath.components (WORKING_DIRECTORY cwd)
                = (posixpath.components cwd ++ ["auto_gpt_workspace"])%list)
    by (rewrite HWD; now apply components_abs).
  assert (Hq : forall lp, log_path CFG cwd = inr lp ->
                 posixpath.components (LOG_FILE_PATH cwd)
                 <> posixpath.components lp).
  { intros lp Hlp'. rewrite Hlp in Hlp'. injection Hlp' as <-.
    rewrite HLc. change (posixpath.components "/file_logger.txt")
      with ["file_logger.txt"].
    destruct (posixpath.components cwd) as [|? [|]]; discriminate. }
  split; [assumption|]. split; [|split].
  - intros depth operation filename s s' c Hlog Hc.
    assert (Hfile : log_is_file CFG cwd s' = true).
    { unfold log_is_file. rewrite Hlp.
      change (posixpath.components "/file_logger.txt") with ["file_logger.txt"].
      now rewrite Hc. }
    destruct (log_operation_logs CFG cwd _ _ _ _ _ Hlog Hfile)
      as (lp & Hlp' & c' & Hc' & Hin).
    rewrite Hlp in Hlp'. injection Hlp' as <-.
    change (posixpath.components "/file_logger.txt") with ["file_logger.txt"]
      in Hc'.
    assert (c' = c) as -> by congruence. exact Hin.
  - intros depth operation filename s r s' c Hlog Hc.
    destruct (log_operation_frame CFG cwd _ c Hq depth) as [Hframe _].
    eapply Hframe; eauto.
  - intros depth operation filename s r s' es Hwd Hnone Hlog.
    rewrite log_operation_S in Hlog.
    assert (Hmissing : fs_stat (posixpath.components (LOG_FILE_PATH cwd)) s
                       = inl ENOENT).
    { rewrite HLc, fs_stat_snoc by assumption. rewrite HWc in Hwd.
      now rewrite Hwd, Hnone. }
    rewrite HWc in Hwd.
    destruct (fs_update_snoc (os.on_write "File Operation Logger ")
                LOG_FILE (Some (File "File Operation Logger ")) _ s es HLa Hwd)
      as (s2 & Hu2 & Hs2); [now rewrite Hnone|].
    assert (Hhead : fs_stat (posixpath.components (LOG_FILE_PATH cwd)) s2
                    = inr (File "File Operation Logger ")).
    { rewrite HLc, fs_stat_snoc, Hs2, assoc_set_same by assumption.
      reflexivity. }
    unfold bind at 1, path_exists at 1 in Hlog. rewrite Hmissing in Hlog.
    cbn [negb] in Hlog. unfold bind at 1, open_write in Hlog.
    rewrite sys_update_eq, HLc, Hu2 in Hlog.
    apply bind_inv in Hlog as [(msg & s3 & Happ & Hlog) | (e & Happ & _)].
    + run_done Hlog.
      destruct (log_operation_frame CFG cwd _ "File Operation Logger " Hq depth)
        as [_ Hframe].
      eapply Hframe; eauto.
    + destruct (log_operation_frame CFG cwd _ "File Operation Logger " Hq depth)
        as [_ Hframe].
      eapply Hframe; eauto.
Qed.

Lemma unrestricted_log_is_at_the_root_witness :
  log_path Example.unrestricted Example.cwd = inr "/file_logger.txt" /\
  fs_stat (posixpath.components (LOG_FILE_PATH Example.cwd))
    (snd (log_operation Example.unrestricted Example.cwd 6 "write" "tmp/a.txt"
            Example.fresh))
  = inr (File "File Operation Logger ").
Proof.
  destruct (unrestricted_log_is_at_the_root Example.unrestricted Example.cwd)
    as (Hpath & _ & _ & Hheader); [discriminate | reflexivity |].
  split; [exact Hpath|].
  destruct (log_operation Example.unrestricted Example.cwd 6 "write" "tmp/a.txt"
              Example.fresh) as [r s'] eqn:E.
  apply (Hheader 5 "write" "tmp/a.txt" Example.fresh r s' []);
    [reflexivity | reflexivity | exact E].
Defined.

(** ** When appending and deleting succeed *)

Section Succeeds.

Variable CFG : Config.
Variable cwd : string.

Local Abbreviation WD := (WORKING_DIRECTORY cwd).
Local Abbreviation comps := posixpath.components.

(** What stands elsewhere still stands after an entry is rewritten or
    removed. *)
Lemma fs_update_exists_stays f p q s s' n :
  keeps_dirs f -> fs_update p f s = inr s' ->
  fs_stat q s = inr n -> q <> p -> exists n', fs_stat q s' = inr n'.
Proof.
  intros Hf Hu Hq Hne. destruct n as [c|es].
  - exists (File c). eapply fs_update_frame; eauto.
  - destruct (fs_update_keeps_dir f p q s s' es Hf Hu Hq) as [es' Hes'].
    eauto.
Qed.

(** With the file of [LOG_FILE_PATH] in place and room for two frames,
    [log_operation] returns. *)
Lemma log_operation_returns depth operation filename s n :
  fs_stat (comps (LOG_FILE_PATH cwd)) s = inr n ->
  exists s1,
    log_operation CFG cwd (S (S depth)) operation filename s = (inr tt, s1).
Proof.
  intros Hn.
  destruct (append_to_file_returns CFG cwd depth LOG_FILE
              (log_entry operation filename) s) as (msg & s1 & Happ).
  exists s1. rewrite log_operation_S.
  unfold bind at 1, path_exists. rewrite Hn. cbn [negb].
  unfold bind at 1, ret at 1. now rewrite (bind_run _ _ _ _ _ Happ).
Qed.

End Succeeds.

(** X24: [append_to_file] is never refused as a duplicate.  Whatever the
    log holds, a call on a path where a regular file stands succeeds and
    leaves the text at the end of the file before it logs, when the file of
    [LOG_FILE_PATH] is in place and the interpreter has room for the two
    frames of logging. *)
Theorem append_is_never_refused (CFG : Config) (cwd : string) (depth : nat)
  (filename text p old : string) (n : node) (s : fs) :
  safe_join CFG (WORKING_DIRECTORY cwd) [filename] = inr p ->
  fs_stat (posixpath.components p) s = inr (File old) ->
  fs_stat (posixpath.components (LOG_FILE_PATH cwd)) s = inr n ->
  exists s_a s1,
    fs_update (posixpath.components p) (os.on_append text) s = inr s_a /\
    fs_stat (posixpath.components p) s_a = inr (File (old ++ text)) /\
    log_operation CFG cwd (S (S depth)) "append" filename s_a = (inr tt, s1) /\
    append_to_file CFG cwd (S (S (S depth))) filename text s
    = (inr "Text appended successfully.", s1).
Proof.
  intros Hp Hold Hlog.
  destruct (fs_append_file text _ _ _ Hold) as [s_a Hu].
  destruct (fs_append_found _ _ _ _ Hu) as (c & Hc & Hsame).
  rewrite (Hsame old Hold) in Hc.
  assert (Hlog' : exists n', fs_stat (posixpath.components (LOG_FILE_PATH cwd))
                               s_a = inr n').
  { destruct (list_eq_dec string_dec
                (posixpath.components (LOG_FILE_PATH cwd))
                (posixpath.components p)) as [->|Hne]; [eauto|].
    eapply fs_update_exists_stays; eauto using keeps_dirs_append. }
  destruct Hlog' as [n' Hn'].
  destruct (log_operation_returns CFG cwd depth "append" filename s_a n' Hn')
    as [s1 Hrun].
  exists s_a, s1. repeat split; try assumption.
  rewrite append_to_file_S. apply try_run.
  unfold bind at 1, lift. rewrite Hp.
  unfold bind at 1, open_append. rewrite sys_update_eq, Hu.
  now rewrite (bind_run _ _ _ _ _ Hrun).
Qed.

Lemma append_is_never_refused_witness :
  exists s_a s1,
    fs_update (posixpath.components "/home/agent/auto_gpt_workspace/notes/a.txt")
      (os.on_append "!") Example.written = inr s_a /\
    fs_stat (posixpath.components "/home/agent/auto_gpt_workspace/notes/a.txt")
      s_a = inr (File ("hello" ++ "!")) /\
    log_operation Example.restricted Example.cwd 2 "append" "notes/a.txt" s_a
    = (inr tt, s1) /\
    append_to_file Example.restricted Example.cwd 3 "notes/a.txt" "!"
      Example.written
    = (inr "Text appended successfully.", s1).
Proof.
  apply (append_is_never_refused Example.restricted Example.cwd 0
           "notes/a.txt" "!" "/home/agent/auto_gpt_workspace/notes/a.txt"
           "hello"
           (File ("File Operation Logger " ++ log_entry "write" "notes/a.txt"
                    ++ log_entry "append" LOG_FILE))
           Example.written);
    reflexivity.
Defined.

(** ** Searching below a directory, loading the module *)

Lemma assoc_In name es m : os.assoc name es = Some m -> In (name, m) es.
Proof.
  induction es as [|[k n] es IH]; cbn; [discriminate|].
  destruct (String.eqb_spec k name) as [->|_].
  - intros [= ->]. now left.
  - intros H. right. auto.
Qed.

Lemma names_ok_stat p :
  forall n m, names_ok n = true -> os.stat p n = inr m -> names_ok m = true.
Proof.
  induction p as [|c p IH]; intros n m Hok H.
  - cbn in H. now injection H as <-.
  - destruct n as [t|es]; [discriminate|]. rewrite stat_cons in H.
    destruct (os.assoc c es) as [m0|] eqn:Ea; [|discriminate].
    apply assoc_In in Ea. destruct (names_ok_entry _ _ _ Hok Ea) as [_ Hm0].
    eauto.
Qed.

Lemma dirs_fit_stat p :
  forall len n m, dirs_fit len n = true -> os.stat p n = inr m ->
    dirs_fit (len + os.path_bytes p) m = true.
Proof.
  induction p as [|c p IH]; intros len n m Hfit H.
  - cbn in H. injection H as <-. cbn [os.path_bytes]. now rewrite Nat.add_0_r.
  - destruct n as [t|es]; [discriminate|]. rewrite stat_cons in H.
    destruct (os.assoc c es) as [m0|] eqn:Ea; [|discriminate].
    apply assoc_In in Ea. destruct (dirs_fit_entry _ _ _ _ Hfit Ea) as [_ Hm0].
    cbn [os.path_bytes].
    replace (len + (S (Py.utf8_len c) + os.path_bytes p))
      with (len + S (Py.utf8_len c) + os.path_bytes p) by lia.
    eauto.
Qed.

(** What the walk does not find is not found at the path. *)
Lemma fs_stat_missing p s e :
  os.stat p (Dir s) = inl e -> exists e', fs_stat p s = inl e'.
Proof.
  intros H. destruct (fs_stat p s) as [e'|m] eqn:E; [eauto|].
  apply fs_stat_inr in E as [_ E]. congruence.
Qed.

(** The visible files below a directory of a tree are among those of the
    tree, under the same names. *)
Lemma visible_files_below p :
  forall dirs n m, os.stat p n = inr m ->
    incl (visible_files (dirs ++ p) m) (visible_files dirs n).
Proof.
  induction p as [|c p IH]; intros dirs n m H.
  - cbn in H. injection H as <-. rewrite app_nil_r. apply incl_refl.
  - destruct n as [t|es]; [discriminate|]. rewrite stat_cons in H.
    destruct (os.assoc c es) as [m0|] eqn:Ea; [|discriminate].
    apply assoc_In in Ea. intros names Hin.
    replace (dirs ++ c :: p)%list with ((dirs ++ [c]) ++ p)%list in Hin
      by now rewrite <- app_assoc.
    apply (IH _ _ _ H) in Hin. cbn [visible_files].
    apply in_or_app. right. apply in_flat_map. exists (c, m0). auto.
Qed.

Section SearchBelow.

Variable CFG : Config.
Variable cwd : string.
Hypothesis restricted : Py.lower (working_directory_restricted CFG) = "true".
Hypothesis cwd_canonical : canonical cwd = true.

Local Abbreviation wcs := (posixpath.components cwd ++ ["auto_gpt_workspace"])%list.

Lemma working_directory_components :
  posixpath.components (WORKING_DIRECTORY cwd) = wcs.
Proof.
  destruct (working_directory_abs cwd cwd_canonical) as [-> Hv].
  now apply components_abs.
Qed.

(** The search of the whole working directory. *)
Lemma search_all s :
  workspace_names_ok cwd s = true ->
  search_files CFG cwd "" s
  = (inr (map (Py.join "/") (workspace_files cwd s)), s).
Proof.
  intros Hnames. destruct (working_directory_abs cwd cwd_canonical) as [HWD Hv].
  unfold workspace_files, workspace_names_ok, workspace_node in *.
  unfold search_files, bind, ret. cbn [String.eqb orb].
  rewrite HWD in *. rewrite os_walk_abs by assumption.
  rewrite components_abs in * by assumption.
  destruct (fs_stat wcs s) as [e|n]; [reflexivity|].
  apply andb_true_iff in Hnames as [Hnames Hfit]. f_equal. f_equal.
  rewrite <- (app_nil_r wcs) at 1.
  apply (walk_visible _ Hv); [assumption | reflexivity |].
  now rewrite app_nil_r.
Qed.

(** The search of a directory below the working directory. *)
Lemma search_below dnames s :
  workspace_names_ok cwd s = true ->
  dnames <> [] -> forallb valid_name dnames = true ->
  search_files CFG cwd (Py.join "/" dnames) s
  = (inr (map (Py.join "/")
            match found (wcs ++ dnames)%list (Dir s) with
            | Some n => visible_files dnames n
            | None => []
            end), s).
Proof.
  intros Hnames Hn Hv.
  destruct (working_directory_abs cwd cwd_canonical) as [HWD Hwv].
  assert (Hall : forallb valid_name (wcs ++ dnames)%list = true)
    by (rewrite forallb_app, Hwv, Hv; reflexivity).
  unfold search_files.
  assert (Hdir : String.eqb (Py.join "/" dnames) ""
                 || String.eqb (Py.join "/" dnames) "/" = false).
  { destruct dnames as [|c cs]; [contradiction|].
    cbn [forallb] in Hv. apply andb_true_iff in Hv as [Hc _].
    destruct (join_head c cs Hc) as (a & t & -> & Ha).
    unfold posixpath.sep in Ha. cbn [String.eqb orb]. now rewrite Ha. }
  rewrite Hdir. unfold bind at 1, lift.
  rewrite (safe_join_relative CFG cwd restricted cwd_canonical dnames Hn Hv).
  unfold bind, ret. rewrite os_walk_abs by assumption. unfold found.
  destruct (os.stat (wcs ++ dnames)%list (Dir s)) as [e|n] eqn:En.
  { destruct (fs_stat_missing _ _ _ En) as [e' ->]. reflexivity. }
  destruct (log_file_path_accepts cwd cwd_canonical) as [_ HWa].
  unfold workspace_names_ok, workspace_node in Hnames.
  rewrite working_directory_components in Hnames.
  rewrite fs_stat_accepted in Hnames by assumption.
  pose proof En as En'. rewrite stat_app in En'.
  destruct (os.stat wcs (Dir s)) as [e|n0]; [discriminate|].
  apply andb_true_iff in Hnames as [Hok Hfit].
  pose proof (names_ok_stat _ _ _ Hok En') as Hokn.
  pose proof (dirs_fit_stat _ _ _ _ Hfit En') as Hfitn.
  rewrite <- path_bytes_app in Hfitn.
  destruct n as [c|es].
  - destruct (fs_stat (wcs ++ dnames)%list s) as [e|m] eqn:Ef; [reflexivity|].
    apply fs_stat_inr in Ef as [_ Ef]. rewrite En in Ef. now injection Ef as <-.
  - assert (Ha : os.accepts (wcs ++ dnames)%list = true).
    { apply valid_accepts; [assumption|]. cbn [dirs_fit] in Hfitn.
      apply andb_true_iff in Hfitn as [Hl _]. now apply Nat.ltb_lt in Hl. }
    rewrite fs_stat_accepted, En by assumption.
    f_equal. f_equal. rewrite HWD.
    now apply (walk_visible _ Hwv).
Qed.

End SearchBelow.

(** X15: with the restriction on, a normalised working directory and entries
    of valid names, [search_files] of a directory below the working directory
    returns the visible files below that directory under their paths from the
    working directory (the path of the directory in front); every one of them
    is also found by the search of the whole working directory; and a
    directory that does not exist, or a regular file, gives the empty list,
    not an error. *)
Theorem search_files_below_a_directory (CFG : Config) (cwd : string)
  (dnames : list string) (s : fs) :
  Py.lower (working_directory_restricted CFG) = "true" ->
  canonical cwd = true ->
  workspace_names_ok cwd s = true ->
  dnames <> [] -> forallb valid_name dnames = true ->
  exists found_below found_all,
    search_files CFG cwd (Py.join "/" dnames) s = (inr found_below, s) /\
    search_files CFG cwd "" s = (inr found_all, s) /\
    found_below
    = map (Py.join "/")
        match found (posixpath.components cwd ++ ["auto_gpt_workspace"]
                       ++ dnames)%list (Dir s) with
        | Some n => visible_files dnames n
        | None => []
        end /\
    incl found_below found_all /\
    (forall n, found (posixpath.components cwd ++ ["auto_gpt_workspace"]
                        ++ dnames)%list (Dir s) = Some n ->
               (exists es, n = Dir es) \/ found_below = []) /\
    (found (posixpath.components cwd ++ ["auto_gpt_workspace"] ++ dnames)%list
       (Dir s) = None -> found_below = []).
Proof.
  intros Hr Hcwd Hnames Hn Hv.
  rewrite (search_below CFG cwd Hr Hcwd dnames s Hnames Hn Hv).
  rewrite (search_all CFG cwd Hcwd s Hnames).
  rewrite <- app_assoc.
  destruct (log_file_path_accepts cwd Hcwd) as [_ HWa].
  eexists _, _. split; [reflexivity|]. split; [reflexivity|].
  split; [reflexivity|]. split; [|split].
  - unfold workspace_files, workspace_node, found.
    rewrite (working_directory_components cwd Hcwd).
    rewrite fs_stat_accepted by assumption.
    rewrite app_assoc, stat_app.
    destruct (os.stat (posixpath.components cwd ++ ["auto_gpt_workspace"])%list
                (Dir s)) as [e|n0]; [apply incl_refl|].
    destruct (os.stat dnames n0) as [e|n] eqn:En; [apply incl_nil_l|].
    apply incl_map. exact (visible_files_below dnames [] n0 n En).
  - intros n ->. destruct n as [t|es]; [now right | left; eauto].
  - now intros ->.
Qed.

Lemma search_files_below_a_directory_witness :
  exists found_below found_all,
    search_files Example.restricted Example.cwd (Py.join "/" ["sub"])
      Example.with_hidden = (inr found_below, Example.with_hidden) /\
    search_files Example.restricted Example.cwd "" Example.with_hidden
    = (inr found_all, Example.with_hidden) /\
    found_below
    = map (Py.join "/")
        match found (posixpath.components Example.cwd
                       ++ ["auto_gpt_workspace"] ++ ["sub"])%list
                (Dir Example.with_hidden) with
        | Some n => visible_files ["sub"] n
        | None => []
        end /\
    incl found_below found_all /\
    (forall n, found (posixpath.components Example.cwd
                        ++ ["auto_gpt_workspace"] ++ ["sub"])%list
                 (Dir Example.with_hidden) = Some n ->
               (exists es, n = Dir es) \/ found_below = []) /\
    (found (posixpath.components Example.cwd ++ ["auto_gpt_workspace"]
              ++ ["sub"])%list (Dir Example.with_hidden) = None ->
     found_below = []).
Proof.
  apply (search_files_below_a_directory Example.restricted Example.cwd ["sub"]
           Example.with_hidden); try reflexivity.
  discriminate.
Defined.

(** X16: loading the module in a current directory that exists makes the
    working directory when nothing of that name stands there and changes
    nothing otherwise; it changes no regular file, and doing it again
    changes nothing. *)
Theorem module_init_makes_the_directory (cwd : string) (s : fs)
  (es : list (string * node)) :
  canonical cwd = true ->
  fs_stat (posixpath.components cwd) s = inr (Dir es) ->
  exists s',
    module_init cwd s = (inr tt, s') /\
    path_exists (WORKING_DIRECTORY cwd) s' = (inr true, s') /\
    (os.assoc "auto_gpt_workspace" es = None ->
     fs_stat (posixpath.components (WORKING_DIRECTORY cwd)) s' = inr (Dir [])) /\
    (os.assoc "auto_gpt_workspace" es <> None -> s' = s) /\
    (forall q c, fs_stat q s = inr (File c) -> fs_stat q s' = inr (File c)) /\
    module_init cwd s' = (inr tt, s').
Proof.
  intros Hcwd Hes.
  destruct (working_directory_abs cwd Hcwd) as [HWD Hv].
  destruct (log_file_path_accepts cwd Hcwd) as [_ HWa].
  pose proof (working_directory_components cwd Hcwd) as HWc.
  set (wcs := (posixpath.components cwd ++ ["auto_gpt_workspace"])%list) in *.
  assert (Hagain : forall s' n, fs_stat wcs s' = inr n ->
                     module_init cwd s' = (inr tt, s') /\
                     path_exists (WORKING_DIRECTORY cwd) s' = (inr true, s')).
  { intros s' n Hn. unfold module_init, bind, path_exists.
    rewrite HWc, Hn. split; reflexivity. }
  assert (Hstat : fs_stat wcs s
                  = match os.assoc "auto_gpt_workspace" es with
                    | Some m => inr m
                    | None => inl ENOENT
                    end)
    by (unfold wcs; rewrite fs_stat_snoc by assumption; now rewrite Hes).
  destruct (os.assoc "auto_gpt_workspace" es) as [m|] eqn:Ea.
  - exists s. destruct (Hagain s m Hstat) as [H1 H2].
    repeat split; try assumption; try congruence; auto.
  - destruct (makedirs_makes wcs (valid_names_pieces _ Hv) HWa
                (List.length wcs) s ENOENT (le_n _))
      as (s' & Hrun & Hs').
    + intros j m Hj Hm. unfold wcs in Hj, Hm.
      rewrite length_app in Hj. cbn in Hj.
      rewrite firstn_app in Hm.
      replace (j - List.length (posixpath.components cwd)) with 0 in Hm by lia.
      cbn [firstn] in Hm. rewrite app_nil_r in Hm.
      destruct (Nat.eq_dec j (List.length (posixpath.components cwd)))
        as [->|Hne].
      * rewrite firstn_all in Hm. rewrite Hes in Hm. injection Hm as <-. eauto.
      * rewrite <- (firstn_skipn j (posixpath.components cwd)) in Hes.
        apply fs_stat_inr in Hes as [_ Hes]. apply fs_stat_inr in Hm as [_ Hm].
        destruct (stat_prefix_dir _ _ _ _ Hes) as [es0 Hes0].
        -- intros Hnil. apply (f_equal (@List.length string)) in Hnil.
           rewrite length_skipn in Hnil. cbn in Hnil. lia.
        -- rewrite Hes0 in Hm. injection Hm as <-. eauto.
    + now rewrite firstn_all.
    + rewrite firstn_all in Hs'. exists s'.
      destruct (Hagain s' _ Hs') as [H1 H2].
      assert (Hinit : module_init cwd s = (inr tt, s')).
      { unfold module_init, bind, path_exists. rewrite HWc, Hstat. cbn [negb].
        unfold os_makedirs. now rewrite HWc. }
      repeat split; try assumption.
      * intros _. now rewrite HWc.
      * congruence.
      * intros q c Hq. eapply makedirs_frame; eauto.
Qed.

Lemma module_init_makes_the_directory_witness :
  exists s',
    module_init Example.cwd [("home", Dir [("agent", Dir [])])] = (inr tt, s') /\
    path_exists (WORKING_DIRECTORY Example.cwd) s' = (inr true, s') /\
    (os.assoc "auto_gpt_workspace" [] = None ->
     fs_stat (posixpath.components (WORKING_DIRECTORY Example.cwd)) s'
     = inr (Dir [])) /\
    (os.assoc "auto_gpt_workspace" [] <> None ->
     s' = [("home", Dir [("agent", Dir [])])]) /\
    (forall q c, fs_stat q [("home", Dir [("agent", Dir [])])] = inr (File c) ->
                 fs_stat q s' = inr (File c)) /\
    module_init Example.cwd s' = (inr tt, s').
Proof.
  apply (module_init_makes_the_directory Example.cwd
           [("home", Dir [("agent", Dir [])])] []); reflexivity.
Defined.

(** ** Ingesting a file *)

Section IngestFacts.

Context {mem : Type} {memory_add : Memory mem}.

Variable filename : string.
Variable num_chunks : nat.

(** The loop over the chunks when no [add] raises. *)
Lemma ingest_chunks_total :
  (forall text m, fst (add text m) = inr tt) ->
  forall chunks i memory printed,
    ingest_chunks filename num_chunks i chunks memory printed
    = (inr tt,
       fold_left (fun m text => snd (add text m))
         (map (fun ic => memory_to_add filename (fst ic) num_chunks (snd ic))
            (combine (seq i (List.length chunks)) chunks))
         memory,
       (printed ++
        map (fun k => ("Ingesting chunk " ++ builtins.str_nat (k + 1) ++ " / " ++
                       builtins.str_nat num_chunks ++ " into memory")%string)
          (seq i (List.length chunks)))%list).
Proof.
  intros Htotal. induction chunks as [|chunk rest IH]; intros i memory printed.
  - cbn. now rewrite app_nil_r.
  - cbn [ingest_chunks List.length seq combine map fold_left fst snd].
    pose proof (Htotal (memory_to_add filename i num_chunks chunk) memory) as Ha.
    destruct (add (memory_to_add filename i num_chunks chunk) memory)
      as [[e|[]] memory'] eqn:E; [discriminate|].
    cbn [snd]. rewrite IH. rewrite <- app_assoc. reflexivity.
Qed.

Lemma ingest_texts_nth chunks k :
  k < List.length chunks ->
  nth k (map (fun ic => memory_to_add filename (fst ic) num_chunks (snd ic))
           (combine (seq 0 (List.length chunks)) chunks)) ""
  = memory_to_add filename k num_chunks (nth k chunks "").
Proof.
  intros Hk.
  set (f := fun ic : nat * string =>
              memory_to_add filename (fst ic) num_chunks (snd ic)).
  rewrite (nth_indep _ "" (f (0, "")))
    by (rewrite length_map, length_combine, length_seq; lia).
  rewrite map_nth, combine_nth by now rewrite length_seq.
  rewrite seq_nth by assumption. reflexivity.
Qed.

End IngestFacts.

(** X17: with [0 <= overlap < max_length] and a memory whose [add] never
    raises, [ingest_file] returns, leaves the files as they are, and hands
    to [memory.add], in order, one text for every chunk of what [read_file]
    returned for the name: the length of that text divided by
    [max_length - overlap], rounded up, many; text [k] names the file, the
    part [k + 1] of that number, and holds
    [content[k * stride : k * stride + max_length + overlap]].  It prints
    the file, its length, one line for every chunk and the number done. *)
Theorem ingest_file_feeds_the_chunks (CFG : Config) (cwd : string)
  (mem : Type) (memory_add : Memory mem) (fuel : nat)
  (filename content : string) (memory : mem) (max_length overlap : Z)
  (s : fs) :
  (forall text m, fst (add text m) = inr tt) ->
  (0 <= overlap < max_length)%Z ->
  read_file CFG cwd filename s = (inr content, s) ->
  String.length content <= fuel ->
  exists texts,
    ingest_file CFG cwd fuel filename memory max_length overlap s
    = Some (fold_left (fun m text => snd (add text m)) texts memory,
            (["Working with file " ++ filename;
              "File length: " ++ builtins.str_int (Py.len content)
                ++ " characters"]%string ++
             map (fun k => ("Ingesting chunk " ++ builtins.str_nat (k + 1)
                            ++ " / " ++ builtins.str_nat (List.length texts)
                            ++ " into memory")%string)
               (seq 0 (List.length texts)) ++
             ["Done ingesting " ++ builtins.str_nat (List.length texts)
                ++ " chunks from " ++ filename ++ "."]%string)%list,
            s) /\
    Z.of_nat (List.length texts)
    = ((Py.len content + (max_length - overlap) - 1)
       / (max_length - overlap))%Z /\
    forall k, k < List.length texts ->
      nth k texts ""
      = memory_to_add filename k (List.length texts)
          (Py.slice content (Z.of_nat k * (max_length - overlap))
             (Z.of_nat k * (max_length - overlap) + max_length + overlap)).
Proof.
  intros Htotal Hov Hread Hfuel.
  destruct (split_file_chunks content max_length overlap Hov)
    as (chunks & Hrun & Hcount & Hnth).
  set (texts := map (fun ic => memory_to_add filename (fst ic)
                                 (List.length chunks) (snd ic))
                  (combine (seq 0 (List.length chunks)) chunks)).
  assert (Hlen : List.length texts = List.length chunks)
    by (unfold texts; rewrite length_map, length_combine, length_seq; lia).
  exists texts. rewrite Hlen. split; [|split].
  - unfold ingest_file. rewrite Hread, (Hrun fuel Hfuel).
    rewrite (ingest_chunks_total filename (List.length chunks) Htotal).
    fold texts. reflexivity.
  - assumption.
  - intros k Hk. unfold texts. rewrite ingest_texts_nth by assumption.
    now rewrite (Hnth k Hk).
Qed.

Lemma ingest_file_feeds_the_chunks_witness :
  exists texts,
    ingest_file Example.restricted Example.cwd 5 "notes/a.txt"
      ([] : list string) 4 1 Example.written
    = Some (fold_left (fun m text => snd (add text m)) texts [],
            (["Working with file " ++ "notes/a.txt";
              "File length: " ++ builtins.str_int (Py.len "hello")
                ++ " characters"]%string ++
             map (fun k => ("Ingesting chunk " ++ builtins.str_nat (k + 1)
                            ++ " / " ++ builtins.str_nat (List.length texts)
                            ++ " into memory")%string)
               (seq 0 (List.length texts)) ++
             ["Done ingesting " ++ builtins.str_nat (List.length texts)
                ++ " chunks from " ++ "notes/a.txt" ++ "."]%string)%list,
            Example.written) /\
    Z.of_nat (List.length texts) = ((Py.len "hello" + (4 - 1) - 1) / (4 - 1))%Z /\
    forall k, k < List.length texts ->
      nth k texts ""
      = memory_to_add "notes/a.txt" k (List.length texts)
          (Py.slice "hello" (Z.of_nat k * (4 - 1))
             (Z.of_nat k * (4 - 1) + 4 + 1)).
Proof.
  apply (ingest_file_feeds_the_chunks Example.restricted Example.cwd
           (list string) Sample.recording 5 "notes/a.txt" "hello" [] 4 1
           Example.written).
  - intros text m. reflexivity.
  - lia.
  - vm_compute; reflexivity.
  - cbn. lia.
Defined.



(** ** Texts inside texts *)

Section ContainsFacts.

(** A text inside a text inside a third is inside the third. *)
Lemma contains_trans hay needle part :
  Py.contains hay needle = true -> Py.contains needle part = true ->
  Py.contains hay part = true.
Proof.
  intros H1 H2. apply contains_inv in H1 as (a & b & ->).
  apply contains_inv in H2 as (a' & b' & ->).
  replace (a ++ (a' ++ part ++ b') ++ b) with ((a ++ a') ++ part ++ (b' ++ b))
    by now rewrite !str_app_assoc.
  apply contains_intro.
Qed.

Lemma str_app_inj_r t :
  forall a b, a ++ t = b ++ t -> a = b.
Proof.
  assert (Hlen : forall c x, t <> String c (x ++ t)).
  { intros c x H. apply (f_equal String.length) in H.
    cbn in H. rewrite str_length_app in H. lia. }
  induction a as [|x a IH]; intros [|y b] H; cbn in H.
  - reflexivity.
  - now apply Hlen in H.
  - symmetry in H. now apply Hlen in H.
  - injection H as -> H. f_equal. auto.
Qed.

Lemma scan_app a :
  forall q b, scan q (a ++ b) = scan (scan q a) b.
Proof. induction a as [|c a IH]; intros q b; cbn; auto. Qed.

Lemma scan_found s : scan 3 s = 3.
Proof. induction s as [|c s IH]; cbn; auto. Qed.

(** A text that holds [t i] brings the scan to its end from every state. *)
Lemma contains_scan s :
  Py.contains s "t i" = true -> forall q, scan q s = 3.
Proof.
  induction s as [|c s IH]; cbn [Py.contains]; intros H q.
  - discriminate.
  - apply orb_true_iff in H as [H|H]; [|cbn [scan]; auto].
    apply prefix_inv in H as [t Ht]. rewrite Ht. cbn [String.append scan].
    unfold scan_step. destruct (Nat.eqb q 3); cbn; apply scan_found.
Qed.

(** Over a text without a space the scan does not pass its first state. *)
Lemma scan_no_space k :
  Py.has_char " " k = false -> forall q, q <= 1 -> scan q k <= 1.
Proof.
  induction k as [|c k IH]; cbn [Py.has_char scan]; intros H q Hq;
    [assumption|].
  apply orb_false_iff in H as [Hc Hk]. apply IH; [assumption|].
  unfold scan_step. destruct q as [|[|q]]; [| |lia]; cbn [Nat.eqb andb];
    rewrite ?Hc; destruct (Ascii.eqb c "t"); cbn; lia.
Qed.

End ContainsFacts.

(** ** Dictionaries *)

Section DictFacts.

Context {V : Type}.

Lemma get_set_same k (v : V) d : dict.get k (dict.set k v d) = Some v.
Proof.
  induction d as [|[k' v'] d IH]; cbn.
  - now rewrite String.eqb_refl.
  - destruct (String.eqb k' k) eqn:E; cbn; now rewrite E.
Qed.

Lemma get_set_other k k' (v : V) d :
  k <> k' -> dict.get k' (dict.set k v d) = dict.get k' d.
Proof.
  intros Hk. induction d as [|[k0 v0] d IH]; cbn.
  - destruct (String.eqb_spec k k'); [contradiction | reflexivity].
  - destruct (String.eqb_spec k0 k) as [->|Hne]; cbn.
    + destruct (String.eqb_spec k k'); [contradiction | reflexivity].
    + now rewrite IH.
Qed.

Lemma keys_set k (v : V) d :
  dict.keys (dict.set k v d)
  = if existsb (String.eqb k) (dict.keys d) then dict.keys d
    else (dict.keys d ++ [k])%list.
Proof.
  induction d as [|[k0 v0] d IH]; cbn; [reflexivity|].
  rewrite (String.eqb_sym k k0).
  destruct (String.eqb k0 k); cbn; [reflexivity|].
  unfold dict.keys in IH. rewrite IH.
  destruct (existsb (String.eqb k) (map fst d)); reflexivity.
Qed.

Lemma existsb_eqb_In k l : existsb (String.eqb k) l = true <-> In k l.
Proof.
  rewrite existsb_exists. split.
  - intros (x & Hx & E). apply String.eqb_eq in E. now subst.
  - intros H. exists k. split; [assumption | apply String.eqb_refl].
Qed.

Lemma NoDup_snoc {A} (l : list A) x : NoDup l -> ~ In x l -> NoDup (l ++ [x]).
Proof.
  induction 1 as [|y l Hy Hl IH]; intros Hx; cbn.
  - constructor; [intros [] | constructor].
  - constructor.
    + rewrite in_app_iff. intros [H|[<-|[]]]; [contradiction|].
      apply Hx. now left.
    + apply IH. intros H. apply Hx. now right.
Qed.

Lemma keys_set_nodup k (v : V) d :
  NoDup (dict.keys d) -> NoDup (dict.keys (dict.set k v d)).
Proof.
  intros H. rewrite keys_set.
  destruct (existsb (String.eqb k) (dict.keys d)) eqn:E; [assumption|].
  apply NoDup_snoc; [assumption|].
  rewrite <- existsb_eqb_In, E. discriminate.
Qed.

(** A key that is new comes last. *)
Lemma set_new k (v : V) d :
  ~ In k (dict.keys d) -> dict.set k v d = (d ++ [(k, v)])%list.
Proof.
  induction d as [|[k0 v0] d IH]; cbn; intros H; [reflexivity|].
  destruct (String.eqb_spec k0 k) as [->|Hne]; [tauto|].
  rewrite IH; [reflexivity | tauto].
Qed.

End DictFacts.

(** ** The code-flow component *)

Section CodeFlowFacts.

Variable Command : Type.
Variable names : Command -> list string.

Local Abbreviation component := (CodeFlow.CodeFlowExecutionComponent Command).

(** One function of the comprehension: all its names are bound to it. *)
Lemma bind_names (function : Command) name ns :
  forall d : dict.t Command,
    dict.get name (fold_left (fun d' n => dict.set n function d') ns d)
    = if existsb (String.eqb name) ns then Some function else dict.get name d.
Proof.
  induction ns as [|n ns IH]; intros d; cbn [fold_left existsb]; [reflexivity|].
  rewrite IH. destruct (existsb (String.eqb name) ns); [now rewrite orb_true_r|].
  rewrite orb_false_r. destruct (String.eqb_spec name n) as [->|Hne].
  - apply get_set_same.
  - apply get_set_other. congruence.
Qed.

Lemma bind_names_nodup (function : Command) ns :
  forall d : dict.t Command,
    NoDup (dict.keys d) ->
    NoDup (dict.keys (fold_left (fun d' n => dict.set n function d') ns d)).
Proof.
  induction ns as [|n ns IH]; intros d H; cbn [fold_left]; [assumption|].
  apply IH. now apply keys_set_nodup.
Qed.

Lemma find_app {A} (f : A -> bool) l1 l2 :
  find f (l1 ++ l2)
  = match find f l1 with Some x => Some x | None => find f l2 end.
Proof.
  induction l1 as [|x l1 IH]; cbn; [reflexivity|].
  destruct (f x); [reflexivity | assumption].
Qed.

Lemma bind_functions name functions :
  forall d : dict.t Command,
    dict.get name
      (fold_left
         (fun d0 function =>
            fold_left (fun d' n => dict.set n function d') (names function) d0)
         functions d)
    = match find (fun function => existsb (String.eqb name) (names function))
              (rev functions) with
      | Some function => Some function
      | None => dict.get name d
      end.
Proof.
  induction functions as [|f fs IH]; intros d; cbn [fold_left rev find];
    [reflexivity|].
  rewrite IH, find_app. cbn [find].
  destruct (find _ (rev fs)); [reflexivity|].
  rewrite bind_names. destruct (existsb (String.eqb name) (names f)); reflexivity.
Qed.

Lemma bind_functions_nodup functions :
  forall d : dict.t Command,
    NoDup (dict.keys d) ->
    NoDup (dict.keys
             (fold_left
                (fun d0 function =>
                   fold_left (fun d' n => dict.set n function d')
                     (names function) d0)
                functions d)).
Proof.
  induction functions as [|f fs IH]; intros d H; cbn [fold_left]; [assumption|].
  apply IH. now apply bind_names_nodup.
Qed.

Lemma available_functions_nodup (self : component) functions :
  NoDup (dict.keys (CodeFlow.available_functions
                      (CodeFlow.set_available_functions names self functions))).
Proof. apply bind_functions_nodup. constructor. Qed.

(** The comprehension of the globals over a dictionary. *)
Lemma globals_of (d : dict.t Command) :
  NoDup (dict.keys d) ->
  forall acc : dict.t Command,
    (forall k, In k (dict.keys d) -> ~ In (k ++ "_func") (dict.keys acc)) ->
    fold_left (fun acc' item => dict.set (fst item ++ "_func") (snd item) acc')
      d acc
    = (acc ++ map (fun item => ((fst item ++ "_func")%string, snd item)) d)%list.
Proof.
  induction d as [|[k v] d IH]; intros Hd acc Hacc; cbn [fold_left map fst snd].
  - now rewrite app_nil_r.
  - cbn in Hd. apply NoDup_cons_iff in Hd as [Hk Hd].
    rewrite set_new by (apply Hacc; now left).
    rewrite IH; [now rewrite <- app_assoc | assumption |].
    intros k' Hk'. unfold dict.keys. rewrite map_app, in_app_iff.
    intros [H|[H|[]]].
    + apply (Hacc k'); [now right | assumption].
    + cbn in H. apply str_app_inj_r in H. subst k'. contradiction.
Qed.

Lemma get_globals name (d : dict.t Command) :
  dict.get (name ++ "_func")
    (map (fun item => (fst item ++ "_func", snd item)) d)
  = dict.get name d.
Proof.
  induction d as [|[k v] d IH]; cbn; [reflexivity|].
  destruct (String.eqb_spec k name) as [->|Hne].
  - now rewrite String.eqb_refl.
  - destruct (String.eqb_spec (k ++ "_func") (name ++ "_func")) as [E|_];
      [apply str_app_inj_r in E; contradiction | assumption].
Qed.

End CodeFlowFacts.

(** X19: [set_available_functions] replaces the dictionary: afterwards a
    name is bound to the last function of the list that has it among its
    [names], and to nothing when no function has it, whatever the dictionary
    held before; no name is listed twice. *)
Theorem set_available_functions_last_wins (Command : Type)
  (names : Command -> list string)
  (self : CodeFlow.CodeFlowExecutionComponent Command)
  (functions : list Command) (name : string) :
  dict.get name
    (CodeFlow.available_functions
       (CodeFlow.set_available_functions names self functions))
  = find (fun function => existsb (String.eqb name) (names function))
      (rev functions) /\
  NoDup (dict.keys
           (CodeFlow.available_functions
              (CodeFlow.set_available_functions names self functions))).
Proof.
  split; [|apply available_functions_nodup].
  cbn [CodeFlow.set_available_functions CodeFlow.available_functions].
  rewrite bind_functions. now destruct (find _ (rev functions)).
Qed.

(** X20: the globals [execute_code_flow] hands to [exec] bind, for every
    available name, [name_func] to the function the name is bound to, in the
    order of the names, and nothing else: the wrapper the header defines for
    a name calls that function. *)
Theorem exec_globals_bind_the_functions (Command : Type)
  (names : Command -> list string)
  (self : CodeFlow.CodeFlowExecutionComponent Command)
  (functions : list Command) (name : string) :
  let component := CodeFlow.set_available_functions names self functions in
  dict.get (name ++ "_func") (CodeFlow.exec_globals component)
  = dict.get name (CodeFlow.available_functions component) /\
  dict.keys (CodeFlow.exec_globals component)
  = map (fun n => n ++ "_func")
      (dict.keys (CodeFlow.available_functions component)).
Proof.
  intros component.
  assert (E : CodeFlow.exec_globals component
              = map (fun item => (fst item ++ "_func", snd item))
                  (CodeFlow.available_functions component)).
  { unfold CodeFlow.exec_globals. rewrite globals_of.
    - reflexivity.
    - apply available_functions_nodup.
    - intros k _ []. }
  rewrite E. split; [apply get_globals|].
  unfold dict.keys. rewrite !map_map. reflexivity.
Qed.

Section Header.

Local Abbreviation import_line := ("import inspect" ++ Py.newline).

Lemma wrapper_scan name :
  Py.has_char " " name = false -> scan 0 (CodeFlow.wrapper name) = 0.
Proof.
  intros Hname.
  pose (A := Py.newline ++ "async def ").
  pose (B := "(*args, **kwargs):" ++ Py.newline ++ "    result = ").
  pose (C := "_func(*args, **kwargs)" ++ Py.newline ++
             "    if inspect.isawaitable(result):" ++ Py.newline ++
             "        result = await result" ++ Py.newline ++
             "    return result" ++ Py.newline).
  assert (HB : forall q, q <= 1 -> scan q B = 0)
    by (intros [|[|q]] Hq; [reflexivity | reflexivity | lia]).
  assert (HC : forall q, q <= 1 -> scan q C = 0)
    by (intros [|[|q]] Hq; [reflexivity | reflexivity | lia]).
  change (CodeFlow.wrapper name) with (A ++ name ++ B ++ name ++ C).
  rewrite (scan_app A), (scan_app name), (scan_app B), (scan_app name).
  change (scan 0 A) with 0.
  rewrite (HB (scan 0 name)) by (apply scan_no_space; [assumption | lia]).
  apply HC. apply scan_no_space; [assumption | lia].
Qed.

Lemma wrapper_has_no_import name :
  Py.has_char " " name = false ->
  Py.contains (CodeFlow.wrapper name) import_line = false.
Proof.
  intros Hname. destruct (Py.contains _ import_line) eqn:E; [|reflexivity].
  assert (H : Py.contains (CodeFlow.wrapper name) "t i" = true)
    by (eapply contains_trans; [exact E | reflexivity]).
  apply contains_scan with (q := 0) in H.
  rewrite wrapper_scan in H by assumption. discriminate.
Qed.

End Header.

(** X21: the header of the code imports [inspect] only between two
    wrappers.  For available names without a space, the header holds the line
    [import inspect] exactly when there are two names or more: with one
    available function the wrapper that calls [inspect.isawaitable] stands in
    a header that never imports [inspect]. *)
Theorem code_header_imports_inspect_between_wrappers (Command : Type)
  (self : CodeFlow.CodeFlowExecutionComponent Command) :
  (forall name, In name (dict.keys (CodeFlow.available_functions self)) ->
                Py.has_char " " name = false) ->
  Py.contains (CodeFlow.code_header self) ("import inspect" ++ Py.newline)
  = Nat.leb 2 (List.length (dict.keys (CodeFlow.available_functions self))).
Proof.
  unfold CodeFlow.code_header.
  destruct (dict.keys (CodeFlow.available_functions self)) as [|k1 [|k2 ks]];
    intros Hnames.
  - reflexivity.
  - cbn [map Py.join String.concat List.length Nat.leb].
    apply wrapper_has_no_import. apply Hnames. now left.
  - cbn [List.length Nat.leb map]. unfold Py.join.
    change (String.concat ("import inspect" ++ Py.newline)
              (CodeFlow.wrapper k1 :: CodeFlow.wrapper k2 :: map CodeFlow.wrapper ks))
      with (CodeFlow.wrapper k1 ++ ("import inspect" ++ Py.newline) ++
            String.concat ("import inspect" ++ Py.newline)
              (CodeFlow.wrapper k2 :: map CodeFlow.wrapper ks)).
    apply contains_intro.
Qed.

Lemma code_header_imports_inspect_between_wrappers_witness :
  Py.contains
    (CodeFlow.code_header
       (CodeFlow.set_available_functions (fun f : string => [f])
          (CodeFlow.__init__ string) ["read_file"]))
    ("import inspect" ++ Py.newline) = false /\
  Py.contains
    (CodeFlow.code_header
       (CodeFlow.set_available_functions (fun f : string => [f])
          (CodeFlow.__init__ string) ["read_file"; "write_to_file"]))
    ("import inspect" ++ Py.newline) = true.
Proof.
  split.
  - apply (code_header_imports_inspect_between_wrappers string
             (CodeFlow.set_available_functions (fun f : string => [f])
                (CodeFlow.__init__ string) ["read_file"])).
    intros name [<-|[]]. reflexivity.
  - apply (code_header_imports_inspect_between_wrappers string
             (CodeFlow.set_available_functions (fun f : string => [f])
                (CodeFlow.__init__ string) ["read_file"; "write_to_file"])).
    intros name [<-|[<-|[]]]; reflexivity.
Defined.

(** X22: [execute_code_flow] shows at most 1035 characters of the result.
    A result of up to [MAX_RESULT_LENGTH] characters is shown as it is; a
    longer one is cut to its first 1000 characters followed by the note of 35
    characters, so the text shown always begins with the first 1000
    characters of the result and a result of 1001 to 1034 characters is
    shown longer than it was. *)
Theorem execute_code_flow_limits_the_result (Command E : Type)
  (interpreter : string -> dict.t Command -> E + string)
  (self : CodeFlow.CodeFlowExecutionComponent Command)
  (python_code plan_text result : string) :
  interpreter (CodeFlow.code self python_code) (CodeFlow.exec_globals self)
    = inr result ->
  exists shown,
    CodeFlow.execute_code_flow interpreter self python_code plan_text
    = inr ("Execution Plan:" ++ Py.newline ++ plan_text ++ Py.newline ++
           Py.newline ++ "Execution Output:" ++ Py.newline ++ shown) /\
    ((Py.len result <= 1000)%Z -> shown = result) /\
    ((1000 < Py.len result)%Z ->
     shown = Py.slice result 0 1000 ++ "...[Truncated, Content is too long]" /\
     Py.len shown = 1035%Z) /\
    (Py.len shown <= 1035)%Z /\
    String.prefix (Py.slice result 0 1000) shown = true.
Proof.
  intros Hrun. exists (CodeFlow.limit result).
  unfold CodeFlow.execute_code_flow. rewrite Hrun.
  split; [reflexivity|].
  assert (Hcut : (1000 < Py.len result)%Z ->
                 Py.len (Py.slice result 0 1000
                         ++ "...[Truncated, Content is too long]") = 1035%Z).
  { intros Hlong. unfold Py.len at 1. rewrite str_length_app, Nat2Z.inj_add.
    fold (Py.len (Py.slice result 0 1000)). rewrite slice_len by lia.
    cbn [String.length]. lia. }
  unfold CodeFlow.limit, CodeFlow.MAX_RESULT_LENGTH.
  destruct (Z.ltb_spec 1000 (Py.len result)) as [Hlong|Hshort].
  - split; [lia|]. split; [auto|]. split; [rewrite Hcut; lia|].
    apply prefix_self_app.
  - split; [reflexivity|]. split; [lia|]. split; [lia|].
    rewrite slice_eq by lia.
    replace (Z.to_nat (Z.min 0 (Py.len result))) with 0 by lia.
    rewrite Nat.sub_0_r, substring_whole by (unfold Py.len in *; lia).
    rewrite <- (str_app_nil result) at 2. apply prefix_self_app.
Qed.

Lemma execute_code_flow_limits_the_result_witness :
  exists shown,
    CodeFlow.execute_code_flow
      (fun (_ : string) (_ : dict.t string) =>
         inr (repeat_str "0123456789" 101) : unit + string)
      (CodeFlow.__init__ string) "async def main(): pass" "plan"
    = inr ("Execution Plan:" ++ Py.newline ++ "plan" ++ Py.newline ++
           Py.newline ++ "Execution Output:" ++ Py.newline ++ shown) /\
    ((Py.len (repeat_str "0123456789" 101) <= 1000)%Z ->
     shown = repeat_str "0123456789" 101) /\
    ((1000 < Py.len (repeat_str "0123456789" 101))%Z ->
     shown = Py.slice (repeat_str "0123456789" 101) 0 1000
             ++ "...[Truncated, Content is too long]" /\
     Py.len shown = 1035%Z) /\
    (Py.len shown <= 1035)%Z /\
    String.prefix (Py.slice (repeat_str "0123456789" 101) 0 1000) shown = true.
Proof.
  apply (execute_code_flow_limits_the_result string unit
           (fun _ _ => inr (repeat_str "0123456789" 101))
           (CodeFlow.__init__ string) "async def main(): pass" "plan"
           (repeat_str "0123456789" 101)).
  reflexivity.
Defined.

(** ** What the guard keeps the file store away from *)

Section PrefixPaths.

Local Abbreviation sep := posixpath.sep.

Lemma split_nonempty c s : Py.split c s <> [].
Proof.
  induction s as [|a s IH]; cbn; [discriminate|].
  destruct (Ascii.eqb a c); [discriminate|].
  destruct (Py.split c s); [contradiction | discriminate].
Qed.

(** Splitting at a separator splits the parts on both sides of it. *)
Lemma split_at_sep x y :
  Py.split sep (x ++ String sep y) = (Py.split sep x ++ Py.split sep y)%list.
Proof.
  induction x as [|a x IH]; cbn [String.append Py.split].
  - now rewrite Ascii.eqb_refl.
  - rewrite IH. destruct (Ascii.eqb a sep); [reflexivity|].
    destruct (Py.split sep x) as [|h t] eqn:E; [|reflexivity].
    now apply split_nonempty in E.
Qed.

Lemma components_at_sep x y :
  posixpath.components (x ++ String sep y)
  = (posixpath.components x ++ posixpath.components y)%list.
Proof.
  unfold posixpath.components. now rewrite split_at_sep, filter_app.
Qed.

(** A text that begins with a name begins, as a path, with a component
    that begins with the name. *)
Lemma split_head w :
  Py.has_char sep w = false ->
  forall t, exists h tl, Py.split sep (w ++ t) = (w ++ h) :: tl.
Proof.
  induction w as [|a w IH]; intros Hw t.
  - cbn [String.append]. destruct (Py.split sep t) as [|h tl] eqn:E;
      [now apply split_nonempty in E | eauto].
  - cbn [Py.has_char] in Hw. apply orb_false_iff in Hw as [Ha Hw].
    destruct (IH Hw t) as (h & tl & E).
    cbn [String.append Py.split]. rewrite Ha, E. eauto.
Qed.

Lemma components_head w t :
  w <> "" -> Py.has_char sep w = false ->
  exists name rest,
    posixpath.components (w ++ t) = name :: rest /\
    String.prefix w name = true.
Proof.
  intros Hne Hw. destruct (split_head w Hw t) as (h & tl & E).
  unfold posixpath.components. rewrite E. cbn [filter].
  replace (String.eqb (w ++ h) "") with false
    by (destruct w; [contradiction | reflexivity]).
  cbn [negb]. eexists _, _. split; [reflexivity | apply prefix_self_app].
Qed.

(** A path that begins, character by character, with the path of a
    directory [cs ++ [w]] lies in the directory [cs] below a name that
    begins with [w]. *)
Lemma prefixed_components cs w p :
  forallb valid_name (cs ++ [w]) = true ->
  String.prefix (abs_path (cs ++ [w])) p = true ->
  exists name rest,
    posixpath.components p = (cs ++ name :: rest)%list /\
    String.prefix w name = true.
Proof.
  intros Hv Hp. apply prefix_inv in Hp as [t ->].
  pose proof Hv as Hv'. rewrite forallb_app in Hv'.
  apply andb_true_iff in Hv' as [Hcs Hw].
  cbn in Hw. rewrite andb_true_r in Hw.
  apply valid_name_inv in Hw as (Hw1 & Hw2 & _).
  destruct (components_head w t Hw1 Hw2) as (name & rest & Hc & Hpre).
  exists name, rest. split; [|assumption].
  destruct cs as [|c cs].
  - change (abs_path ([] ++ [w]) ++ t) with ("" ++ String sep (w ++ t)).
    now rewrite components_at_sep, Hc.
  - rewrite abs_path_snoc by discriminate.
    rewrite str_app_assoc.
    change (String sep w ++ t) with (String sep (w ++ t)).
    rewrite components_at_sep, Hc. now rewrite components_abs.
Qed.

End PrefixPaths.

(** What the file store leaves alone with the restriction on. *)
Lemma restricted_store_frame (CFG : Config) (cwd : string)
  (cs : list (nat * command)) (q : path) (content : string) :
  Py.lower (working_directory_restricted CFG) = "true" ->
  canonical cwd = true ->
  (forall name rest,
      q = (posixpath.components cwd ++ name :: rest)%list ->
      String.prefix "auto_gpt_workspace" name = false) ->
  forall s,
    fs_stat q s = inr (File content) ->
    fs_stat q (exec_all CFG cwd cs s) = inr (File content).
Proof.
  intros Hr Hcwd Hout.
  destruct (working_directory_abs cwd Hcwd) as [HWD Hv].
  set (ok := fun p : path =>
               exists name rest,
                 p = (posixpath.components cwd ++ name :: rest)%list /\
                 String.prefix "auto_gpt_workspace" name = true).
  assert (Hok : forall p, String.prefix (WORKING_DIRECTORY cwd) p = true ->
                          ok (posixpath.components p)).
  { intros p Hp. rewrite HWD in Hp. exact (prefixed_components _ _ _ Hv Hp). }
  assert (Hjoin : forall filename p,
             safe_join CFG (WORKING_DIRECTORY cwd) [filename] = inr p ->
             ok (posixpath.components p)).
  { intros filename p Hp. apply Hok.
    rewrite safe_join_restricted_prefix in Hp by assumption. cbv zeta in Hp.
    destruct (String.prefix _ _) eqn:E; [|discriminate].
    now injection Hp as <-. }
  induction cs as [|[d c] cs IH]; intros s Hq; [assumption|].
  cbn [exec_all fold_left fst snd]. apply IH.
  apply (exec_keeps CFG cwd (fun s' => fs_stat q s' = inr (File content)) ok);
    try assumption.
  - intros f p s0 s' e Hf He Hu Hs. eapply fs_update_frame; eauto.
    intros ->. congruence.
  - intros f p s0 s' Hf (name & rest & -> & Hname) Hu Hs.
    eapply fs_update_frame; eauto.
    intros ->. rewrite (Hout name rest eq_refl) in Hname. discriminate.
  - intros lp Hlp. exact (Hjoin LOG_FILE lp Hlp).
  - destruct c; trivial; intros p Hp; eapply Hjoin; eauto.
Qed.

(** X23: what the guard of [safe_join] does keep.  With the restriction on
    and a normalised working directory, no sequence of calls of the file
    store changes a regular file outside the entries of the current
    directory whose names begin with [auto_gpt_workspace]: such a file holds
    the same content afterwards.  (The entries beside the working directory
    whose names begin with its name are not protected.) *)
Theorem restricted_store_keeps_other_files (CFG : Config) (cwd : string)
  (cs : list (nat * command)) (s : fs) (q : path) (content : string) :
  Py.lower (working_directory_restricted CFG) = "true" ->
  canonical cwd = true ->
  fs_stat q s = inr (File content) ->
  (forall name rest,
      q = (posixpath.components cwd ++ name :: rest)%list ->
      String.prefix "auto_gpt_workspace" name = false) ->
  fs_stat q (exec_all CFG cwd cs s) = inr (File content).
Proof.
  intros Hr Hcwd Hq Hout. now apply restricted_store_frame.
Qed.

Lemma restricted_store_keeps_other_files_witness :
  fs_stat ["home"; "agent"; "secret.txt"]
    (exec_all Example.restricted Example.cwd
       [(4, Write "../secret.txt" "x"); (4, Delete "../secret.txt");
        (4, Append "/home/agent/secret.txt" "x"); (4, Write "a.txt" "b")]
       Sample.with_outside)
  = inr (File "secret") /\
  fs_stat ["etc"; "passwd"]
    (exec_all Example.restricted Example.cwd
       [(4, Append "../../../etc/passwd" "x"); (4, Delete "/etc/passwd")]
       Sample.with_outside)
  = inr (File "root").
Proof.
  split.
  - apply (restricted_store_keeps_other_files Example.restricted Example.cwd
             [(4, Write "../secret.txt" "x"); (4, Delete "../secret.txt");
              (4, Append "/home/agent/secret.txt" "x"); (4, Write "a.txt" "b")]
             Sample.with_outside ["home"; "agent"; "secret.txt"] "secret");
      try reflexivity.
    intros name rest [= <- <-]. reflexivity.
  - apply (restricted_store_keeps_other_files Example.restricted Example.cwd
             [(4, Append "../../../etc/passwd" "x"); (4, Delete "/etc/passwd")]
             Sample.with_outside ["etc"; "passwd"] "root");
      try reflexivity.
    intros name rest [=].
Defined.

(** ** Paths as [normpath] leaves them *)

Section NormalPaths.

Local Abbreviation sep := posixpath.sep.















End NormalPaths.


(** ** When a write succeeds *)




Section WriteAccepted.

Variable CFG : Config.
Variable cwd : string.

Local Abbreviation WD := (WORKING_DIRECTORY cwd).
Local Abbreviation comps := posixpath.components.



End WriteAccepted.

(** ** Write once (C3) *)




(** ** Round trip (C4) *)

(** C4, as the code has it: after a [write_to_file] that succeeds,
    [read_file] of the same name returns the text written as text mode
    reads it, every [\r\n] and every other [\r] as [\n], so exactly the
    text written when that has no carriage return, for every name that does
    not resolve to the log file. *)
Theorem C4_read_after_write (CFG : Config) (cwd : string) (depth : nat)
  (filename text : string) (s s1 : fs) :
  write_to_file CFG cwd depth filename text s
    = (inr "File written to successfully.", s1) ->
  is_log_name CFG cwd filename = false ->
  check_duplicate_operation CFG cwd "write" filename s = (inr false, s) /\
  read_file CFG cwd filename s1 = (inr (Py.universal_newlines text), s1) /\
  (Py.has_char Py.cr text = false ->
   read_file CFG cwd filename s1 = (inr text, s1)).
Proof.
  intros Hw Hname.
  destruct (write_success _ _ _ _ _ _ _ Hw)
    as (Hnew & p & s_dir & s_file & Hp & _ & Hu & Hlog).
  split; [assumption|].
  apply fs_write_found in Hu.
  assert (Hq : forall lp, log_path CFG cwd = inr lp ->
                          posixpath.components p <> posixpath.components lp).
  { intros lp Hlp Heq. symmetry in Heq. revert Heq.
    eapply is_log_name_false; eauto. }
  destruct (log_operation_frame CFG cwd (posixpath.components p) text Hq depth)
    as [Hframe _].
  assert (Hread : read_file CFG cwd filename s1
                  = (inr (Py.universal_newlines text), s1)).
  { rewrite read_file_eq, Hp, (Hframe _ _ _ _ _ Hlog Hu). reflexivity. }
  split; [exact Hread|].
  intros Hcr. rewrite Hread, (un_without_cr _ Hcr). reflexivity.
Qed.

Lemma C4_read_after_write_witness :
  write_to_file Example.restricted Example.cwd 4 "notes/a.txt" "hello"
    Example.fresh = (inr "File written to successfully.", Example.written) /\
  is_log_name Example.restricted Example.cwd "notes/a.txt" = false /\
  read_file Example.restricted Example.cwd "notes/a.txt" Example.written
  = (inr "hello", Example.written).
Proof.
  assert (Hw : write_to_file Example.restricted Example.cwd 4 "notes/a.txt"
                 "hello" Example.fresh
               = (inr "File written to successfully.", Example.written))
    by (vm_compute; reflexivity).
  split; [exact Hw | split; [reflexivity|]].
  apply (C4_read_after_write Example.restricted Example.cwd 4 "notes/a.txt"
           "hello" Example.fresh Example.written Hw eq_refl).
  reflexivity.
Defined.

(** Written through the file store, the log file reads back with the log
    lines behind the text; a text with a carriage return reads back with a
    line feed in its place. *)
Lemma C4_counterexample :
  (check_duplicate_operation Example.restricted Example.cwd
     "write" "file_logger.txt" Example.fresh = (inr false, Example.fresh) /\
   write_to_file Example.restricted Example.cwd 4 "file_logger.txt" "hello"
     Example.fresh
   = (inr "File written to successfully.", Example.log_written) /\
   read_file Example.restricted Example.cwd "file_logger.txt"
     Example.log_written
   = (inr ("hello" ++ log_entry "write" "file_logger.txt"
                   ++ log_entry "append" "file_logger.txt"),
      Example.log_written) /\
   "hello" ++ log_entry "write" "file_logger.txt"
           ++ log_entry "append" "file_logger.txt" <> "hello") /\
  (check_duplicate_operation Example.restricted Example.cwd
     "write" "cr.txt" Example.fresh = (inr false, Example.fresh) /\
   write_to_file Example.restricted Example.cwd 4 "cr.txt" Example.cr_text
     Example.fresh
   = (inr "File written to successfully.", Example.text_written) /\
   read_file Example.restricted Example.cwd "cr.txt" Example.text_written
   = (inr (String "a" (String Py.nl "b")), Example.text_written) /\
   String "a" (String Py.nl "b") <> Example.cr_text).
Proof.
  split; repeat split; try (vm_compute; reflexivity); discriminate.
Qed.

(** ** Delete after delete (C8) *)




(** ** Without the restriction *)

Lemma join_root_relative names :
  names <> [] -> forallb valid_name names = true ->
  posixpath.join "/" [Py.join "/" names] = abs_path names.
Proof.
  intros Hn Hv. cbn [posixpath.join fold_left].
  destruct names as [|x names]; [contradiction|].
  cbn [forallb] in Hv. apply andb_true_iff in Hv as [Hx _].
  destruct (join_head x names Hx) as (a & t & Ej & Ha).
  unfold posixpath.join1, Py.startswith, abs_path. rewrite Ej.
  rewrite (prefix_slash_false a t Ha). reflexivity.
Qed.

(** X2: with the restriction off, [safe_join] ignores [base] and resolves
    the segments against the root of the file system: a relative path of
    valid names resolves to the path of these names from the root, whatever
    [base] is, and [read_file] of it reads the file that stands there,
    whatever the current directory is. *)
Theorem safe_join_without_restriction (CFG : Config) (base : string)
  (paths : list string) :
  Py.lower (working_directory_restricted CFG) <> "true" ->
  safe_join CFG base paths
  = inr (posixpath.normpath (posixpath.join "/" paths)) /\
  (forall names,
      names <> [] -> forallb valid_name names = true ->
      safe_join CFG base [Py.join "/" names] = inr (abs_path names) /\
      (forall cwd s c,
          fs_stat names s = inr (File c) ->
          read_file CFG cwd (Py.join "/" names) s
          = (inr (Py.universal_newlines c), s))).
Proof.
  intros H. split; [now apply safe_join_unrestricted|].
  intros names Hn Hv.
  assert (Hj : forall b, safe_join CFG b [Py.join "/" names]
                         = inr (abs_path names)).
  { intros b. rewrite safe_join_unrestricted by assumption.
    now rewrite join_root_relative, normpath_abs. }
  split; [apply Hj|].
  intros cwd s c Hc.
  now rewrite read_file_eq, Hj, components_abs, Hc.
Qed.

Lemma safe_join_without_restriction_witness :
  safe_join Example.unrestricted (WORKING_DIRECTORY Example.cwd)
    ["notes"; "../a.txt"]
  = inr "/a.txt" /\
  read_file Example.unrestricted Example.cwd "home/agent/x.txt"
    [("home", Dir [("agent", Dir [("x.txt", File "hello")])])]
  = (inr "hello", [("home", Dir [("agent", Dir [("x.txt", File "hello")])])]).
Proof.
  destruct (safe_join_without_restriction Example.unrestricted
              (WORKING_DIRECTORY Example.cwd) ["notes"; "../a.txt"])
    as [Hjoin Hnames]; [discriminate|].
  split; [exact Hjoin|].
  destruct (Hnames ["home"; "agent"; "x.txt"]) as [_ Hread];
    [discriminate | reflexivity |].
  exact (Hread Example.cwd
           [("home", Dir [("agent", Dir [("x.txt", File "hello")])])]
           "hello" eq_refl).
Defined.

(** ** Append, then read *)

(** X8: after an [append_to_file] that succeeds, [read_file] of the same name
    returns what the file held before followed by the text appended (the
    text alone when there was no file) as text mode reads it: exactly these
    characters when there is no carriage return among them.  For every name
    that does not resolve to the log file. *)
Theorem append_then_read (CFG : Config) (cwd : string) (depth : nat)
  (filename text : string) (s s1 : fs) :
  append_to_file CFG cwd depth filename text s
    = (inr "Text appended successfully.", s1) ->
  is_log_name CFG cwd filename = false ->
  exists p old,
    safe_join CFG (WORKING_DIRECTORY cwd) [filename] = inr p /\
    fs_stat (posixpath.components p) s1 = inr (File (old ++ text)) /\
    read_file CFG cwd filename s1
    = (inr (Py.universal_newlines (old ++ text)), s1) /\
    (Py.has_char Py.cr (old ++ text) = false ->
     read_file CFG cwd filename s1 = (inr (old ++ text), s1)) /\
    ((fs_stat (posixpath.components p) s = inr (File old) /\
      read_file CFG cwd filename s = (inr (Py.universal_newlines old), s)) \/
     (old = "" /\ exists e, fs_stat (posixpath.components p) s = inl e)).
Proof.
  intros Ha Hname.
  destruct (append_success _ _ _ _ _ _ _ Ha) as (d & p & s_a & -> & Hp & Hu & Hlog).
  destruct (fs_append_cases _ _ _ _ Hu) as (old & Hnew & Hold).
  exists p, old. split; [assumption|].
  assert (Hq : forall lp, log_path CFG cwd = inr lp ->
                          posixpath.components p <> posixpath.components lp).
  { intros lp Hlp Heq. symmetry in Heq. revert Heq.
    eapply is_log_name_false; eauto. }
  destruct (log_operation_frame CFG cwd (posixpath.components p) (old ++ text)
              Hq d) as [Hframe _].
  pose proof (Hframe _ _ _ _ _ Hlog Hnew) as Hend.
  assert (Hread : read_file CFG cwd filename s1
                  = (inr (Py.universal_newlines (old ++ text)), s1)).
  { rewrite read_file_eq, Hp, Hend. reflexivity. }
  split; [exact Hend|]. split; [exact Hread|]. split.
  - intros Hcr. rewrite Hread, (un_without_cr _ Hcr). reflexivity.
  - destruct Hold as [Hold|Hold]; [left | right; assumption].
    split; [assumption|]. now rewrite read_file_eq, Hp, Hold.
Qed.

Lemma append_then_read_witness :
  exists p old,
    safe_join Example.restricted (WORKING_DIRECTORY Example.cwd) ["notes/a.txt"]
    = inr p /\
    fs_stat (posixpath.components p)
      (snd (append_to_file Example.restricted Example.cwd 5 "notes/a.txt"
              ", world" Example.written))
    = inr (File (old ++ ", world")) /\
    read_file Example.restricted Example.cwd "notes/a.txt"
      (snd (append_to_file Example.restricted Example.cwd 5 "notes/a.txt"
              ", world" Example.written))
    = (inr (Py.universal_newlines (old ++ ", world")),
       snd (append_to_file Example.restricted Example.cwd 5 "notes/a.txt"
              ", world" Example.written)) /\
    (Py.has_char Py.cr (old ++ ", world") = false ->
     read_file Example.restricted Example.cwd "notes/a.txt"
       (snd (append_to_file Example.restricted Example.cwd 5 "notes/a.txt"
               ", world" Example.written))
     = (inr (old ++ ", world"),
        snd (append_to_file Example.restricted Example.cwd 5 "notes/a.txt"
               ", world" Example.written))) /\
    ((fs_stat (posixpath.components p) Example.written = inr (File old) /\
      read_file Example.restricted Example.cwd "notes/a.txt" Example.written
      = (inr (Py.universal_newlines old), Example.written)) \/
     (old = "" /\
      exists e, fs_stat (posixpath.components p) Example.written = inl e)).
Proof.
  apply (append_then_read Example.restricted Example.cwd 5 "notes/a.txt"
           ", world" Example.written).
  - vm_compute; reflexivity.
  - reflexivity.
Defined.

(** ** A first delete *)

(** X25: a first [delete_file] succeeds on a regular file.  With no
    [delete] entry for the name in the log, a regular file at the path, the
    file of [LOG_FILE_PATH] in place at another path and room for the two
    frames of logging, the call removes the file, logs the operation on the
    tree without the file and returns success.  In the tree it leaves,
    nothing stands at the path when the name does not resolve to the log,
    every other regular file but the log holds what it held, and the log
    holds the entry where it is a regular file. *)
Theorem delete_file_succeeds (CFG : Config) (cwd : string) (depth : nat)
  (filename p old : string) (n : node) (s : fs) :
  safe_join CFG (WORKING_DIRECTORY cwd) [filename] = inr p ->
  check_duplicate_operation CFG cwd "delete" filename s = (inr false, s) ->
  fs_stat (posixpath.components p) s = inr (File old) ->
  fs_stat (posixpath.components (LOG_FILE_PATH cwd)) s = inr n ->
  posixpath.components (LOG_FILE_PATH cwd) <> posixpath.components p ->
  exists s_gone s1,
    fs_update (posixpath.components p) os.on_remove s = inr s_gone /\
    found (posixpath.components p) (Dir s_gone) = None /\
    log_operation CFG cwd (S (S depth)) "delete" filename s_gone
    = (inr tt, s1) /\
    delete_file CFG cwd (S (S depth)) filename s
    = (inr "File deleted successfully.", s1) /\
    (is_log_name CFG cwd filename = false ->
     exists e, fs_stat (posixpath.components p) s1 = inl e) /\
    (forall q c,
        fs_stat q s = inr (File c) -> q <> posixpath.components p ->
        (forall lp, log_path CFG cwd = inr lp ->
                    q <> posixpath.components lp) ->
        fs_stat q s1 = inr (File c)) /\
    (log_is_file CFG cwd s1 = true ->
     log_has CFG cwd (log_entry "delete" filename) s1).
Proof.
  intros Hp Hdup Hold Hlog Hne.
  pose proof (fs_stat_inr _ _ _ Hold) as [Hacc _].
  assert (Hrm : exists s_gone,
             fs_update (posixpath.components p) os.on_remove s = inr s_gone).
  { destruct (exists_last (l := posixpath.components p)) as (d & name & Hd).
    - intros Hnil. rewrite Hnil in Hold. discriminate.
    - rewrite Hd in *. rewrite fs_stat_snoc in Hold by assumption.
      destruct (fs_stat d s) as [e|[c|es]] eqn:Ed; try discriminate.
      destruct (os.assoc name es) as [m|] eqn:Ea; [|discriminate].
      injection Hold as ->.
      destruct (fs_update_snoc os.on_remove name None d s es Hacc Ed)
        as (s_gone & Hu & _); [now rewrite Ea | eauto]. }
  destruct Hrm as [s_gone Hu].
  destruct (fs_update_found _ _ _ _ Hu) as (o & Hf & Hs).
  assert (o = None) as ->.
  { rewrite (stat_found _ _ _ Hold) in Hf. now injection Hf as <-. }
  destruct (fs_update_exists_stays _ _ _ _ _ _ keeps_dirs_remove Hu Hlog Hne)
    as [n' Hn'].
  destruct (log_operation_returns CFG cwd depth "delete" filename s_gone n' Hn')
    as [s1 Hrun].
  exists s_gone, s1.
  split; [assumption|]. split; [assumption|]. split; [assumption|].
  split; [|split; [|split]].
  - unfold delete_file. rewrite (bind_run _ _ _ _ _ Hdup). apply try_run.
    unfold bind at 1, lift. rewrite Hp.
    unfold bind at 1, os_remove. rewrite sys_update_eq, Hu.
    now rewrite (bind_run _ _ _ _ _ Hrun).
  - intros Hname.
    assert (Hgone : exists e, fs_stat (posixpath.components p) s_gone = inl e).
    { rewrite fs_stat_accepted by assumption. unfold found in Hs.
      destruct (os.stat (posixpath.components p) (Dir s_gone)) as [e|m];
        [eauto | discriminate]. }
    destruct (log_recursion_keeps CFG cwd
                (fun s' => exists e, fs_stat (posixpath.components p) s' = inl e)
                (fun q => posixpath.components p <> q))
      with (depth := S (S depth)) as [Hkeep _].
    + intros text s0 s' e He Hu0 [e0 He0].
      eapply fs_update_absent_stays; eauto using leaves_write.
    + intros q text s0 s' Hq Hu0 [e0 He0].
      eapply fs_update_absent_stays; eauto using leaves_append.
    + intros lp Hlp Heq. symmetry in Heq. revert Heq.
      eapply is_log_name_false; eauto.
    + eapply Hkeep; eauto.
  - intros q c Hq Hqp Hql.
    destruct (log_operation_frame CFG cwd q c Hql (S (S depth))) as [Hframe _].
    eapply Hframe; [exact Hrun|].
    eapply fs_update_frame; eauto using keeps_dirs_remove.
  - intros Hfile. eapply log_operation_logs; eauto.
Qed.

Lemma delete_file_succeeds_witness :
  exists s_gone s1,
    fs_update (posixpath.components "/home/agent/auto_gpt_workspace/notes/a.txt")
      os.on_remove Example.written = inr s_gone /\
    found (posixpath.components "/home/agent/auto_gpt_workspace/notes/a.txt")
      (Dir s_gone) = None /\
    log_operation Example.restricted Example.cwd 2 "delete" "notes/a.txt"
      s_gone = (inr tt, s1) /\
    delete_file Example.restricted Example.cwd 2 "notes/a.txt" Example.written
    = (inr "File deleted successfully.", s1) /\
    (is_log_name Example.restricted Example.cwd "notes/a.txt" = false ->
     exists e,
       fs_stat
         (posixpath.components "/home/agent/auto_gpt_workspace/notes/a.txt")
         s1 = inl e) /\
    (forall q c,
        fs_stat q Example.written = inr (File c) ->
        q <> posixpath.components "/home/agent/auto_gpt_workspace/notes/a.txt" ->
        (forall lp, log_path Example.restricted Example.cwd = inr lp ->
                    q <> posixpath.components lp) ->
        fs_stat q s1 = inr (File c)) /\
    (log_is_file Example.restricted Example.cwd s1 = true ->
     log_has Example.restricted Example.cwd (log_entry "delete" "notes/a.txt")
       s1).
Proof.
  apply (delete_file_succeeds Example.restricted Example.cwd 0
           "notes/a.txt" "/home/agent/auto_gpt_workspace/notes/a.txt" "hello"
           (File ("File Operation Logger " ++ log_entry "write" "notes/a.txt"
                    ++ log_entry "append" LOG_FILE))
           Example.written);
    try reflexivity.
  vm_compute. discriminate.
Defined.

(** ** Entries that were never logged *)

Lemma un_app_suffix c t :
  exists l, Py.universal_newlines (c ++ t) = l ++ Py.universal_newlines t.
Proof.
  destruct (un_app c t) as [E | (u & z' & -> & Hu & E)]; rewrite E; [eauto|].
  exists u. rewrite Hu, str_app_assoc. reflexivity.
Qed.

Lemma contains_app_behind c t e :
  Py.contains t e = true -> Py.contains (c ++ t) e = true.
Proof.
  intros H. apply contains_inv in H as (a & b & ->).
  rewrite <- str_app_assoc. apply contains_intro.
Qed.

(** As text mode reads them, the characters of a text stay where more is
    appended, and come last where the text is appended. *)
Lemma reads_app_l c t e :
  Py.contains (Py.universal_newlines c) e = true ->
  Py.contains (Py.universal_newlines (c ++ t)) e = true.
Proof.
  intros H. destruct (un_app_prefix c t) as [r ->]. now apply contains_app_l.
Qed.

Lemma reads_app_r c t e :
  Py.contains (Py.universal_newlines t) e = true ->
  Py.contains (Py.universal_newlines (c ++ t)) e = true.
Proof.
  intros H. destruct (un_app_suffix c t) as [l ->].
  now apply contains_app_behind.
Qed.

(** X26: the log can be written through the file store.  When the log is a
    regular file, an [append_to_file] on the name of the log with a text
    that holds, as text mode reads it, the line of an entry makes
    [check_duplicate_operation] report that operation as done: a
    [write_to_file] or [delete_file] of the name is then refused as a
    duplicate though it never happened. *)
Theorem log_entries_can_be_planted (CFG : Config) (cwd : string) (depth : nat)
  (kind filename text : string) (s : fs) :
  log_is_file CFG cwd s = true ->
  Py.contains (Py.universal_newlines text) (log_entry kind filename) = true ->
  exists s',
    snd (append_to_file CFG cwd (S depth) LOG_FILE text s) = s' /\
    check_duplicate_operation CFG cwd kind filename s' = (inr true, s') /\
    (kind = "write" ->
     forall depth' text',
       write_to_file CFG cwd depth' filename text' s'
       = (inr "Error: File has already been updated.", s')) /\
    (kind = "delete" ->
     forall depth',
       delete_file CFG cwd depth' filename s'
       = (inr "Error: File has already been deleted.", s')).
Proof.
  intros Hfile Htext.
  destruct (log_is_file_inv CFG cwd s Hfile) as (lp & c & Hlp & Hc).
  destruct (append_to_file CFG cwd (S depth) LOG_FILE text s) as [r s'] eqn:E.
  exists s'. split; [reflexivity|].
  set (P := fun c0 => Py.contains (Py.universal_newlines c0)
                        (log_entry kind filename) = true).
  assert (HP : forall c0 t, P c0 -> P (c0 ++ t))
    by (intros c0 t; apply reads_app_l).
  assert (Hhas : file_sat (posixpath.components lp) P s').
  { rewrite append_to_file_S in E.
    assert (Hbody : forall r0 s0,
               (filepath <- lift (safe_join CFG (WORKING_DIRECTORY cwd)
                                    [LOG_FILE]) ;;
                open_append filepath text ;;;
                log_operation CFG cwd depth "append" LOG_FILE ;;;
                ret "Text appended successfully.") s = (r0, s0) ->
               file_sat (posixpath.components lp) P s0).
    { intros r0 s0 Hb.
      apply bind_inv in Hb as [(p & s1 & Hp & Hb) | (e & Hp & _)];
        apply lift_inv in Hp as [Hp ->];
        [|unfold log_path in Hlp; congruence].
      assert (p = lp) as -> by (unfold log_path in Hlp; congruence).
      destruct (fs_append_file text _ _ _ Hc) as [s_a Hu].
      destruct (fs_append_found _ _ _ _ Hu) as (c' & Hc' & _).
      assert (Hs_a : file_sat (posixpath.components lp) P s_a).
      { exists (c' ++ text). split; [assumption | now apply reads_app_r]. }
      destruct (appends_keep CFG cwd (posixpath.components lp) P HP depth)
        as [Hkeep _].
      unfold bind at 1, open_append in Hb. rewrite sys_update_eq, Hu in Hb.
      apply bind_inv in Hb as [([] & s2 & Hlog & Hb) | (e & Hlog & _)].
      - run_done Hb. eapply Hkeep; eauto.
      - eapply Hkeep; eauto. }
    apply try_inv in E as [(msg & E & _) | (e & s1 & E & Hh)].
    - eapply Hbody; eauto.
    - run_done Hh. eapply Hbody; eauto. }
  assert (Hdup : check_duplicate_operation CFG cwd kind filename s'
                 = (inr true, s')).
  { destruct Hhas as (c1 & Hc1 & Hin).
    rewrite check_duplicate_eq, read_file_eq.
    unfold log_path in Hlp. rewrite Hlp, Hc1. cbn [fst].
    unfold P in Hin. now rewrite Hin. }
  split; [assumption|]. split.
  - intros -> depth' text'. unfold write_to_file, bind. now rewrite Hdup.
  - intros -> depth'. unfold delete_file, bind. now rewrite Hdup.
Qed.

Lemma log_entries_can_be_planted_witness :
  exists s',
    snd (append_to_file Example.restricted Example.cwd 3 LOG_FILE
           (log_entry "write" "b.txt") Example.written) = s' /\
    check_duplicate_operation Example.restricted Example.cwd "write" "b.txt" s'
    = (inr true, s') /\
    ("write" = "write" ->
     forall depth' text',
       write_to_file Example.restricted Example.cwd depth' "b.txt" text' s'
       = (inr "Error: File has already been updated.", s')) /\
    ("write" = "delete" ->
     forall depth',
       delete_file Example.restricted Example.cwd depth' "b.txt" s'
       = (inr "Error: File has already been deleted.", s')).
Proof.
  apply (log_entries_can_be_planted Example.restricted Example.cwd 2
           "write" "b.txt" (log_entry "write" "b.txt") Example.written);
    reflexivity.
Defined.
